(** * Shallow embedding of the js-datatypes exercises

    Four independent functions are modelled here, each from its source file:
    - [parseWhatsAppMessage]  (src/06-whatsapp-parser.js)
    - [validateForm]          (the form validator)
    - [generateLocalPass]     (src/05-mumbai-local-pass.js)
    - [processRailwayPNR]     (src/12-railway-pnr-system.js)

    JavaScript strings are sequences of UTF-16 code units, values are the
    plain data of the language (undefined, null, booleans, numbers, strings,
    arrays and records), and a call either returns or throws.

    The definitions follow the sources statement by statement; the built-in
    methods they call ([indexOf], [substring], [split], [trim], [parseInt],
    ...) are defined first. Two facilities of the host are not written
    out but taken as parameters: the text and the truth value of a number
    ([NumberOps]) and the case mapping of strings ([CaseOps]). *)

From Stdlib Require Import ZArith NArith Ascii String DecimalString.
From stdpp Require Import gmap strings list fin_maps.

Set Warnings "-register-all".
Open Scope Z_scope.

(** ** Strings *)

(** A string is the list of its UTF-16 code units. *)
Definition jsstring := list N.

(** [js "abc"] is the string of a Basic Latin literal. *)
Definition js (s : string) : jsstring :=
  (λ a, N_of_ascii a) <$> list_ascii_of_string s.

Arguments js : simpl never.

(** U+1F602 (face with tears of joy), a surrogate pair. *)
Definition laughing_emoji : jsstring := [0xD83D; 0xDE02]%N.
(** U+2764 (heavy black heart). *)
Definition heart : jsstring := [0x2764]%N.
(** U+2192 (rightwards arrow). *)
Definition arrow : jsstring := [0x2192]%N.

Definition SPACE : N := 32%N.
Definition LF : N := 10%N.

Definition unit_eqb (a b : N) : bool := (a =? b)%N.

(** [===] on two strings. *)
Fixpoint str_eqb (a b : jsstring) : bool :=
  match a, b with
  | [], [] => true
  | x :: a', y :: b' => unit_eqb x y && str_eqb a' b'
  | _, _ => false
  end.

(** [s.startsWith(pat)] *)
Fixpoint startsWith (s pat : jsstring) {struct pat} : bool :=
  match pat, s with
  | [], _ => true
  | _ :: _, [] => false
  | p :: pat', c :: s' => unit_eqb p c && startsWith s' pat'
  end.

(** Position of the first occurrence of [pat] in [s]. *)
Fixpoint find_first (pat s : jsstring) : option nat :=
  if startsWith s pat then Some 0%nat
  else match s with
       | [] => None
       | _ :: s' => S <$> find_first pat s'
       end.

(** Position of the last occurrence of [pat] in [s]. *)
Fixpoint find_last (pat s : jsstring) : option nat :=
  match s with
  | [] => if startsWith [] pat then Some 0%nat else None
  | _ :: s' =>
      match find_last pat s' with
      | Some i => Some (S i)
      | None => if startsWith s pat then Some 0%nat else None
      end
  end.

Definition index_result (r : option nat) : Z :=
  match r with
  | Some i => Z.of_nat i
  | None => -1
  end.

(** [s.indexOf(pat)] and [s.lastIndexOf(pat)]: an index, or -1. *)
Definition indexOf (s pat : jsstring) : Z := index_result (find_first pat s).
Definition lastIndexOf (s pat : jsstring) : Z := index_result (find_last pat s).

(** [s.includes(pat)] *)
Definition includes (s pat : jsstring) : bool :=
  match find_first pat s with
  | Some _ => true
  | None => false
  end.

(** An index argument of [substring]: clamped to [0, length]. *)
Definition clamp_index (len : nat) (i : Z) : nat :=
  Z.to_nat (Z.max 0 (Z.min i (Z.of_nat len))).

(** [s.substring(a, b)]: the arguments are clamped, and swapped when
    [a > b]. *)
Definition substring (s : jsstring) (a b : Z) : jsstring :=
  let a' := clamp_index (length s) a in
  let b' := clamp_index (length s) b in
  take (Nat.max a' b' - Nat.min a' b') (drop (Nat.min a' b') s).

(** [s.substring(a)] *)
Definition substring_from (s : jsstring) (a : Z) : jsstring :=
  drop (clamp_index (length s) a) s.

(** An index argument of [slice]: negative values count from the end. *)
Definition relative_index (len : nat) (i : Z) : nat :=
  if i <? 0 then Z.to_nat (Z.max 0 (Z.of_nat len + i))
  else Z.to_nat (Z.min i (Z.of_nat len)).

(** [s.slice(a, b)] *)
Definition slice (s : jsstring) (a b : Z) : jsstring :=
  let from := relative_index (length s) a in
  let to := relative_index (length s) b in
  take (to - from) (drop from s).

(** [s.slice(a)] *)
Definition slice_from (s : jsstring) (a : Z) : jsstring :=
  drop (relative_index (length s) a) s.

(** [s.charAt(i)]: the one-unit string at [i], or the empty string. *)
Definition charAt (s : jsstring) (i : nat) : jsstring :=
  match s !! i with
  | Some c => [c]
  | None => []
  end.

(** The code units that [trim] removes: WhiteSpace and LineTerminator of
    the language definition. *)
Definition is_whitespace (c : N) : bool :=
  ((9 <=? c) && (c <=? 13) || (c =? 32) || (c =? 160) || (c =? 5760)
   || (8192 <=? c) && (c <=? 8202) || (c =? 8232) || (c =? 8233)
   || (c =? 8239) || (c =? 8287) || (c =? 12288) || (c =? 65279))%N.

Fixpoint trimStart (s : jsstring) : jsstring :=
  match s with
  | c :: s' => if is_whitespace c then trimStart s' else s
  | [] => []
  end.

Definition trimEnd (s : jsstring) : jsstring :=
  reverse (trimStart (reverse s)).

(** [s.trim()] *)
Definition trim (s : jsstring) : jsstring := trimEnd (trimStart s).

(** [split_scan sep skip cur s] reads [s] from the left; [cur] is the piece
    being built and [skip] the number of units of a separator that was
    found and is still to be passed over. *)
Fixpoint split_scan (sep : jsstring) (skip : nat) (cur s : jsstring)
  : list jsstring :=
  match s with
  | [] => [cur]
  | c :: s' =>
      match skip with
      | S k => split_scan sep k cur s'
      | O =>
          if startsWith s sep
          then cur :: split_scan sep (length sep - 1) [] s'
          else split_scan sep 0 (cur ++ [c]) s'
      end
  end.

(** [s.split(sep)]; with the empty separator the pieces are the code
    units. *)
Definition split (s sep : jsstring) : list jsstring :=
  match sep with
  | [] => (λ c, [c]) <$> s
  | _ :: _ => split_scan sep 0 [] s
  end.

Definition is_upper (c : N) : bool := ((65 <=? c) && (c <=? 90))%N.
Definition is_lower (c : N) : bool := ((97 <=? c) && (c <=? 122))%N.
Definition lower_unit (c : N) : N := if is_upper c then (c + 32)%N else c.
Definition upper_unit (c : N) : N := if is_lower c then (c - 32)%N else c.

(** The case mapping of the letters of Basic Latin, unit by unit. *)
Definition basic_latin_lower (s : jsstring) : jsstring := lower_unit <$> s.
Definition basic_latin_upper (s : jsstring) : jsstring := upper_unit <$> s.

Definition is_basic_latin (c : N) : bool := (c <? 128)%N.

(** The small letters of Basic Latin that are the lower case of their own
    capital only: all of them but i, which the lower case of U+0130 holds,
    and k, the lower case of U+212A. *)
Definition plain_letter (c : N) : bool :=
  is_lower c && negb (c =? 105)%N && negb (c =? 107)%N.

(** [s.toLowerCase()] and [s.toUpperCase()] apply the case mapping of the
    Unicode character database, which may change the length of a string
    (the upper case of U+00DF is "SS"). The two functions are taken from
    the host, together with what is used of them: on text of Basic Latin
    they map the letters unit by unit; the lower case of a string holds a
    word of plain letters exactly where the string holds that word in any
    mix of cases; and no line feed is made or removed. *)
Class CaseOps := {
  toLowerCase : jsstring → jsstring;
  toUpperCase : jsstring → jsstring;
  toLowerCase_basic_latin s :
    forallb is_basic_latin s = true → toLowerCase s = basic_latin_lower s;
  toUpperCase_basic_latin s :
    forallb is_basic_latin s = true → toUpperCase s = basic_latin_upper s;
  toLowerCase_plain_letters s pat :
    forallb plain_letter pat = true →
    includes (toLowerCase s) pat = includes (basic_latin_lower s) pat;
  toLowerCase_line_feed s : LF ∈ toLowerCase s → LF ∈ s;
  toUpperCase_line_feed s : LF ∈ toUpperCase s → LF ∈ s
}.

(** [s.padEnd(n)]: filled with spaces up to [n] units. *)
Definition padEnd (s : jsstring) (n : nat) : jsstring :=
  s ++ replicate (n - length s) SPACE.

(** [pieces.join(sep)] *)
Fixpoint join (sep : jsstring) (pieces : list jsstring) : jsstring :=
  match pieces with
  | [] => []
  | [p] => p
  | p :: rest => p ++ sep ++ join sep rest
  end.

(** *** The regular expressions of the sources *)

Definition is_digit (c : N) : bool := ((48 <=? c) && (c <=? 57))%N.

(** [/^\d+$/.test(s)] *)
Definition all_digits (s : jsstring) : bool :=
  match s with
  | [] => false
  | _ :: _ => forallb is_digit s
  end.

(** [/^\d{10}$/.test(s)] *)
Definition ten_digits (s : jsstring) : bool :=
  (length s =? 10)%nat && forallb is_digit s.

(** [/^[6-9]/.test(s)] *)
Definition starts_6_to_9 (s : jsstring) : bool :=
  match s with
  | c :: _ => ((54 <=? c) && (c <=? 57))%N
  | [] => false
  end.

(** *** parseInt *)

(** Value of a code unit as a digit of the given radix. *)
Definition digit_value (radix : Z) (c : N) : option Z :=
  let d :=
    if is_digit c then Z.of_N c - 48
    else if is_lower c then Z.of_N c - 97 + 10
    else if is_upper c then Z.of_N c - 65 + 10
    else radix in
  if d <? radix then Some d else None.

(** The longest prefix of digits, read from the left; [None] when there is
    no digit at all. *)
Fixpoint read_digits (radix : Z) (acc : option Z) (s : jsstring) : option Z :=
  match s with
  | [] => acc
  | c :: s' =>
      match digit_value radix c with
      | Some d => read_digits radix (Some (default 0 acc * radix + d)) s'
      | None => acc
      end
  end.

(** [parseInt(s)] on a string: leading white space, a sign, a [0x] prefix,
    then digits. [None] is NaN. *)
Definition parseInt_string (s : jsstring) : option Z :=
  let s1 := trimStart s in
  let '(sign, s2) :=
    match s1 with
    | c :: rest =>
        if (c =? 45)%N then (-1, rest)
        else if (c =? 43)%N then (1, rest)
        else (1, s1)
    | [] => (1, s1)
    end in
  let '(radix, s3) :=
    match s2 with
    | z :: x :: rest =>
        if (z =? 48)%N && ((x =? 120)%N || (x =? 88)%N) then (16, rest)
        else (10, s2)
    | _ => (10, s2)
    end in
  (λ n, sign * n) <$> read_digits radix None s3.

(** ** Values *)

(** Numbers are the doubles of the language. These programs ask two things
    of a number: its text (in a template literal, in [parseInt], in
    [RegExp.test]) and its truth value. Both are kept behind an interface,
    so that what is proved holds whatever the numbers are. *)
Class NumberOps (number : Type) := {
  number_to_string : number → jsstring;
  number_to_boolean : number → bool
}.

(** The decimal numeral of an integer. *)
Definition Z_to_jsstring (z : Z) : jsstring :=
  js (NilEmpty.string_of_int (Z.to_int z)).

(** The integral numbers of magnitude below 2^53: each of them is a double,
    and its text is its decimal numeral; zero is the false one. *)
Record safe_integer := {
  integer : Z;
  integer_safe : Is_true (Z.abs integer <? 2 ^ 53)
}.

(** The safe integer written [z]; out of the range, zero. *)
Definition num (z : Z) : safe_integer :=
  match decide (Is_true (Z.abs z <? 2 ^ 53)) with
  | left safe => {| integer := z; integer_safe := safe |}
  | right _ => {| integer := 0; integer_safe := I |}
  end.

#[global] Instance safe_integer_NumberOps : NumberOps safe_integer := {|
  number_to_string := λ n, Z_to_jsstring (integer n);
  number_to_boolean := λ n, negb (integer n =? 0)
|}.

Inductive value (number : Type) : Type :=
| VUndefined
| VNull
| VBool (b : bool)
| VNum (n : number)
| VStr (s : jsstring)
| VArr (elems : list (value number))
| VObj (props : gmap string (value number)).

Arguments VUndefined {number}.
Arguments VNull {number}.
Arguments VBool {number} b.
Arguments VNum {number} n.
Arguments VStr {number} s.
Arguments VArr {number} elems.
Arguments VObj {number} props.

Inductive jserror := TypeError.

(** A call returns a value or throws. *)
Inductive outcome (A : Type) : Type :=
| Return (a : A)
| Throw (e : jserror).

Arguments Return {A} a.
Arguments Throw {A} e.

#[global] Instance outcome_bind : MBind outcome := λ A B k m,
  match m with
  | Return a => k a
  | Throw e => Throw e
  end.

(** [xs.map(f)] for a callback that may throw: left to right, stopping at
    the first exception. *)
Fixpoint map_outcome {A B} (f : A → outcome B) (xs : list A)
  : outcome (list B) :=
  match xs with
  | [] => Return []
  | x :: rest =>
      y ← f x;
      ys ← map_outcome f rest;
      Return (y :: ys)
  end.

Section Values.
Context {number : Type} `{!NumberOps number}.

(** [typeof v === 'string'] and [typeof v === 'object'] *)
Definition is_string (v : value number) : bool :=
  match v with VStr _ => true | _ => false end.

Definition typeof_object (v : value number) : bool :=
  match v with VNull | VArr _ | VObj _ => true | _ => false end.

(** [Boolean(v)], also the test of [!v]. *)
Definition truthy (v : value number) : bool :=
  match v with
  | VUndefined | VNull => false
  | VBool b => b
  | VNum n => number_to_boolean n
  | VStr s => negb (str_eqb s [])
  | VArr _ | VObj _ => true
  end.

(** [ToString(v)]: the text of a value, as a template literal or a
    built-in that expects a string makes it. An array is its elements
    joined by commas, with undefined and null elements left empty. A
    record is asked for its [toString]: the inherited one gives
    "[object Object]"; an own property of that name holds plain data, which
    cannot be called, and then the inherited [valueOf] gives the record
    back, so that the conversion throws. *)
Fixpoint to_string (v : value number) : outcome jsstring :=
  match v with
  | VUndefined => Return (js "undefined")
  | VNull => Return (js "null")
  | VBool true => Return (js "true")
  | VBool false => Return (js "false")
  | VNum n => Return (number_to_string n)
  | VStr s => Return s
  | VArr elems =>
      pieces ←
        (fix each (l : list (value number)) : outcome (list jsstring) :=
           match l with
           | [] => Return []
           | e :: l' =>
               piece ← match e with
                       | VUndefined | VNull => Return []
                       | _ => to_string e
                       end;
               rest ← each l';
               Return (piece :: rest)
           end) elems;
      Return (join (js ",") pieces)
  | VObj props =>
      match props !! "toString" with
      | Some _ => Throw TypeError
      | None => Return (js "[object Object]")
      end
  end.

(** The text of an element of an array that is joined. *)
Definition element_text (e : value number) : outcome jsstring :=
  match e with
  | VUndefined | VNull => Return []
  | _ => to_string e
  end.

(** [v.k] for the property names read by these programs ([name], [pnr],
    [current], ...): none of them is defined on the prototypes of
    strings, numbers, booleans or arrays, so only a record can hold
    one. Reading a property of undefined or null throws. *)
Definition prop (v : value number) (k : string) : value number :=
  match v with
  | VObj props => default VUndefined (props !! k)
  | _ => VUndefined
  end.

Definition get (v : value number) (k : string) : outcome (value number) :=
  match v with
  | VUndefined | VNull => Throw TypeError
  | _ => Return (prop v k)
  end.

(** A method of [String.prototype] called on [v]: on a string it runs; on
    undefined or null the property read throws, and on any other plain
    value the method is not there, so the call throws as well. *)
Definition as_string_receiver (v : value number) : outcome jsstring :=
  match v with
  | VStr s => Return s
  | _ => Throw TypeError
  end.

(** [parseInt(v)]: the argument is first turned into text. *)
Definition parseInt (v : value number) : outcome (option Z) :=
  s ← to_string v;
  Return (parseInt_string s).

(** [re.test(v)]: likewise. *)
Definition test_all_digits (v : value number) : outcome bool :=
  s ← to_string v;
  Return (all_digits s).

End Values.

(** What [parseInt] gives is an integer or NaN ([None]); a comparison with
    NaN is false. (The double nearest to a long run of digits is above
    every bound tested here when the integer is.) *)
Definition isNaN (n : option Z) : bool :=
  match n with None => true | Some _ => false end.
Definition Number_isInteger (n : option Z) : bool :=
  match n with None => false | Some _ => true end.
Definition num_lt (n : option Z) (k : Z) : bool :=
  match n with None => false | Some z => z <? k end.
Definition num_gt (n : option Z) (k : Z) : bool :=
  match n with None => false | Some z => k <? z end.

(** ** The message line parser (src/06-whatsapp-parser.js) *)

Record ParsedMessage := {
  date : option jsstring;
  time : option jsstring;
  sender : jsstring;
  text : jsstring;
  wordCount : nat;
  sentiment : jsstring
}.

(** [text.split(" ").filter(word => word.trim() !== '').length] *)
Definition count_words (text : jsstring) : nat :=
  length (List.filter (λ word, negb (str_eqb (trim word) []))
            (split text (js " "))).

Section Parser.
Context `{!CaseOps}.

Definition classify_sentiment (text : jsstring) : jsstring :=
  let textLower := toLowerCase text in
  if includes text laughing_emoji || includes text (js ":)")
     || includes textLower (js "haha")
  then js "funny"
  else if includes text heart || includes textLower (js "love")
          || includes textLower (js "pyaar")
  then js "love"
  else js "neutral".

(** The result is [None] for the null of the source; [date] and [time] are
    elements 0 and 1 of the split date-time part, [None] when the element
    is not there (undefined). *)
Definition parseWhatsAppMessage {number} (message : value number)
  : option ParsedMessage :=
  match message with
  | VStr message =>
      let dateTimeEndIndex := indexOf message (js " - ") in
      if dateTimeEndIndex =? -1 then None
      else
        let dateTimePart := substring message 0 dateTimeEndIndex in
        let senderMessagePart :=
          substring_from message (dateTimeEndIndex + 3) in
        let senderEndIndex := indexOf senderMessagePart (js ": ") in
        if senderEndIndex =? -1 then None
        else
          let sender := substring senderMessagePart 0 senderEndIndex in
          let text :=
            trim (substring_from senderMessagePart (senderEndIndex + 2)) in
          let wordCount := count_words text in
          let sentiment := classify_sentiment text in
          Some {| date := split dateTimePart (js ", ") !! 0%nat;
                  time := split dateTimePart (js ", ") !! 1%nat;
                  sender := sender;
                  text := text;
                  wordCount := wordCount;
                  sentiment := sentiment |}
  | _ => None
  end.

End Parser.

(** ** The form validator *)

Record ValidationResult := {
  isValid : bool;
  errors : gmap string jsstring
}.

Section Form.
Context {number : Type} `{!NumberOps number}.

(** The condition of each [if] of the source, on the value of the
    field. *)
Definition name_fails (name : value number) : bool :=
  match name with
  | VStr s => (length (trim s) <? 2)%nat || (50 <? length (trim s))%nat
  | _ => true
  end.

Definition email_fails (email : value number) : bool :=
  match email with
  | VStr s =>
      (indexOf s (js "@") =? -1)
      || negb (indexOf s (js "@") =? lastIndexOf s (js "@"))
      || (indexOf s (js ".") <=? indexOf s (js "@"))
  | _ => true
  end.

Definition phone_fails (phone : value number) : bool :=
  match phone with
  | VStr s =>
      negb (length s =? 10)%nat || negb (starts_6_to_9 s)
      || negb (all_digits s)
  | _ => true
  end.

(** The condition on the age: [age] is what [parseInt] made of the value
    [raw] of the field, which the regular expression turns into text once
    more, unless [isNaN(age)] has settled the matter. *)
Definition age_fails (age : option Z) (raw : value number) : outcome bool :=
  if isNaN age then Return true
  else
    digits ← test_all_digits raw;
    Return (negb digits || negb (Number_isInteger age)
            || num_lt age 16 || num_gt age 100).

Definition pincode_fails (pincode : value number) : bool :=
  match pincode with
  | VStr s =>
      negb (length s =? 6)%nat || startsWith s (js "0")
      || negb (all_digits s)
  | _ => true
  end.

(** [v ?? ""] *)
Definition or_empty (v : value number) : value number :=
  match v with
  | VUndefined | VNull => VStr []
  | _ => v
  end.

Definition state_fails (raw : value number) : bool :=
  match or_empty raw with
  | VStr s => str_eqb (trim s) []
  | _ => true
  end.

Definition agreeTerms_fails (v : value number) : bool := negb (truthy v).

(** [errors.k = msg] when the condition holds. *)
Definition record_if (c : bool) (k : string) (msg : jsstring)
    (errors : gmap string jsstring) : gmap string jsstring :=
  if c then <[k := msg]> errors else errors.

Definition validateForm (formData : value number)
  : outcome ValidationResult :=
  let errors : gmap string jsstring := ∅ in
  name ← get formData "name";
  let errors :=
    record_if (name_fails name) "name"
      (js "Name must be 2-50 characters") errors in
  email ← get formData "email";
  let errors :=
    record_if (email_fails email) "email"
      (js "Invalid email format") errors in
  phone ← get formData "phone";
  let errors :=
    record_if (phone_fails phone) "phone"
      (js "Invalid Indian phone number") errors in
  raw ← get formData "age";
  age ← parseInt raw;
  age_error ← age_fails age raw;
  let errors :=
    record_if age_error "age"
      (js "Age must be an integer between 16 and 100") errors in
  pincode ← get formData "pincode";
  let errors :=
    record_if (pincode_fails pincode) "pincode"
      (js "Invalid Indian pincode") errors in
  state ← get formData "state";
  let errors :=
    record_if (state_fails state) "state"
      (js "State is required") errors in
  agreeTerms ← get formData "agreeTerms";
  let errors :=
    record_if (agreeTerms_fails agreeTerms) "agreeTerms"
      (js "Must agree to terms") errors in
  Return {| isValid := (size errors =? 0)%nat; errors := errors |}.

End Form.

(** ** The pass formatter (src/05-mumbai-local-pass.js) *)

Definition INVALID_PASS : jsstring := js "INVALID PASS".

(** A required field: a string that is not empty once trimmed. *)
Definition required_text {number} (v : value number) : option jsstring :=
  match v with
  | VStr s => if str_eqb (trim s) [] then None else Some s
  | _ => None
  end.

Section Pass.
Context `{!CaseOps}.

(** The identifier printed on the last line. *)
Definition passId (classTypeLower from to : jsstring) : jsstring :=
  toUpperCase (charAt classTypeLower 0)
  ++ slice (toUpperCase from) 0 3 ++ slice (toUpperCase to) 0 3.

Definition titleCase (s : jsstring) : jsstring :=
  toUpperCase (charAt s 0) ++ toLowerCase (slice_from s 1).

(** The seven lines of a pass. *)
Definition pass_lines (name from to classTypeLower : jsstring)
  : list jsstring :=
  [ js "MUMBAI LOCAL PASS";
    js "---";
    js "Name: " ++ toUpperCase name;
    js "From: " ++ titleCase from;
    js "To: " ++ titleCase to;
    js "Class: " ++ toUpperCase classTypeLower;
    js "Pass ID: " ++ passId classTypeLower from to ].

Definition generateLocalPass {number} (passenger : value number) : jsstring :=
  match passenger with
  | VArr _ | VObj _ =>
      match required_text (prop passenger "name"),
            required_text (prop passenger "from"),
            required_text (prop passenger "to"),
            required_text (prop passenger "classType") with
      | Some name, Some from, Some to, Some classType =>
          let classTypeLower := toLowerCase classType in
          if negb (str_eqb classTypeLower (js "first"))
             && negb (str_eqb classTypeLower (js "second"))
          then INVALID_PASS
          else join [LF] (pass_lines name from to classTypeLower)
      | _, _, _, _ => INVALID_PASS
      end
  | _ => INVALID_PASS
  end.

End Pass.

(** ** The reservation status processor (src/12-railway-pnr-system.js) *)

Section Railway.
Context {number : Type} `{!NumberOps number}.

Record ProcessedPassenger := {
  formattedName : jsstring;
  bookingStatus : value number;
  currentStatus : value number;
  statusLabel : jsstring;
  isConfirmed : bool
}.

Record Summary := {
  totalPassengers : nat;
  confirmed : nat;
  waiting : nat;
  cancelled : nat;
  rac : nat;
  allConfirmed : bool;
  anyWaiting : bool
}.

Record PNRReport := {
  pnrFormatted : jsstring;
  trainInfo : jsstring;
  passengers : list ProcessedPassenger;
  summary : Summary;
  chartPrepared : bool
}.

(** The chain of tests on [current]. *)
Definition status_of (current : jsstring) : jsstring :=
  if startsWith current (js "B") || startsWith current (js "S")
  then js "CONFIRMED"
  else if startsWith current (js "WL") then js "WAITING"
  else if str_eqb current (js "CAN") then js "CANCELLED"
  else if startsWith current (js "RAC") then js "RAC"
  else [].

(** The callback of [passengers.map]. Its parameter is destructured, then
    [current.startsWith] is the first call made, [name.padEnd] the
    second; the template literal then turns [age] and [gender] into
    text. *)
Definition process_passenger (p : value number)
  : outcome ProcessedPassenger :=
  name ← get p "name";
  age ← get p "age";
  gender ← get p "gender";
  booking ← get p "booking";
  current ← get p "current";
  c ← as_string_receiver current;
  let statusLabel := status_of c in
  n ← as_string_receiver name;
  ageText ← to_string age;
  genderText ← to_string gender;
  Return {| formattedName :=
              padEnd n 20 ++ js "(" ++ ageText ++ js "/"
              ++ genderText ++ js ")";
            bookingStatus := booking;
            currentStatus := current;
            statusLabel := statusLabel;
            isConfirmed := str_eqb statusLabel (js "CONFIRMED") |}.

Definition has_label (label : jsstring) (p : ProcessedPassenger) : bool :=
  str_eqb (statusLabel p) label.

Definition confirmed_or_cancelled (p : ProcessedPassenger) : bool :=
  has_label (js "CONFIRMED") p || has_label (js "CANCELLED") p.

(** [None] is the null of the source. The template literal of [trainInfo]
    turns its five values into text, from left to right, before the
    passengers are mapped. *)
Definition processRailwayPNR (pnrData : value number)
  : outcome (option PNRReport) :=
  if negb (truthy pnrData) || negb (typeof_object pnrData)
  then Return None
  else
    let pnr := prop pnrData "pnr" in
    let train := prop pnrData "train" in
    let classBooked := prop pnrData "classBooked" in
    let passengers := prop pnrData "passengers" in
    match pnr with
    | VStr pnr =>
        if negb (ten_digits pnr) then Return None
        else if negb (truthy train) || negb (typeof_object train)
        then Return None
        else
          match passengers with
          | VArr passengers =>
              if (length passengers =? 0)%nat then Return None
              else
                let pnrFormatted :=
                  slice pnr 0 3 ++ js "-" ++ slice pnr 3 6 ++ js "-"
                  ++ slice_from pnr 6 in
                trainNumber ← to_string (prop train "number");
                trainName ← to_string (prop train "name");
                trainFrom ← to_string (prop train "from");
                trainTo ← to_string (prop train "to");
                classText ← to_string classBooked;
                let trainInfo :=
                  js "Train: " ++ trainNumber
                  ++ js " - " ++ trainName
                  ++ js " | " ++ trainFrom
                  ++ js " " ++ arrow ++ js " "
                  ++ trainTo
                  ++ js " | Class: " ++ classText in
                processedPassengers ←
                  map_outcome process_passenger passengers;
                let totalPassengers := length processedPassengers in
                let confirmed :=
                  length (List.filter (has_label (js "CONFIRMED"))
                            processedPassengers) in
                let waiting :=
                  length (List.filter (has_label (js "WAITING"))
                            processedPassengers) in
                let cancelled :=
                  length (List.filter (has_label (js "CANCELLED"))
                            processedPassengers) in
                let rac :=
                  length (List.filter (has_label (js "RAC"))
                            processedPassengers) in
                let allConfirmed :=
                  forallb confirmed_or_cancelled processedPassengers in
                let anyWaiting :=
                  existsb (has_label (js "WAITING")) processedPassengers in
                let chartPrepared :=
                  forallb confirmed_or_cancelled processedPassengers in
                Return (Some
                  {| pnrFormatted := pnrFormatted;
                     trainInfo := trainInfo;
                     passengers := processedPassengers;
                     summary :=
                       {| totalPassengers := totalPassengers;
                          confirmed := confirmed;
                          waiting := waiting;
                          cancelled := cancelled;
                          rac := rac;
                          allConfirmed := allConfirmed;
                          anyWaiting := anyWaiting |};
                     chartPrepared := chartPrepared |})
          | _ => Return None
          end
    | _ => Return None
    end.

End Railway.

Arguments ProcessedPassenger : clear implicits.
Arguments Summary : clear implicits.
Arguments PNRReport : clear implicits.

(** A record written as the list of its properties. *)
Definition object_of {number} (l : list (string * value number))
  : value number :=
  VObj (list_to_map l).

(** * Vocabulary of the statements *)

(** [s] holds [pat] somewhere. *)
Definition occurs_in (pat s : jsstring) : Prop :=
  ∃ pre post, s = pre ++ pat ++ post.

(** [pre] is what stands before the first occurrence of [pat] in [s]: the
    pattern stands right after [pre], and nowhere earlier. *)
Definition first_occurrence (pat pre s : jsstring) : Prop :=
  (∃ post, s = pre ++ pat ++ post)
  ∧ ∀ pre' post', s = pre' ++ pat ++ post' → (length pre ≤ length pre')%nat.



(** Number of pieces between single U+0020 spaces that hold a unit which
    is not white space. [seen] tells that the piece being read already
    holds one. *)
Fixpoint count_space_pieces (seen : bool) (s : jsstring) : nat :=
  match s with
  | [] => 0%nat
  | c :: s' =>
      if (c =? SPACE)%N then count_space_pieces false s'
      else if is_whitespace c then count_space_pieces seen s'
      else ((if seen then 0 else 1) + count_space_pieces true s')%nat
  end.

Definition space_pieces_with_text (s : jsstring) : nat :=
  count_space_pieces false s.





(** A line with runs of spaces in its body. *)
Definition spaced_line : value safe_integer :=
  VStr (js "25/01/2025, 14:30 - Rahul:   Bhai   party  kab hai?  ").


(** A line without the divider of date and time. *)
Definition undated_line : value safe_integer :=
  VStr (js "yesterday - Rahul: kal milte hain").

Definition AT : N := 64%N.
Definition DOT : N := 46%N.

(** The rule of the email field in the words of the documentation: exactly
    one "@", and a "." somewhere after it. *)
Definition email_rule (s : jsstring) : Prop :=
  ∃ pre post,
    s = pre ++ (AT :: post) ∧ (AT ∉ pre) ∧ (AT ∉ post) ∧ (DOT ∈ post).

(** What the source accepts: moreover no "." stands before the "@". *)
Definition email_rule_first_dot (s : jsstring) : Prop :=
  ∃ pre post,
    s = pre ++ (AT :: post)
    ∧ (AT ∉ pre) ∧ (AT ∉ post) ∧ (DOT ∈ post) ∧ (DOT ∉ pre).

(** A form whose only peculiarity is the dot in the local part of the
    address. *)
Definition dotted_form : value safe_integer :=
  object_of
    [ ("name", VStr (js "Rahul Sharma"));
      ("email", VStr (js "rahul.sharma@gmail.com"));
      ("phone", VStr (js "9876543210"));
      ("age", VNum (num 20));
      ("pincode", VStr (js "400001"));
      ("state", VStr (js "Maharashtra"));
      ("agreeTerms", VBool true) ].

(** The seven fields of the form, and the test the source applies to
    each. *)
Definition form_fields : list string :=
  ["name"; "email"; "phone"; "age"; "pincode"; "state"; "agreeTerms"].

Definition field_fails {number} `{!NumberOps number}
    (k : string) (v : value number) : outcome bool :=
  if decide (k = "name") then Return (name_fails v)
  else if decide (k = "email") then Return (email_fails v)
  else if decide (k = "phone") then Return (phone_fails v)
  else if decide (k = "age") then age ← parseInt v; age_fails age v
  else if decide (k = "pincode") then Return (pincode_fails v)
  else if decide (k = "state") then Return (state_fails v)
  else if decide (k = "agreeTerms") then Return (agreeTerms_fails v)
  else Return false.

(** The lines of a text: what stands between its line feeds. *)
Definition lines_of (out : jsstring) : list jsstring := split out [LF].

(** The last line of a pass: the first letter of the lower-cased class in
    upper case, then the first three units of the upper-cased [from] and
    of the upper-cased [to]. *)
Definition pass_id_line `{!CaseOps} (from to classType : jsstring)
  : jsstring :=
  js "Pass ID: "
  ++ toUpperCase (take 1 (toLowerCase classType))
  ++ take 3 (toUpperCase from) ++ take 3 (toUpperCase to).

(** The same line when each station is cut to three units before it is
    put in upper case. *)
Definition pass_id_line_cut_first `{!CaseOps} (from to classType : jsstring)
  : jsstring :=
  js "Pass ID: "
  ++ toUpperCase (take 1 (toLowerCase classType))
  ++ toUpperCase (take 3 from) ++ toUpperCase (take 3 to).

(** The passenger of the documentation, and one whose name holds a line
    feed. *)
Definition rahul_pass_of (number : Type) : value number :=
  object_of
    [ ("name", VStr (js "rahul sharma"));
      ("from", VStr (js "dadar"));
      ("to", VStr (js "andheri"));
      ("classType", VStr (js "first")) ].

Definition rahul_pass : value safe_integer := rahul_pass_of safe_integer.

Definition two_line_name_pass : value safe_integer :=
  object_of
    [ ("name", VStr (js "rahul" ++ [LF] ++ js "sharma"));
      ("from", VStr (js "dadar"));
      ("to", VStr (js "andheri"));
      ("classType", VStr (js "first")) ].

(** A passenger who leaves from a station with U+00DF in its name. *)
Definition sharp_s : N := 223%N.

Definition sharp_s_pass : value safe_integer :=
  object_of
    [ ("name", VStr (js "rahul sharma"));
      ("from", VStr (js "a" ++ [sharp_s] ++ js "bc"));
      ("to", VStr (js "andheri"));
      ("classType", VStr (js "first")) ].

(** Text of exactly 10 decimal digits. *)
Definition ten_digit_text (s : jsstring) : Prop :=
  length s = 10%nat ∧ Forall (λ c, (48 ≤ c ≤ 57)%N) s.

Section RailwayVocabulary.
Context {number : Type} `{!NumberOps number}.

(** An input that passes the checks on [pnr], [train] and [passengers]:
    a record with a [pnr] of 10 digits, a [train] record and a non-empty
    array [ps] of passengers. *)
Definition structurally_valid (v : value number) (ps : list (value number))
  : Prop :=
  ∃ props pnr train,
    v = VObj props
    ∧ props !! "pnr" = Some (VStr pnr) ∧ ten_digit_text pnr
    ∧ props !! "train" = Some (VObj train)
    ∧ props !! "passengers" = Some (VArr ps) ∧ ps ≠ [].

(** A value without a text: a record with a property [toString] of its
    own, or an array that holds a value without a text. *)
Inductive no_text : value number → Prop :=
| no_text_record props :
    is_Some (props !! "toString") → no_text (VObj props)
| no_text_array elems e :
    e ∈ elems → no_text e → no_text (VArr elems).

Definition has_text (v : value number) : Prop := ¬ no_text v.

(** The five values of the train line all have a text. *)
Definition train_line_text (v : value number) : Prop :=
  has_text (prop (prop v "train") "number")
  ∧ has_text (prop (prop v "train") "name")
  ∧ has_text (prop (prop v "train") "from")
  ∧ has_text (prop (prop v "train") "to")
  ∧ has_text (prop v "classBooked").

(** A passenger record whose [name] and [current] are text, and whose
    [age] and [gender] have a text. *)
Definition well_formed_passenger (p : value number) : Prop :=
  ∃ fields name current,
    p = VObj fields
    ∧ fields !! "name" = Some (VStr name)
    ∧ fields !! "current" = Some (VStr current)
    ∧ has_text (prop p "age") ∧ has_text (prop p "gender").

(** A status that leaves the chart prepared, and one of the waiting
    list. *)
Definition settled_status (current : jsstring) : Prop :=
  (∃ rest, current = js "B" ++ rest) ∨ (∃ rest, current = js "S" ++ rest)
  ∨ current = js "CAN".

Definition waiting_status (current : jsstring) : Prop :=
  ∃ rest, current = js "WL" ++ rest.

(** [current] matches none of the four rules. *)
Definition matches_no_rule (current : jsstring) : Prop :=
  startsWith current (js "B") = false
  ∧ startsWith current (js "S") = false
  ∧ startsWith current (js "WL") = false
  ∧ startsWith current (js "RAC") = false
  ∧ current ≠ js "CAN".

Definition labelled (label : jsstring) (p : ProcessedPassenger number)
  : Prop :=
  statusLabel p = label.

End RailwayVocabulary.

(** Reservations used as examples. *)
Definition train_12301 : value safe_integer :=
  object_of
    [ ("number", VStr (js "12301")); ("name", VStr (js "Rajdhani Express"));
      ("from", VStr (js "NDLS")); ("to", VStr (js "HWH")) ].

Definition passenger (name : string) (age : Z) (gender booking current : string)
  : value safe_integer :=
  object_of
    [ ("name", VStr (js name)); ("age", VNum (num age));
      ("gender", VStr (js gender)); ("booking", VStr (js booking));
      ("current", VStr (js current)) ].

Definition reservation (ps : list (value safe_integer))
  : gmap string (value safe_integer) :=
  list_to_map
    [ ("pnr", VStr (js "1234567890")); ("train", train_12301);
      ("classBooked", VStr (js "3A")); ("passengers", VArr ps) ].

(** One passenger confirmed, one cancelled. *)
Definition settled_passengers : list (value safe_integer) :=
  [ passenger "Rahul Kumar" 28 "M" "B1" "B1";
    passenger "Priya Sharma" 25 "F" "WL5" "CAN" ].

(** One passenger confirmed, one whose status matches no rule. *)
Definition odd_passengers : list (value safe_integer) :=
  [ passenger "Rahul Kumar" 28 "M" "B1" "B1";
    passenger "Amit Singh" 60 "M" "WL12" "PQWL3" ].

(** One passenger on the waiting list. *)
Definition waiting_passengers : list (value safe_integer) :=
  [ passenger "Rahul Kumar" 28 "M" "B1" "B1";
    passenger "Amit Singh" 60 "M" "WL12" "WL8" ].

(** A record that cannot be turned into text, and a train with such a
    number. *)
Definition textless : value safe_integer :=
  object_of [ ("toString", VStr (js "x")) ].

Definition textless_train_reservation : value safe_integer :=
  VObj (<["train" := object_of [ ("number", textless) ]]>
          (reservation settled_passengers)).

(** One passenger without a [current] property. *)
Definition untyped_passengers : list (value safe_integer) :=
  [ passenger "Rahul Kumar" 28 "M" "B1" "B1";
    object_of [ ("name", VStr (js "Amit Singh")); ("age", VNum (num 60)) ] ].

(** A line of the documented shape, and one whose only ": " stands before
    the " - ". *)
Definition dated_line : value safe_integer :=
  VStr (js "25/01/2025, 14:30 - Rahul: Bhai party kab hai?").

Definition early_colon_line : value safe_integer :=
  VStr (js "Rahul: kal - milte hain").

(** A line in which " - " stands twice, the second time over the end of
    the first. *)
Definition overlapping_line : value safe_integer :=
  VStr (js "a - - b: c").

(** A non-empty run of decimal digits, and the number it writes. *)
Definition decimal_digits (s : jsstring) : Prop :=
  s ≠ [] ∧ Forall (λ c, (48 ≤ c ≤ 57)%N) s.

Definition decimal_value (s : jsstring) : Z :=
  fold_left (λ acc c, acc * 10 + (Z.of_N c - 48)) s 0.

(** Text that is not blank. *)
Definition not_blank (s : jsstring) : Prop :=
  ∃ c, c ∈ s ∧ is_whitespace c = false.

(** The rules of the seven fields, on the value of each. *)
Definition name_rule {number} (v : value number) : Prop :=
  ∃ s, v = VStr s ∧ (2 ≤ length (trim s) ≤ 50)%nat.

Definition email_field_rule {number} (v : value number) : Prop :=
  ∃ s, v = VStr s ∧ email_rule_first_dot s.

Definition phone_rule {number} (v : value number) : Prop :=
  ∃ c rest,
    v = VStr (c :: rest) ∧ length (c :: rest) = 10%nat
    ∧ decimal_digits (c :: rest) ∧ (54 ≤ c ≤ 57)%N.

Definition age_rule {number} `{!NumberOps number} (v : value number) : Prop :=
  ∃ t, to_string v = Return t
       ∧ decimal_digits t ∧ 16 ≤ decimal_value t ≤ 100.

Definition pincode_rule {number} (v : value number) : Prop :=
  ∃ c rest,
    v = VStr (c :: rest) ∧ length (c :: rest) = 6%nat
    ∧ decimal_digits (c :: rest) ∧ c ≠ 48%N.

Definition state_rule {number} (v : value number) : Prop :=
  ∃ s, v = VStr s ∧ not_blank s.

(** The test of the age, on the text of its value. *)
Definition age_text_fails (t : jsstring) : bool :=
  let age := parseInt_string t in
  isNaN age || negb (all_digits t) || negb (Number_isInteger age)
  || num_lt age 16 || num_gt age 100.

(** The message of each field. *)
Definition error_messages : list (string * jsstring) :=
  [ ("name", js "Name must be 2-50 characters");
    ("email", js "Invalid email format");
    ("phone", js "Invalid Indian phone number");
    ("age", js "Age must be an integer between 16 and 100");
    ("pincode", js "Invalid Indian pincode");
    ("state", js "State is required");
    ("agreeTerms", js "Must agree to terms") ].

(** Forms used as examples. *)
Definition form_with {number} (k : string) (v : value number)
    (base : gmap string (value number)) : gmap string (value number) :=
  <[k := v]> base.

Definition valid_fields : gmap string (value safe_integer) :=
  list_to_map
    [ ("name", VStr (js "Rahul Sharma"));
      ("email", VStr (js "rahul@gmail.com"));
      ("phone", VStr (js "9876543210"));
      ("age", VStr (js "22"));
      ("pincode", VStr (js "400001"));
      ("state", VStr (js "Maharashtra"));
      ("agreeTerms", VBool true) ].

(** A passenger record that the pass formatter accepts, with its four
    fields. *)
Definition accepted_passenger {number} `{!CaseOps} (v : value number)
    (name from to classType : jsstring) : Prop :=
  (∃ props, v = VObj props)
  ∧ prop v "name" = VStr name ∧ prop v "from" = VStr from
  ∧ prop v "to" = VStr to ∧ prop v "classType" = VStr classType
  ∧ trim name ≠ [] ∧ trim from ≠ [] ∧ trim to ≠ [] ∧ trim classType ≠ []
  ∧ (toLowerCase classType = js "first"
     ∨ toLowerCase classType = js "second").

(** A passenger whose class is written with a blank in front, and one with
    a station of one letter. *)
Definition padded_class_pass : value safe_integer :=
  object_of
    [ ("name", VStr (js "rahul sharma"));
      ("from", VStr (js "dadar"));
      ("to", VStr (js "andheri"));
      ("classType", VStr (js " first")) ].

Definition short_station_pass : value safe_integer :=
  object_of
    [ ("name", VStr (js "rahul sharma"));
      ("from", VStr (js "d"));
      ("to", VStr (js "andheri"));
      ("classType", VStr (js "SECOND")) ].

Section RailwayChecks.
Context {number : Type} `{!NumberOps number}.

(** The checks of the processor, all of them: a record with a [pnr] of 10
    digits, a [train] that is a record (or an array, which is an object
    as well) and a non-empty array [ps] of passengers. *)
Definition passes_checks (v : value number) (ps : list (value number))
  : Prop :=
  ∃ props pnr train,
    v = VObj props
    ∧ props !! "pnr" = Some (VStr pnr) ∧ ten_digit_text pnr
    ∧ props !! "train" = Some train
    ∧ ((∃ t, train = VObj t) ∨ (∃ l, train = VArr l))
    ∧ props !! "passengers" = Some (VArr ps) ∧ ps ≠ [].

(** A passenger whose [name] and [current] are text. *)
Definition text_fields (p : value number) : Prop :=
  is_string (prop p "name") = true ∧ is_string (prop p "current") = true.

(** A passenger that the callback can process: moreover [age] and
    [gender] have a text. *)
Definition processable (p : value number) : Prop :=
  text_fields p ∧ has_text (prop p "age") ∧ has_text (prop p "gender").


End RailwayChecks.

(** A reservation with one passenger in each state. *)
Definition mixed_passengers : list (value safe_integer) :=
  [ passenger "Rahul Kumar" 28 "M" "B1" "B1";
    passenger "Priya Sharma" 25 "F" "WL5" "S3";
    passenger "Amit Singh" 60 "M" "WL12" "WL8";
    passenger "Neha Gupta" 31 "F" "B2" "CAN";
    passenger "Ravi Verma" 45 "M" "RAC2" "RAC1";
    passenger "A passenger with a very long name" 52 "F" "GN" "GNWL4" ].

(** A form whose age cannot be turned into text. *)
Definition textless_age_form : value safe_integer :=
  VObj (form_with "age" textless valid_fields).

(** A passenger whose name is a number. *)
Definition unnamed_passengers : list (value safe_integer) :=
  [ object_of [ ("name", VNum (num 7)); ("current", VStr (js "B1")) ] ].


(** The case mapping of the host of the examples, which is that of the
    database on Basic Latin and on the Latin-1 Supplement: the capitals
    U+00C0 to U+00DE (the multiplication sign apart) and the small letters
    U+00E0 to U+00FE (the division sign apart) are 32 apart; the upper
    case of U+00DF is "SS", that of U+00FF is U+0178 and that of U+00B5 is
    U+039C. Units from U+0100 are left as they are, which is right for
    those of the examples: a heart, an arrow and the two halves of an
    emoji. *)
Definition latin1_lower_unit (c : N) : N :=
  if is_upper c then (c + 32)%N
  else if ((192 <=? c) && (c <=? 222) && negb (c =? 215))%N then (c + 32)%N
  else c.

Definition latin1_upper_units (c : N) : jsstring :=
  if is_lower c then [(c - 32)%N]
  else if (c =? 223)%N then [83%N; 83%N]
  else if ((224 <=? c) && (c <=? 254) && negb (c =? 247))%N
  then [(c - 32)%N]
  else if (c =? 255)%N then [376%N]
  else if (c =? 181)%N then [924%N]
  else [c].

Definition latin1_lower (s : jsstring) : jsstring := latin1_lower_unit <$> s.

Fixpoint latin1_upper (s : jsstring) : jsstring :=
  match s with
  | [] => []
  | c :: s' => latin1_upper_units c ++ latin1_upper s'
  end.
(** * Properties *)

(** ** Strings *)

Lemma unit_eqb_eq a b : unit_eqb a b = true ↔ a = b.
Proof. unfold unit_eqb. apply N.eqb_eq. Qed.

Lemma str_eqb_eq a b : str_eqb a b = true ↔ a = b.
Proof.
  revert b. induction a as [|x a IH]; intros [|y b]; simpl; try easy.
  rewrite andb_true_iff, unit_eqb_eq, IH. split.
  - intros [-> ->]. reflexivity.
  - intros [= -> ->]. easy.
Qed.

Lemma str_eqb_neq a b : str_eqb a b = false ↔ a ≠ b.
Proof.
  rewrite <- str_eqb_eq. destruct (str_eqb a b); split; congruence.
Qed.

(** [startsWith] holds exactly of the strings that begin with the
    pattern. *)
Lemma startsWith_spec s pat :
  startsWith s pat = true ↔ ∃ post, s = pat ++ post.
Proof.
  revert s. induction pat as [|p pat IH]; intros s; simpl.
  - split; [exists s; reflexivity | easy].
  - destruct s as [|c s].
    + split; [easy | intros [post H]; discriminate H].
    + rewrite andb_true_iff, unit_eqb_eq, IH. split.
      * intros [-> [post ->]]. exists post. reflexivity.
      * intros [post [= -> ->]]. split; [reflexivity | exists post; reflexivity].
Qed.

(** The occurrence found by [find_first] is one. *)
Lemma find_first_Some pat s i :
  find_first pat s = Some i →
  ∃ pre post, s = pre ++ pat ++ post ∧ length pre = i.
Proof.
  revert i. induction s as [|c s IH]; intros i; simpl.
  - destruct (startsWith [] pat) eqn:E; [|easy].
    intros [= <-]. apply startsWith_spec in E as [post E].
    exists [], post. easy.
  - destruct (startsWith (c :: s) pat) eqn:E.
    + intros [= <-]. apply startsWith_spec in E as [post E].
      exists [], post. easy.
    + destruct (find_first pat s) as [j|] eqn:F; simpl; [|easy].
      intros [= <-]. destruct (IH j eq_refl) as (pre & post & -> & <-).
      exists (c :: pre), post. easy.
Qed.

(** ... and no occurrence starts before it. *)
Lemma find_first_least pat s i pre post :
  find_first pat s = Some i → s = pre ++ pat ++ post → (i ≤ length pre)%nat.
Proof.
  revert i pre. induction s as [|c s IH]; intros i pre; simpl.
  - destruct (startsWith [] pat); [|easy]. intros [= <-] _. lia.
  - destruct (startsWith (c :: s) pat) eqn:E.
    + intros [= <-] _. lia.
    + destruct (find_first pat s) as [j|] eqn:F; simpl; [|easy].
      intros [= <-] Hs. destruct pre as [|c' pre]; simpl in *.
      * assert (startsWith (c :: s) pat = true) as E'
          by (apply startsWith_spec; eauto).
        congruence.
      * injection Hs as -> ->. specialize (IH j pre eq_refl eq_refl). lia.
Qed.

Lemma find_first_None pat s :
  find_first pat s = None ↔ ¬ occurs_in pat s.
Proof.
  split.
  - induction s as [|c s IH]; simpl.
    + destruct (startsWith [] pat) eqn:E; [easy|]. intros _ (pre & post & H).
      destruct pre; [|discriminate H].
      assert (startsWith [] pat = true) by (apply startsWith_spec; eauto).
      congruence.
    + destruct (startsWith (c :: s) pat) eqn:E; [easy|].
      destruct (find_first pat s) eqn:F; simpl; [easy|].
      intros _ (pre & post & H). destruct pre as [|c' pre]; simpl in H.
      * assert (startsWith (c :: s) pat = true)
          by (apply startsWith_spec; eauto).
        congruence.
      * injection H as -> ->. apply IH; [reflexivity|]. exists pre, post. easy.
  - intros H. destruct (find_first pat s) as [i|] eqn:F; [|reflexivity].
    destruct (find_first_Some _ _ _ F) as (pre & post & -> & _).
    exfalso. apply H. exists pre, post. reflexivity.
Qed.

Lemma includes_spec s pat : includes s pat = true ↔ occurs_in pat s.
Proof.
  unfold includes. destruct (find_first pat s) as [i|] eqn:F.
  - split; [|easy]. intros _.
    destruct (find_first_Some _ _ _ F) as (pre & post & -> & _).
    exists pre, post. reflexivity.
  - split; [easy|]. intros H. apply find_first_None in F. easy.
Qed.

Lemma find_first_first_occurrence pat pre s :
  first_occurrence pat pre s → find_first pat s = Some (length pre).
Proof.
  intros [[post Hs] Hmin].
  destruct (find_first pat s) as [i|] eqn:F.
  - f_equal. pose proof (find_first_least _ _ _ _ _ F Hs).
    destruct (find_first_Some _ _ _ F) as (pre' & post' & Hs' & <-).
    specialize (Hmin _ _ Hs'). lia.
  - apply find_first_None in F. exfalso. apply F. exists pre, post. easy.
Qed.
(** ** Calls that may throw *)

Lemma map_outcome_Return {A B} (f : A → outcome B) xs ys :
  map_outcome f xs = Return ys → Forall2 (λ x y, f x = Return y) xs ys.
Proof.
  revert ys. induction xs as [|x xs IH]; intros ys; simpl.
  - intros [= <-]. constructor.
  - destruct (f x) as [y|e] eqn:Fx; simpl; [|discriminate].
    destruct (map_outcome f xs) as [ys'|e]; simpl; [|discriminate].
    intros [= <-]. constructor; [exact Fx | apply IH; reflexivity].
Qed.

Lemma map_outcome_all_Return {A B} (f : A → outcome B) xs :
  Forall (λ x, ∃ y, f x = Return y) xs → ∃ ys, map_outcome f xs = Return ys.
Proof.
  induction 1 as [|x xs [y Hy] _ [ys Hys]]; simpl.
  - eexists. reflexivity.
  - rewrite Hy, Hys. eexists. reflexivity.
Qed.

Lemma map_outcome_Throw {A B} (f : A → outcome B) xs x :
  x ∈ xs → f x = Throw TypeError → map_outcome f xs = Throw TypeError.
Proof.
  intros Hin Hx. induction xs as [|x' xs IH]; [inversion Hin|].
  simpl. apply elem_of_cons in Hin as [<- | Hin].
  - rewrite Hx. reflexivity.
  - destruct (f x') as [y|[]]; [|reflexivity]. simpl.
    rewrite (IH Hin). reflexivity.
Qed.

Lemma map_outcome_Throw_inv {A B} (f : A → outcome B) xs :
  map_outcome f xs = Throw TypeError →
  ∃ x, x ∈ xs ∧ f x = Throw TypeError.
Proof.
  induction xs as [|x xs IH]; simpl; [discriminate|].
  destruct (f x) as [y|[]] eqn:Fx; simpl.
  - destruct (map_outcome f xs) as [ys|[]]; simpl; [discriminate|].
    intros _. destruct (IH eq_refl) as (x' & Hin & Hx').
    exists x'. split; [right; exact Hin | exact Hx'].
  - intros _. exists x. split; [left | exact Fx].
Qed.

(** ** The text of a value *)

Section Text.
Context {number : Type} `{!NumberOps number}.

Lemma value_elems_ind (P : value number → Prop) :
  P VUndefined → P VNull → (∀ b, P (VBool b)) → (∀ n, P (VNum n)) →
  (∀ s, P (VStr s)) → (∀ elems, Forall P elems → P (VArr elems)) →
  (∀ props, P (VObj props)) → ∀ v, P v.
Proof.
  intros Hu Hn Hb Hnum Hs Harr Hobj. fix IH 1.
  intros [| |b|n|s|elems|props];
    [exact Hu | exact Hn | apply Hb | apply Hnum | apply Hs | | apply Hobj].
  apply Harr. revert elems. fix IHl 1.
  intros [|e elems]; constructor; [apply IH | apply IHl].
Qed.

Lemma to_string_array (elems : list (value number)) :
  to_string (VArr elems)
  = (pieces ← map_outcome element_text elems;
     Return (join (js ",") pieces)).
Proof.
  cbn [to_string].
  match goal with
  | |- ?inner elems ≫= _ = _ =>
      assert (∀ l, inner l = map_outcome element_text l) as Heach
  end.
  { induction l as [|e l IH]; [reflexivity|].
    cbn [map_outcome]. rewrite <- IH. destruct e; reflexivity. }
  rewrite Heach. reflexivity.
Qed.

Lemma element_text_Throw (e : value number) :
  element_text e = Throw TypeError ↔ to_string e = Throw TypeError.
Proof. destruct e; simpl; split; try discriminate; easy. Qed.

(** The conversion throws exactly for the values without a text. *)
Lemma to_string_Throw (v : value number) :
  to_string v = Throw TypeError ↔ no_text v.
Proof.
  induction v as [| |b|n|s|elems IH|props] using value_elems_ind;
    try (split; [destruct b; discriminate | intros Hx; inversion Hx]);
    try (split; [discriminate | intros Hx; inversion Hx]).
  - rewrite to_string_array. split.
    + intros Hx.
      destruct (map_outcome element_text elems) as [pieces|[]] eqn:Hm;
        [discriminate Hx|].
      destruct (map_outcome_Throw_inv _ _ Hm) as (e & Hin & He).
      apply (no_text_array elems e Hin).
      rewrite Forall_forall in IH. apply (IH e Hin).
      apply element_text_Throw, He.
    + intros Hx. inversion Hx as [|elems' e Hin He]; subst.
      rewrite Forall_forall in IH. apply (IH e Hin) in He.
      rewrite (map_outcome_Throw element_text elems e Hin); [reflexivity|].
      apply element_text_Throw, He.
  - cbn [to_string]. destruct (props !! "toString") as [x|] eqn:Hp.
    + split; [|reflexivity]. intros _. constructor. eauto.
    + split; [discriminate|]. intros Hx. inversion Hx as [props' Hs|]; subst.
      rewrite Hp in Hs. destruct Hs as [x Hs]. discriminate Hs.
Qed.

Lemma to_string_Return (v : value number) :
  has_text v ↔ ∃ t, to_string v = Return t.
Proof.
  unfold has_text. rewrite <- to_string_Throw.
  destruct (to_string v) as [t|[]]; split; eauto; try easy.
  intros [t Ht]. discriminate Ht.
Qed.

Lemma has_text_dec (v : value number) : {has_text v} + {no_text v}.
Proof.
  destruct (to_string v) as [t|[]] eqn:Hv.
  - left. apply to_string_Return. eauto.
  - right. apply to_string_Throw, Hv.
Defined.

(** Text, numbers, booleans, undefined and null always have a text. *)
Lemma primitive_has_text (v : value number) :
  (∀ elems, v ≠ VArr elems) → (∀ props, v ≠ VObj props) → has_text v.
Proof.
  intros Ha Ho Hx. inversion Hx; subst; [eapply Ho | eapply Ha]; eauto.
Qed.

End Text.

(** ** The case mapping of the examples *)

Lemma startsWith_fmap_agree (f g : N → N) pat s :
  (∀ c p, p ∈ pat → unit_eqb p (f c) = unit_eqb p (g c)) →
  startsWith (f <$> s) pat = startsWith (g <$> s) pat.
Proof.
  revert s. induction pat as [|p pat IH]; intros s Hfg; [reflexivity|].
  destruct s as [|c s]; [reflexivity|]. cbn [fmap list_fmap startsWith].
  rewrite (Hfg c p) by left. rewrite IH; [reflexivity|].
  intros c' p' Hp. apply Hfg. right. exact Hp.
Qed.

Lemma find_first_fmap_agree (f g : N → N) pat s :
  (∀ c p, p ∈ pat → unit_eqb p (f c) = unit_eqb p (g c)) →
  find_first pat (f <$> s) = find_first pat (g <$> s).
Proof.
  intros Hfg. induction s as [|c s IH].
  - reflexivity.
  - pose proof (startsWith_fmap_agree f g pat (c :: s) Hfg) as Hs.
    cbn [fmap list_fmap] in *. cbn [find_first]. rewrite Hs, IH.
    reflexivity.
Qed.

Lemma plain_letter_range p :
  plain_letter p = true → (97 ≤ p ≤ 122)%N.
Proof.
  unfold plain_letter, is_lower.
  rewrite !andb_true_iff, !N.leb_le. lia.
Qed.

Lemma latin1_lower_basic_latin s :
  forallb is_basic_latin s = true → latin1_lower s = basic_latin_lower s.
Proof.
  unfold latin1_lower, basic_latin_lower. induction s as [|c s IH];
    [reflexivity|].
  cbn [forallb]. rewrite andb_true_iff. intros [Hc Hs].
  cbn [fmap list_fmap] in *. rewrite (IH Hs). f_equal.
  unfold latin1_lower_unit, lower_unit. destruct (is_upper c); [reflexivity|].
  unfold is_basic_latin in Hc. apply N.ltb_lt in Hc.
  destruct (N.leb_spec 192 c); [lia | reflexivity].
Qed.

Lemma latin1_upper_basic_latin s :
  forallb is_basic_latin s = true → latin1_upper s = basic_latin_upper s.
Proof.
  unfold basic_latin_upper. induction s as [|c s IH]; [reflexivity|].
  cbn [forallb]. rewrite andb_true_iff. intros [Hc Hs].
  cbn [fmap list_fmap latin1_upper] in *. rewrite (IH Hs).
  unfold latin1_upper_units, upper_unit. destruct (is_lower c); [reflexivity|].
  unfold is_basic_latin in Hc. apply N.ltb_lt in Hc.
  destruct (N.eqb_spec c 223); [lia|].
  destruct (N.leb_spec 224 c); [lia|].
  destruct (N.eqb_spec c 255); [lia|].
  destruct (N.eqb_spec c 181); [lia | reflexivity].
Qed.

Lemma latin1_lower_plain_letters s pat :
  forallb plain_letter pat = true →
  includes (latin1_lower s) pat = includes (basic_latin_lower s) pat.
Proof.
  intros Hpat. unfold includes, latin1_lower, basic_latin_lower.
  rewrite (find_first_fmap_agree latin1_lower_unit lower_unit);
    [reflexivity|].
  intros c p Hp. rewrite forallb_forall in Hpat.
  apply list_elem_of_In, Hpat, plain_letter_range in Hp.
  unfold latin1_lower_unit, lower_unit, unit_eqb.
  destruct (is_upper c); [reflexivity|].
  destruct (N.leb_spec 192 c); cbn [andb]; [|reflexivity].
  destruct ((c <=? 222)%N && negb (c =? 215)%N); [|reflexivity].
  destruct (N.eqb_spec p (c + 32)); [lia|].
  destruct (N.eqb_spec p c); [lia | reflexivity].
Qed.

Lemma latin1_lower_line_feed s : LF ∈ latin1_lower s → LF ∈ s.
Proof.
  unfold latin1_lower. intros Hin.
  apply list_elem_of_fmap in Hin as (c & Hc & Hin).
  replace LF with c; [exact Hin|].
  revert Hc. unfold latin1_lower_unit, is_upper, LF.
  destruct (N.leb_spec 65 c); cbn [andb].
  - destruct (c <=? 90)%N; [lia|].
    destruct (N.leb_spec 192 c); cbn [andb]; [|lia].
    destruct ((c <=? 222)%N && negb (c =? 215)%N); lia.
  - destruct (N.leb_spec 192 c); cbn [andb]; [lia | lia].
Qed.

Lemma latin1_upper_line_feed s : LF ∈ latin1_upper s → LF ∈ s.
Proof.
  induction s as [|c s IH]; [easy|]. cbn [latin1_upper].
  rewrite elem_of_app. intros [Hc | Hs]; [|right; apply IH, Hs].
  replace LF with c; [left|].
  revert Hc. unfold latin1_upper_units, is_lower, LF.
  destruct (N.leb_spec 97 c); cbn [andb].
  - destruct (c <=? 122)%N.
    { intros Hc. apply list_elem_of_singleton in Hc. lia. }
    destruct (N.eqb_spec c 223).
    { intros Hc. apply elem_of_cons in Hc as [Hc | Hc]; [lia|].
      apply list_elem_of_singleton in Hc. lia. }
    destruct ((224 <=? c)%N && (c <=? 254)%N && negb (c =? 247)%N).
    { intros Hc. apply list_elem_of_singleton in Hc. lia. }
    destruct (N.eqb_spec c 255).
    { intros Hc. apply list_elem_of_singleton in Hc. lia. }
    destruct (N.eqb_spec c 181);
      intros Hc; apply list_elem_of_singleton in Hc; lia.
  - destruct (N.eqb_spec c 223); [lia|].
    destruct (N.leb_spec 224 c); [lia|]. cbn [andb].
    destruct (N.eqb_spec c 255); [lia|].
    destruct (N.eqb_spec c 181); [lia|].
    intros Hc. apply list_elem_of_singleton in Hc. lia.
Qed.

#[global] Instance latin1_case : CaseOps := {|
  toLowerCase := latin1_lower;
  toUpperCase := latin1_upper;
  toLowerCase_basic_latin := latin1_lower_basic_latin;
  toUpperCase_basic_latin := latin1_upper_basic_latin;
  toLowerCase_plain_letters := latin1_lower_plain_letters;
  toLowerCase_line_feed := latin1_lower_line_feed;
  toUpperCase_line_feed := latin1_upper_line_feed
|}.


(** ** White space and words *)

Lemma forallb_reverse {A} (P : A → bool) (l : list A) :
  forallb P (reverse l) = forallb P l.
Proof.
  induction l as [|x l IH]; [reflexivity|].
  rewrite reverse_cons, forallb_app, IH. simpl.
  destruct (P x), (forallb P l); reflexivity.
Qed.

Lemma trimStart_nil s :
  trimStart s = [] ↔ forallb is_whitespace s = true.
Proof.
  induction s as [|c s IH]; simpl; [easy|].
  destruct (is_whitespace c); simpl; [exact IH | easy].
Qed.

Lemma forallb_trimStart s :
  forallb is_whitespace (trimStart s) = forallb is_whitespace s.
Proof.
  induction s as [|c s IH]; simpl; [reflexivity|].
  destruct (is_whitespace c) eqn:E; simpl; [exact IH|].
  rewrite E. reflexivity.
Qed.

Lemma reverse_eq_nil {A} (l : list A) : reverse l = [] ↔ l = [].
Proof.
  split; [|intros ->; reflexivity].
  intros H. rewrite <- (reverse_involutive l), H. reflexivity.
Qed.

(** A string trims to nothing exactly when it is all white space. *)
Lemma trim_nil s : trim s = [] ↔ forallb is_whitespace s = true.
Proof.
  unfold trim, trimEnd.
  etransitivity; [apply reverse_eq_nil|].
  etransitivity; [apply trimStart_nil|].
  rewrite forallb_reverse, forallb_trimStart. reflexivity.
Qed.

Lemma blank_trim w : str_eqb (trim w) [] = forallb is_whitespace w.
Proof.
  destruct (forallb is_whitespace w) eqn:E.
  - apply str_eqb_eq, trim_nil, E.
  - apply str_eqb_neq. rewrite trim_nil. congruence.
Qed.

Lemma SPACE_is_whitespace : is_whitespace SPACE = true.
Proof. reflexivity. Qed.

(** The pieces of a split on the space, filtered as the source does, are
    counted by the scan. *)
Lemma split_scan_space_pieces cur s :
  length (List.filter (λ word, negb (str_eqb (trim word) []))
            (split_scan [SPACE] 0 cur s))
  = ((if forallb is_whitespace cur then 0 else 1)
     + count_space_pieces (negb (forallb is_whitespace cur)) s)%nat.
Proof.
  revert cur. induction s as [|c s IH]; intros cur.
  - simpl. rewrite blank_trim.
    destruct (forallb is_whitespace cur); reflexivity.
  - cbn [split_scan startsWith count_space_pieces length Nat.sub].
    unfold unit_eqb. rewrite (N.eqb_sym SPACE c), andb_true_r.
    destruct (c =? SPACE)%N eqn:E.
    + cbn [List.filter]. rewrite blank_trim.
      destruct (forallb is_whitespace cur); cbn [negb length];
        rewrite IH; reflexivity.
    + rewrite IH, forallb_app. simpl. rewrite andb_true_r.
      destruct (forallb is_whitespace cur), (is_whitespace c);
        simpl; reflexivity.
Qed.

Lemma count_words_space_pieces t :
  count_words t = space_pieces_with_text t.
Proof.
  unfold count_words, space_pieces_with_text.
  change (split t (js " ")) with (split_scan [SPACE] 0 [] t).
  rewrite split_scan_space_pieces. reflexivity.
Qed.


Lemma index_result_found i : (index_result (Some i) =? -1) = false.
Proof. apply Z.eqb_neq. simpl. lia. Qed.

Lemma clamp_index_in_range len (i : nat) :
  (i ≤ len)%nat → clamp_index len (Z.of_nat i) = i.
Proof. unfold clamp_index. lia. Qed.

Lemma substring_prefix pre rest :
  substring (pre ++ rest) 0 (Z.of_nat (length pre)) = pre.
Proof.
  unfold substring.
  rewrite (clamp_index_in_range _ (length pre))
    by (rewrite length_app; lia).
  rewrite (clamp_index_in_range _ 0) by lia.
  rewrite Nat.max_0_l, Nat.min_0_l, Nat.sub_0_r. simpl.
  apply take_app_length.
Qed.

Lemma substring_from_suffix pre rest z :
  z = Z.of_nat (length pre) → substring_from (pre ++ rest) z = rest.
Proof.
  intros ->. unfold substring_from.
  rewrite clamp_index_in_range by (rewrite length_app; lia).
  apply drop_app_length.
Qed.

(** What a successful parse is made of. *)
Lemma parseWhatsAppMessage_Some {number} {host : CaseOps}
    (message : value number) r :
  parseWhatsAppMessage message = Some r →
  ∃ line dateTimePart rest,
    message = VStr line
    ∧ find_first (js " - ") line = Some (length dateTimePart)
    ∧ line = dateTimePart ++ js " - " ++ rest
    ∧ occurs_in (js ": ") rest
    ∧ date r = split dateTimePart (js ", ") !! 0%nat
    ∧ time r = split dateTimePart (js ", ") !! 1%nat
    ∧ wordCount r = count_words (text r)
    ∧ sentiment r = classify_sentiment (text r).
Proof.
  destruct message as [| | | |line| |]; try discriminate.
  unfold parseWhatsAppMessage, indexOf. cbv zeta.
  destruct (find_first (js " - ") line) as [i|] eqn:F; [|discriminate].
  rewrite index_result_found.
  destruct (find_first_Some _ _ _ F) as (pre & post & Hline & Hi).
  subst i. cbn [index_result].
  assert (substring line 0 (Z.of_nat (length pre)) = pre) as ->
    by (rewrite Hline; apply substring_prefix).
  assert (substring_from line (Z.of_nat (length pre) + 3) = post) as ->.
  { rewrite Hline, app_assoc. apply substring_from_suffix.
    rewrite length_app. change (length (js " - ")) with 3%nat. lia. }
  destruct (find_first (js ": ") post) as [j|] eqn:G; [|discriminate].
  rewrite index_result_found. intros [= <-].
  cbn [date time text wordCount sentiment].
  exists line, pre, post. split_and!; try easy.
  apply includes_spec. unfold includes. rewrite G. reflexivity.
Qed.

(** ... and when a parse succeeds. *)
Lemma parseWhatsAppMessage_first_occurrence {number} {host : CaseOps}
    dateTimePart rest :
  first_occurrence (js " - ") dateTimePart
    (dateTimePart ++ js " - " ++ rest) →
  occurs_in (js ": ") rest →
  ∃ r, parseWhatsAppMessage
         (VStr (dateTimePart ++ js " - " ++ rest) : value number) = Some r
       ∧ date r = split dateTimePart (js ", ") !! 0%nat
       ∧ time r = split dateTimePart (js ", ") !! 1%nat.
Proof.
  intros Hfirst Hrest.
  unfold parseWhatsAppMessage, indexOf. cbv zeta.
  rewrite (find_first_first_occurrence _ _ _ Hfirst), index_result_found.
  cbn [index_result].
  rewrite substring_prefix.
  assert (substring_from (dateTimePart ++ js " - " ++ rest)
            (Z.of_nat (length dateTimePart) + 3) = rest) as ->.
  { rewrite app_assoc. apply substring_from_suffix.
    rewrite length_app. change (length (js " - ")) with 3%nat. lia. }
  apply includes_spec in Hrest. unfold includes in Hrest.
  destruct (find_first (js ": ") rest) as [j|] eqn:G; [|discriminate].
  rewrite index_result_found. eexists. split; [reflexivity|]. easy.
Qed.

(** ** The message line parser *)

(** The two lines of the documentation. *)
Example parseWhatsAppMessage_party :
  parseWhatsAppMessage
    (VStr (js "25/01/2025, 14:30 - Rahul: Bhai party kab hai? "
           ++ laughing_emoji) : value safe_integer)
  = Some {| date := Some (js "25/01/2025");
            time := Some (js "14:30");
            sender := js "Rahul";
            text := js "Bhai party kab hai? " ++ laughing_emoji;
            wordCount := 5;
            sentiment := js "funny" |}.
Proof. vm_compute. reflexivity. Qed.

Example parseWhatsAppMessage_song :
  parseWhatsAppMessage
    (VStr (js "01/12/2024, 09:15 - Priya: I love this song")
     : value safe_integer)
  = Some {| date := Some (js "01/12/2024");
            time := Some (js "09:15");
            sender := js "Priya";
            text := js "I love this song";
            wordCount := 4;
            sentiment := js "love" |}.
Proof. vm_compute. reflexivity. Qed.

Example parseWhatsAppMessage_not_a_line :
  parseWhatsAppMessage (VNum (num 5) : value safe_integer) = None
  ∧ parseWhatsAppMessage
      (VStr (js "no divider here") : value safe_integer) = None
  ∧ parseWhatsAppMessage
      (VStr (js "25/01/2025, 14:30 - Rahul") : value safe_integer) = None.
Proof. split_and!; reflexivity. Qed.





Lemma split_scan_no_sep sep cur s :
  sep ≠ [] → ¬ occurs_in sep s → split_scan sep 0 cur s = [cur ++ s].
Proof.
  intros Hsep. revert cur. induction s as [|c s IH]; intros cur Hs; simpl.
  - rewrite app_nil_r. reflexivity.
  - destruct (startsWith (c :: s) sep) eqn:E.
    + exfalso. apply Hs. apply startsWith_spec in E as [post E].
      exists [], post. exact E.
    + rewrite IH.
      * rewrite <- app_assoc. reflexivity.
      * intros (pre & post & ->). apply Hs. exists (c :: pre), post.
        reflexivity.
Qed.

Lemma split_no_sep s sep :
  sep ≠ [] → ¬ occurs_in sep s → split s sep = [s].
Proof.
  intros Hsep Hs. destruct sep as [|d sep]; [easy|].
  unfold split. rewrite split_scan_no_sep; easy.
Qed.

(** Whatever follows a later occurrence follows the first one. *)
Lemma after_first_occurrence pat pre post a b :
  first_occurrence pat pre (pre ++ pat ++ post) →
  pre ++ pat ++ post = a ++ pat ++ b →
  ∃ k, post = k ++ b.
Proof.
  intros [_ Hmin] Heq. specialize (Hmin _ _ Heq).
  exists (take (length a - length pre) post).
  apply (f_equal (drop (length a + length pat))) in Heq.
  rewrite (app_assoc a), (drop_app_length' (a ++ pat)) in Heq
    by (rewrite length_app; reflexivity).
  rewrite (app_assoc pre) in Heq.
  replace (length a + length pat)%nat
    with (length (pre ++ pat) + (length a - length pre))%nat in Heq
    by (rewrite length_app; lia).
  rewrite drop_app_add in Heq.
  rewrite <- Heq. symmetry. apply take_drop.
Qed.

Lemma find_first_is_first_occurrence pat pre s :
  find_first pat s = Some (length pre) → take (length pre) s = pre →
  first_occurrence pat pre s.
Proof.
  intros F Hpre. split.
  - destruct (find_first_Some _ _ _ F) as (pre' & post & -> & Hlen).
    rewrite <- Hlen, take_app_length in Hpre. subst pre'. eauto.
  - intros pre' post' Hs. apply (find_first_least _ _ _ _ _ F Hs).
Qed.

(** C10: a string in which " - " is followed later by ": ", and whose
    segment before the first " - " holds no ", ", parses; the date of the
    result is the whole segment and its time is undefined. *)
Theorem parse_without_date_time_divider {number} {host : CaseOps}
    (message segment : jsstring) :
  first_occurrence (js " - ") segment message →
  (∃ a b, message = a ++ js " - " ++ b ∧ occurs_in (js ": ") b) →
  ¬ occurs_in (js ", ") segment →
  ∃ r, parseWhatsAppMessage (VStr message : value number) = Some r
       ∧ date r = Some segment
       ∧ time r = None.
Proof.
  intros Hfirst (a & b & Hab & Hb) Hcomma.
  destruct Hfirst as [[post ->] Hmin].
  assert (first_occurrence (js " - ") segment (segment ++ js " - " ++ post))
    as Hfirst by (split; [eauto | exact Hmin]).
  destruct (after_first_occurrence _ _ _ _ _ Hfirst Hab) as [k ->].
  destruct (parseWhatsAppMessage_first_occurrence (number := number)
              segment (k ++ b) Hfirst) as (r & Hr & Hd & Ht).
  { destruct Hb as (p & q & ->). exists (k ++ p), q.
    rewrite <- app_assoc. reflexivity. }
  exists r. rewrite Hd, Ht, split_no_sep by easy. easy.
Qed.

Lemma parse_without_date_time_divider_witness :
  ∃ r, parseWhatsAppMessage undated_line = Some r
       ∧ date r = Some (js "yesterday")
       ∧ time r = None.
Proof.
  apply (parse_without_date_time_divider
           (js "yesterday - Rahul: kal milte hain") (js "yesterday")).
  - apply find_first_is_first_occurrence; vm_compute; reflexivity.
  - exists (js "yesterday"), (js "Rahul: kal milte hain").
    split; [reflexivity|]. apply includes_spec. vm_compute. reflexivity.
  - apply find_first_None. vm_compute. reflexivity.
Defined.







(** ** The form validator *)

(** A decidable statement about concrete data, settled by evaluation. *)
Ltac by_compute := apply (bool_decide_unpack _); vm_compute; exact I.

Lemma find_first_unit c s i :
  find_first [c] s = Some i →
  ∃ pre post, s = pre ++ (c :: post) ∧ (c ∉ pre) ∧ length pre = i.
Proof.
  intros F. destruct (find_first_Some _ _ _ F) as (pre & post & Hs & Hi).
  exists pre, post. split_and!; [exact Hs | | exact Hi].
  intros Hin. apply list_elem_of_split in Hin as (p1 & p2 & Hp).
  assert (s = p1 ++ [c] ++ (p2 ++ [c] ++ post)) as Hs'.
  { rewrite Hs, Hp, <- app_assoc. reflexivity. }
  pose proof (find_first_least _ _ _ _ _ F Hs') as Hle.
  rewrite <- Hi, Hp, length_app in Hle. simpl in Hle. lia.
Qed.

Lemma find_last_unit c s i :
  find_last [c] s = Some i →
  ∃ pre post, s = pre ++ (c :: post) ∧ (c ∉ post) ∧ length pre = i.
Proof.
  revert i. induction s as [|x s IH]; intros i; simpl; [easy|].
  destruct (find_last [c] s) as [j|] eqn:L.
  - intros [= <-]. destruct (IH j eq_refl) as (pre & post & -> & Hpost & <-).
    exists (x :: pre), post. easy.
  - rewrite andb_true_r. destruct (unit_eqb c x) eqn:E; [|easy].
    intros [= <-]. apply unit_eqb_eq in E as <-.
    exists [], s. split_and!; [reflexivity | | reflexivity].
    intros Hin. apply list_elem_of_split in Hin as (p1 & p2 & ->).
    clear IH. revert L. clear. induction p1 as [|y p1 IH]; simpl.
    + destruct (find_last [c] p2); [easy|].
      unfold unit_eqb. rewrite N.eqb_refl. easy.
    + destruct (find_last [c] (p1 ++ c :: p2)); [easy|]. intros _.
      apply IH. reflexivity.
Qed.

(** The source accepts an address only when it has exactly one "@", a "."
    after it, and no "." before it. *)
Lemma email_accepted_rule_first_dot {number} (s : jsstring) :
  email_fails (VStr s : value number) = false → email_rule_first_dot s.
Proof.
  unfold email_fails, indexOf, lastIndexOf. rewrite !orb_false_iff.
  intros [[H1 H2] H3].
  destruct (find_first (js "@") s) as [i|] eqn:F; [|discriminate H1].
  apply negb_false_iff, Z.eqb_eq in H2. apply Z.leb_gt in H3.
  destruct (find_last (js "@") s) as [i'|] eqn:L; simpl in H2; [|lia].
  assert (i' = i) as -> by lia. clear H1 H2.
  destruct (find_first (js ".") s) as [j|] eqn:D; simpl in H3; [|lia].
  apply find_first_unit in F as (pre & post & Hs & Hpre & Hi).
  apply find_last_unit in L as (pre' & post' & Hs' & Hpost' & Hi').
  apply find_first_unit in D as (p & q & Hd & Hp & Hj).
  assert (pre' = pre ∧ post' = post) as [-> ->].
  { rewrite Hs in Hs'. apply app_inj_1 in Hs'; [|lia].
    destruct Hs' as [-> [= ->]]. easy. }
  exists pre, post. split_and!; try easy.
  - assert (q = drop (S j) s) as Hq.
    { rewrite Hd, <- Hj, (cons_middle _ p q), app_assoc.
      rewrite drop_app_length'; [reflexivity|].
      rewrite length_app. simpl. lia. }
    assert (drop (S i) s = post) as Hpost.
    { rewrite Hs, <- Hi, (cons_middle _ pre post), app_assoc.
      rewrite drop_app_length'; [reflexivity|].
      rewrite length_app. simpl. lia. }
    assert (s !! j = Some DOT) as Hlook.
    { rewrite Hd, <- Hj. apply list_lookup_middle. reflexivity. }
    rewrite <- Hpost. apply list_elem_of_lookup. exists (j - S i)%nat.
    rewrite lookup_drop. replace (S i + (j - S i))%nat with j by lia.
    exact Hlook.
  - intros Hin. apply Hp.
    assert (take (length pre) s = pre) as E1
      by (rewrite Hs; apply take_app_length).
    assert (take (length pre) s = take (length pre) p) as E2
      by (rewrite Hd; apply take_app_le; lia).
    rewrite <- E1, E2 in Hin.
    apply (subseteq_take (length pre) p), Hin.
Qed.

Lemma find_first_unit_at c pre post :
  c ∉ pre → find_first [c] (pre ++ c :: post) = Some (length pre).
Proof.
  induction pre as [|x pre IH]; intros Hc; simpl.
  - unfold unit_eqb. rewrite N.eqb_refl. reflexivity.
  - apply not_elem_of_cons in Hc as [Hx Hpre]. unfold unit_eqb.
    destruct (N.eqb_spec c x) as [->|_]; [easy|]. simpl.
    rewrite (IH Hpre). reflexivity.
Qed.

Lemma find_last_unit_absent c s : c ∉ s → find_last [c] s = None.
Proof.
  induction s as [|x s IH]; intros Hc; simpl; [reflexivity|].
  apply not_elem_of_cons in Hc as [Hx Hs]. rewrite (IH Hs).
  unfold unit_eqb. destruct (N.eqb_spec c x) as [->|_]; easy.
Qed.

Lemma find_last_unit_at c pre post :
  c ∉ post → find_last [c] (pre ++ c :: post) = Some (length pre).
Proof.
  intros Hc. induction pre as [|x pre IH]; simpl.
  - rewrite (find_last_unit_absent _ _ Hc). unfold unit_eqb.
    rewrite N.eqb_refl. reflexivity.
  - rewrite IH. reflexivity.
Qed.

(** ... and it accepts every such address: the test of the source is the
    documented rule together with "no dot before the @". *)
Lemma email_rule_first_dot_accepted {number} (s : jsstring) :
  email_rule_first_dot s → email_fails (VStr s : value number) = false.
Proof.
  intros (pre & post & -> & Hpre & Hpost & Hdot & Hnodot).
  apply list_elem_of_split_l in Hdot as (p1 & p2 & -> & Hp1).
  unfold email_fails, indexOf, lastIndexOf.
  change (js "@") with [AT]. change (js ".") with [DOT].
  rewrite (find_first_unit_at AT pre _ Hpre).
  rewrite (find_last_unit_at AT pre _ Hpost).
  rewrite (cons_middle AT pre), app_assoc, (app_assoc _ p1).
  rewrite (find_first_unit_at DOT ((pre ++ [AT]) ++ p1) p2).
  - cbn [index_result]. rewrite !length_app. simpl length.
    rewrite !orb_false_iff, negb_false_iff.
    split_and!; [apply Z.eqb_neq; lia | apply Z.eqb_refl | apply Z.leb_gt; lia].
  - rewrite !not_elem_of_app. split_and!; [exact Hnodot | | exact Hp1].
    apply not_elem_of_cons. split; [discriminate | apply not_elem_of_nil].
Qed.

(** So an address that breaks the documented rule gets the error. *)
Lemma email_rule_broken_fails {number} (v : value number) :
  (∀ s, v = VStr s → ¬ email_rule s) → email_fails v = true.
Proof.
  intros H. destruct (email_fails v) eqn:E; [reflexivity|]. exfalso.
  destruct v as [| | | |s| |]; try discriminate E.
  apply (H s eq_refl).
  destruct (email_accepted_rule_first_dot s E)
    as (pre & post & Hs & H1 & H2 & H3 & _).
  exists pre, post. easy.
Qed.

(** C1: the address [rahul.sharma@gmail.com] has exactly one "@" and a "."
    after it, and the form that holds it gets the email error all the
    same: the source compares the position of the first "." with that of
    the "@". *)
Theorem validateForm_rejects_dot_before_at :
  email_rule (js "rahul.sharma@gmail.com")
  ∧ ∃ r, validateForm dotted_form = Return r
         ∧ errors r !! "email" = Some (js "Invalid email format")
         ∧ isValid r = false.
Proof.
  split.
  - exists (js "rahul.sharma"), (js "gmail.com").
    split_and!; [reflexivity | | | ]; by_compute.
  - eexists. split; [vm_compute; reflexivity|].
    split; vm_compute; reflexivity.
Qed.

Lemma lookup_record_if_eq c k msg (m : gmap string jsstring) :
  record_if c k msg m !! k = if c then Some msg else m !! k.
Proof. unfold record_if. destruct c; [apply lookup_insert_eq | reflexivity]. Qed.

Lemma lookup_record_if_ne c k msg (m : gmap string jsstring) k' :
  k ≠ k' → record_if c k msg m !! k' = m !! k'.
Proof.
  intros Hne. unfold record_if. destruct c; [|reflexivity].
  apply lookup_insert_ne, Hne.
Qed.

Lemma record_if_empty c k msg (m : gmap string jsstring) :
  record_if c k msg m = ∅ ↔ c = false ∧ m = ∅.
Proof.
  unfold record_if. destruct c.
  - split; [|easy]. intros Hx. apply insert_non_empty in Hx. easy.
  - split; [easy | intros [_ Hx]; exact Hx].
Qed.

(** The test of a field named by a literal. *)
Ltac pick_field :=
  unfold field_fails;
  repeat (rewrite decide_False by discriminate);
  rewrite ?decide_True by reflexivity.

(** The entry of the error record for a field named by a literal. *)
Ltac field_entry :=
  pick_field;
  repeat (rewrite lookup_record_if_ne by discriminate);
  rewrite lookup_record_if_eq;
  repeat (rewrite lookup_record_if_ne by discriminate);
  rewrite lookup_empty;
  match goal with
  | |- context [if ?c then _ else _] => destruct c
  end;
  split; intros Hx;
  [ reflexivity | eexists; reflexivity
  | destruct Hx; discriminate | discriminate ].

Ltac each_field Hin tac :=
  repeat (apply elem_of_cons in Hin as [->|Hin]; [tac|]);
  apply not_elem_of_nil in Hin; contradiction.

Section FormProperties.
Context {number : Type} `{!NumberOps number}.

Lemma get_Return (v : value number) k :
  v ≠ VUndefined → v ≠ VNull → get v k = Return (prop v k).
Proof. destruct v; easy. Qed.

(** The test of the age, when the value has a text. *)
Lemma parseInt_text (v : value number) t :
  to_string v = Return t → parseInt v = Return (parseInt_string t).
Proof. unfold parseInt. intros ->. reflexivity. Qed.

Lemma age_fails_text (v : value number) t :
  to_string v = Return t →
  age_fails (parseInt_string t) v = Return (age_text_fails t).
Proof.
  unfold age_fails, test_all_digits, age_text_fails. intros ->.
  cbn [mbind outcome_bind]. destruct (isNaN (parseInt_string t)); reflexivity.
Qed.

Lemma field_fails_age (v : value number) t :
  to_string v = Return t → field_fails "age" v = Return (age_text_fails t).
Proof.
  intros Ht. unfold field_fails.
  repeat (rewrite decide_False by discriminate).
  rewrite decide_True by reflexivity.
  rewrite (parseInt_text v t Ht). apply age_fails_text, Ht.
Qed.

(** On every value but undefined and null whose age has a text the
    validator returns, and the errors are those of the seven tests. *)
Lemma validateForm_returns (v : value number) t :
  v ≠ VUndefined → v ≠ VNull → to_string (prop v "age") = Return t →
  ∃ r, validateForm v = Return r
       ∧ isValid r = (size (errors r) =? 0)%nat
       ∧ (∀ k, is_Some (errors r !! k)
               ↔ field_fails k (prop v k) = Return true)
       ∧ (errors r = ∅ ↔
          ∀ k, k ∈ form_fields → field_fails k (prop v k) = Return false).
Proof.
  intros Hu Hn Ht. unfold validateForm.
  rewrite !get_Return by assumption. cbn [mbind outcome_bind].
  rewrite (parseInt_text _ t Ht). cbn [mbind outcome_bind].
  rewrite (age_fails_text _ t Ht). cbn [mbind outcome_bind].
  pose proof (field_fails_age _ t Ht) as Hage.
  eexists. split; [reflexivity|]. cbn [isValid errors].
  split; [reflexivity|]. split.
  - intros k.
    destruct (decide (k = "name")) as [->|N1]; [field_entry|].
    destruct (decide (k = "email")) as [->|N2]; [field_entry|].
    destruct (decide (k = "phone")) as [->|N3]; [field_entry|].
    destruct (decide (k = "age")) as [->|N4]; [rewrite Hage; field_entry|].
    destruct (decide (k = "pincode")) as [->|N5]; [field_entry|].
    destruct (decide (k = "state")) as [->|N6]; [field_entry|].
    destruct (decide (k = "agreeTerms")) as [->|N7]; [field_entry|].
    unfold field_fails. rewrite !decide_False by assumption.
    rewrite !lookup_record_if_ne by congruence. rewrite lookup_empty.
    split; intros Hx; [destruct Hx; discriminate | discriminate].
  - rewrite !record_if_empty. unfold form_fields. split.
    + intros (H7 & H6 & H5 & H4 & H3 & H2 & H1 & _) k Hk.
      each_field Hk
        ltac:(first [ rewrite Hage; congruence
                    | pick_field; congruence ]).
    + intros Hx. split_and!; try reflexivity.
      * specialize (Hx "agreeTerms" ltac:(by_compute)). revert Hx.
        pick_field. congruence.
      * specialize (Hx "state" ltac:(by_compute)). revert Hx.
        pick_field. congruence.
      * specialize (Hx "pincode" ltac:(by_compute)). revert Hx.
        pick_field. congruence.
      * specialize (Hx "age" ltac:(by_compute)). rewrite Hage in Hx.
        congruence.
      * specialize (Hx "phone" ltac:(by_compute)). revert Hx.
        pick_field. congruence.
      * specialize (Hx "email" ltac:(by_compute)). revert Hx.
        pick_field. congruence.
      * specialize (Hx "name" ltac:(by_compute)). revert Hx.
        pick_field. congruence.
Qed.

(** It throws on undefined and null, and when the age has no text. *)
Lemma validateForm_Throw (v : value number) :
  v = VUndefined ∨ v = VNull ∨ no_text (prop v "age") →
  validateForm v = Throw TypeError.
Proof.
  intros [-> | [-> | Hage]]; [reflexivity | reflexivity|].
  apply to_string_Throw in Hage.
  destruct v; try reflexivity; unfold validateForm;
    rewrite !get_Return by discriminate; cbn [mbind outcome_bind];
    unfold parseInt; rewrite Hage; reflexivity.
Qed.

Lemma validateForm_Return_inv (v : value number) r :
  validateForm v = Return r →
  v ≠ VUndefined ∧ v ≠ VNull ∧ ∃ t, to_string (prop v "age") = Return t.
Proof.
  intros Hr.
  assert (¬ (v = VUndefined ∨ v = VNull ∨ no_text (prop v "age"))) as Hno.
  { intros Hx. rewrite (validateForm_Throw v Hx) in Hr. discriminate Hr. }
  split_and!; [tauto | tauto|].
  apply to_string_Return. intros Hx. tauto.
Qed.

(** A field that is absent, or of a type that is not text, fails its
    test. *)
Lemma not_string_fails (v : value number) :
  is_string v = false →
  name_fails v = true ∧ email_fails v = true ∧ phone_fails v = true
  ∧ pincode_fails v = true ∧ state_fails v = true.
Proof. destruct v; intros Hs; try discriminate Hs; easy. Qed.

(** The seven tests fail on an absent field. *)
Lemma field_fails_undefined k :
  k ∈ form_fields → field_fails k (VUndefined : value number) = Return true.
Proof.
  intros Hin. unfold form_fields in Hin.
  each_field Hin ltac:(reflexivity).
Qed.

(** A result with an error is not valid. *)
Lemma errors_not_empty (r : ValidationResult) k :
  isValid r = (size (errors r) =? 0)%nat → is_Some (errors r !! k) →
  isValid r = false.
Proof.
  intros -> [x Hx]. apply Nat.eqb_neq. intros Hz.
  apply map_size_empty_iff in Hz. rewrite Hz, lookup_empty in Hx.
  discriminate Hx.
Qed.

(** C9, as amended: validateForm throws a type error exactly when it is
    called with undefined or null, or when the value of age has no text
    (it is a record with a toString property of its own, or an array that
    holds one). On every other value it returns a result, valid exactly
    when no error is recorded, with an error recorded for exactly the
    fields whose test fails: each of name, email, phone, pincode and state
    when its value is not text, and all seven on every value that is not
    a record (an array, a number, a string, a boolean) and on the record
    without properties. *)
Theorem validateForm_throws_exactly (v : value number) :
  (validateForm v = Throw TypeError
   ↔ v = VUndefined ∨ v = VNull ∨ no_text (prop v "age"))
  ∧ (v ≠ VUndefined → v ≠ VNull → has_text (prop v "age") →
     ∃ r, validateForm v = Return r
          ∧ (isValid r = true ↔ errors r = ∅)
          ∧ (∀ k, is_Some (errors r !! k)
                  ↔ field_fails k (prop v k) = Return true)
          ∧ (∀ k, k ∈ ["name"; "email"; "phone"; "pincode"; "state"] →
                  is_string (prop v k) = false →
                  is_Some (errors r !! k)))
  ∧ (v ≠ VUndefined → v ≠ VNull → (∀ props, v ≠ VObj props) →
     ∃ r, validateForm v = Return r
          ∧ isValid r = false
          ∧ ∀ k, k ∈ form_fields → is_Some (errors r !! k))
  ∧ (∃ r, validateForm (VObj ∅ : value number) = Return r
          ∧ isValid r = false
          ∧ ∀ k, k ∈ form_fields → is_Some (errors r !! k)).
Proof.
  assert (∀ u : value number,
            u ≠ VUndefined → u ≠ VNull →
            (∀ k, prop u k = VUndefined) →
            ∃ r, validateForm u = Return r
                 ∧ isValid r = false
                 ∧ ∀ k, k ∈ form_fields → is_Some (errors r !! k))
    as Hempty.
  { intros u Hu Hn Hprop.
    destruct (validateForm_returns u (js "undefined") Hu Hn)
      as (r & Hr & Hv & Hk & _); [rewrite Hprop; reflexivity|].
    assert (∀ k, k ∈ form_fields → is_Some (errors r !! k)) as Hall.
    { intros k Hin. apply Hk. rewrite Hprop.
      apply field_fails_undefined, Hin. }
    exists r. split_and!; [exact Hr | | exact Hall].
    apply (errors_not_empty r "name" Hv), Hall. by_compute. }
  split_and!.
  - split; [|apply validateForm_Throw].
    intros Hthrow.
    assert (v = VUndefined ∨ v = VNull ∨ (v ≠ VUndefined ∧ v ≠ VNull))
      as [Hu | [Hn | [Hu Hn]]]
      by (destruct v; auto; right; right; split; discriminate);
      [tauto | tauto|].
    right. right. apply to_string_Throw.
    destruct (to_string (prop v "age")) as [t|[]] eqn:Ht; [|reflexivity].
    destruct (validateForm_returns v t Hu Hn Ht) as (r & Hr & _).
    rewrite Hr in Hthrow. discriminate Hthrow.
  - intros Hu Hn Hage. apply to_string_Return in Hage as [t Ht].
    destruct (validateForm_returns v t Hu Hn Ht) as (r & Hr & Hv & Hk & _).
    exists r. split; [exact Hr|]. split_and!.
    + rewrite Hv, Nat.eqb_eq. apply map_size_empty_iff.
    + exact Hk.
    + intros k Hin Hs. apply Hk.
      destruct (not_string_fails _ Hs) as (H1 & H2 & H3 & H4 & H5).
      each_field Hin ltac:(pick_field; congruence).
  - intros Hu Hn Hrecord. apply (Hempty v Hu Hn).
    intros k. destruct v; try reflexivity. destruct (Hrecord props eq_refl).
  - apply Hempty; [discriminate | discriminate|].
    intros k. unfold prop. rewrite lookup_empty. reflexivity.
Qed.

End FormProperties.

(** C9, as stated, fails both ways: a record whose age is a record with a
    toString property makes the validator throw, and a number, which is
    not an object, gets a result. *)
Lemma validateForm_throws_on_record_counterexample :
  (∃ props, textless_age_form = VObj props)
  ∧ validateForm textless_age_form = Throw TypeError
  ∧ ∃ r, validateForm (VNum (num 5) : value safe_integer) = Return r
         ∧ isValid r = false.
Proof.
  split; [eexists; reflexivity|]. split; [vm_compute; reflexivity|].
  eexists. split; vm_compute; reflexivity.
Qed.

(** The two forms of the documentation. *)
Example validateForm_valid_form :
  ∃ r, validateForm
         (object_of
            [ ("name", VStr (js "Rahul Sharma"));
              ("email", VStr (js "rahul@gmail.com"));
              ("phone", VStr (js "9876543210"));
              ("age", VNum (num 20));
              ("pincode", VStr (js "400001"));
              ("state", VStr (js "Maharashtra"));
              ("agreeTerms", VBool true) ] : value safe_integer) = Return r
       ∧ isValid r = true ∧ errors r = ∅.
Proof. eexists. split_and!; vm_compute; reflexivity. Qed.

Example validateForm_invalid_form :
  ∃ r, validateForm
         (object_of
            [ ("name", VStr (js ""));
              ("email", VStr (js "bad-email"));
              ("phone", VStr (js "12345"));
              ("age", VNum (num 10));
              ("pincode", VStr (js "0123"));
              ("state", VNull);
              ("agreeTerms", VBool false) ] : value safe_integer) = Return r
       ∧ isValid r = false
       ∧ size (errors r) = 7%nat
       ∧ ∀ k, k ∈ form_fields → is_Some (errors r !! k).
Proof.
  eexists.
  split_and!; [vm_compute; reflexivity | reflexivity | reflexivity |].
  intros k Hin. unfold form_fields in Hin.
  each_field Hin ltac:(vm_compute; eexists; reflexivity).
Qed.

(** ** The pass formatter *)

Lemma split_scan_unit_app d cur l rest :
  d ∉ l →
  split_scan [d] 0 cur (l ++ d :: rest)
  = (cur ++ l) :: split_scan [d] 0 [] rest.
Proof.
  revert cur. induction l as [|c l IH]; intros cur Hd.
  - simpl. unfold unit_eqb. rewrite N.eqb_refl, app_nil_r. reflexivity.
  - apply not_elem_of_cons in Hd as [Hc Hl].
    cbn [app split_scan startsWith]. unfold unit_eqb.
    destruct (N.eqb_spec d c) as [->|_]; [easy|]. simpl.
    rewrite IH by exact Hl. rewrite <- app_assoc. reflexivity.
Qed.

Lemma split_scan_unit_last d cur l :
  d ∉ l → split_scan [d] 0 cur l = [cur ++ l].
Proof.
  revert cur. induction l as [|c l IH]; intros cur Hd.
  - simpl. rewrite app_nil_r. reflexivity.
  - apply not_elem_of_cons in Hd as [Hc Hl].
    cbn [split_scan startsWith]. unfold unit_eqb.
    destruct (N.eqb_spec d c) as [->|_]; [easy|]. simpl.
    rewrite IH by exact Hl. rewrite <- app_assoc. reflexivity.
Qed.

(** Splitting what was joined gives the pieces back, when no piece holds
    the separator. *)
Lemma split_join d pieces :
  pieces ≠ [] → Forall (λ l, d ∉ l) pieces →
  split (join [d] pieces) [d] = pieces.
Proof.
  unfold split. induction pieces as [|p [|q rest] IH]; intros Hne Hall.
  - easy.
  - simpl. apply Forall_cons in Hall as [Hp _].
    apply split_scan_unit_last, Hp.
  - apply Forall_cons in Hall as [Hp Hrest].
    change (join [d] (p :: q :: rest))
      with (p ++ d :: join [d] (q :: rest)).
    rewrite split_scan_unit_app by exact Hp. simpl app.
    rewrite IH by easy. reflexivity.
Qed.

Section PassProperties.
Context {number : Type} {host : CaseOps}.

Lemma toUpperCase_no_LF s : LF ∉ s → LF ∉ toUpperCase s.
Proof. intros Hs Hin. apply Hs, toUpperCase_line_feed, Hin. Qed.

Lemma toLowerCase_no_LF s : LF ∉ s → LF ∉ toLowerCase s.
Proof. intros Hs Hin. apply Hs, toLowerCase_line_feed, Hin. Qed.

Lemma take_no_LF n (s : jsstring) : LF ∉ s → LF ∉ take n s.
Proof. intros Hs Hin. apply Hs, (subseteq_take n s), Hin. Qed.

Lemma drop_no_LF n (s : jsstring) : LF ∉ s → LF ∉ drop n s.
Proof. intros Hs Hin. apply Hs, (subseteq_drop n s), Hin. Qed.

Lemma charAt_0 s : charAt s 0 = take 1 s.
Proof. destruct s; reflexivity. Qed.

Lemma slice_0 s (n : nat) : slice s 0 (Z.of_nat n) = take n s.
Proof.
  unfold slice, relative_index. simpl (0 <? 0).
  destruct (Z.of_nat n <? 0) eqn:E; [apply Z.ltb_lt in E; lia|].
  replace (Z.to_nat (Z.min 0 (Z.of_nat (length s)))) with 0%nat by lia.
  rewrite Nat.sub_0_r. simpl drop.
  destruct (decide (n ≤ length s)%nat).
  - f_equal. lia.
  - replace (Z.to_nat (Z.min (Z.of_nat n) (Z.of_nat (length s))))
      with (length s) by lia.
    rewrite (take_ge s n) by lia. apply take_ge. lia.
Qed.

Lemma titleCase_no_LF s : LF ∉ s → LF ∉ titleCase s.
Proof.
  intros Hs. unfold titleCase, slice_from. rewrite charAt_0.
  apply not_elem_of_app. split.
  - apply toUpperCase_no_LF, take_no_LF, Hs.
  - apply toLowerCase_no_LF, drop_no_LF, Hs.
Qed.

Lemma passId_spec classType from to :
  js "Pass ID: " ++ passId (toLowerCase classType) from to
  = pass_id_line from to classType.
Proof.
  unfold passId, pass_id_line. rewrite charAt_0.
  rewrite (slice_0 _ 3), (slice_0 _ 3). reflexivity.
Qed.

(** The text of an accepted record. *)
Lemma generateLocalPass_accepted
    (props : gmap string (value number)) name from to classType :
  prop (VObj props) "name" = VStr name →
  prop (VObj props) "from" = VStr from →
  prop (VObj props) "to" = VStr to →
  prop (VObj props) "classType" = VStr classType →
  trim name ≠ [] → trim from ≠ [] → trim to ≠ [] → trim classType ≠ [] →
  toLowerCase classType = js "first" ∨ toLowerCase classType = js "second" →
  generateLocalPass (VObj props)
  = join [LF] (pass_lines name from to (toLowerCase classType)).
Proof.
  intros Hn Hf Ht Hc Tn Tf Tt Tc Hclass. unfold generateLocalPass.
  rewrite Hn, Hf, Ht, Hc. unfold required_text.
  apply str_eqb_neq in Tn, Tf, Tt, Tc. rewrite Tn, Tf, Tt, Tc.
  destruct Hclass as [-> | ->]; reflexivity.
Qed.

(** The first letter of the class on the last line. *)
Lemma class_initial classType :
  (toLowerCase classType = js "first" →
   toUpperCase (take 1 (toLowerCase classType)) = js "F")
  ∧ (toLowerCase classType = js "second" →
     toUpperCase (take 1 (toLowerCase classType)) = js "S").
Proof.
  split; intros ->.
  - change (take 1 (js "first")) with (js "f").
    rewrite toUpperCase_basic_latin; reflexivity.
  - change (take 1 (js "second")) with (js "s").
    rewrite toUpperCase_basic_latin; reflexivity.
Qed.

Lemma class_no_LF classType :
  toLowerCase classType = js "first" ∨ toLowerCase classType = js "second" →
  (LF ∉ toUpperCase (toLowerCase classType))
  ∧ (LF ∉ toUpperCase (take 1 (toLowerCase classType))).
Proof.
  intros Hclass. split.
  - apply toUpperCase_no_LF. destruct Hclass as [-> | ->]; by_compute.
  - apply toUpperCase_no_LF, take_no_LF.
    destruct Hclass as [-> | ->]; by_compute.
Qed.

(** The pass of the documentation, whatever the host. *)
Lemma generateLocalPass_rahul :
  generateLocalPass (rahul_pass_of number)
  = js "MUMBAI LOCAL PASS" ++ [LF] ++ js "---" ++ [LF]
    ++ js "Name: RAHUL SHARMA" ++ [LF] ++ js "From: Dadar" ++ [LF]
    ++ js "To: Andheri" ++ [LF] ++ js "Class: FIRST" ++ [LF]
    ++ js "Pass ID: FDADAND".
Proof.
  assert (toLowerCase (js "first") = js "first") as Hfirst
    by (rewrite toLowerCase_basic_latin; reflexivity).
  unfold rahul_pass_of, object_of.
  rewrite (generateLocalPass_accepted _ (js "rahul sharma") (js "dadar")
             (js "andheri") (js "first"));
    try reflexivity; try (vm_compute; discriminate); [|left; exact Hfirst].
  rewrite Hfirst. unfold pass_lines, passId, titleCase.
  change (charAt (js "first") 0) with (js "f").
  change (charAt (js "dadar") 0) with (js "d").
  change (charAt (js "andheri") 0) with (js "a").
  change (slice_from (js "dadar") 1) with (js "adar").
  change (slice_from (js "andheri") 1) with (js "ndheri").
  rewrite !toUpperCase_basic_latin by reflexivity.
  rewrite !toLowerCase_basic_latin by reflexivity.
  vm_compute. reflexivity.
Qed.

(** C7, as amended: for every accepted passenger record the output is
    seven texts joined by line feeds, the last of which is "Pass ID: "
    followed by the upper-case first letter of the lower-cased classType
    (F or S), the first 3 units of the upper-cased from and the first 3
    units of the upper-cased to; when name, from and to hold no line feed,
    the output has exactly 7 lines and that text is its last line. The
    passenger of the documentation gets a pass that ends in
    "Pass ID: FDADAND", and null gets the invalid marker. *)
Theorem generateLocalPass_seven_lines
    (props : gmap string (value number)) name from to classType :
  prop (VObj props) "name" = VStr name →
  prop (VObj props) "from" = VStr from →
  prop (VObj props) "to" = VStr to →
  prop (VObj props) "classType" = VStr classType →
  trim name ≠ [] → trim from ≠ [] → trim to ≠ [] → trim classType ≠ [] →
  toLowerCase classType = js "first" ∨ toLowerCase classType = js "second" →
  (∃ six, length six = 6%nat
          ∧ generateLocalPass (VObj props)
            = join [LF] (six ++ [pass_id_line from to classType]))
  ∧ (LF ∉ name → LF ∉ from → LF ∉ to →
     length (lines_of (generateLocalPass (VObj props))) = 7%nat
     ∧ last (lines_of (generateLocalPass (VObj props)))
       = Some (pass_id_line from to classType))
  ∧ (toLowerCase classType = js "first" →
     pass_id_line from to classType
     = js "Pass ID: F" ++ take 3 (toUpperCase from)
       ++ take 3 (toUpperCase to))
  ∧ (toLowerCase classType = js "second" →
     pass_id_line from to classType
     = js "Pass ID: S" ++ take 3 (toUpperCase from)
       ++ take 3 (toUpperCase to))
  ∧ generateLocalPass (rahul_pass_of number)
    = js "MUMBAI LOCAL PASS" ++ [LF] ++ js "---" ++ [LF]
      ++ js "Name: RAHUL SHARMA" ++ [LF] ++ js "From: Dadar" ++ [LF]
      ++ js "To: Andheri" ++ [LF] ++ js "Class: FIRST" ++ [LF]
      ++ js "Pass ID: FDADAND"
  ∧ generateLocalPass (VNull : value number) = INVALID_PASS.
Proof.
  intros Hn Hf Ht Hc Tn Tf Tt Tc Hclass.
  rewrite (generateLocalPass_accepted props name from to classType)
    by assumption.
  destruct (class_no_LF classType Hclass) as [Lclass Linitial].
  destruct (class_initial classType) as [Hfirst Hsecond].
  unfold pass_lines. rewrite passId_spec. split_and!.
  - eexists [_; _; _; _; _; _]. split; reflexivity.
  - intros Ln Lf Lt. unfold lines_of. rewrite split_join.
    + split; reflexivity.
    + easy.
    + repeat apply Forall_cons_2; try apply Forall_nil_2.
      * by_compute.
      * by_compute.
      * apply not_elem_of_app. split; [by_compute|].
        apply toUpperCase_no_LF, Ln.
      * apply not_elem_of_app. split; [by_compute|].
        apply titleCase_no_LF, Lf.
      * apply not_elem_of_app. split; [by_compute|].
        apply titleCase_no_LF, Lt.
      * apply not_elem_of_app. split; [by_compute | exact Lclass].
      * unfold pass_id_line. rewrite !not_elem_of_app. split_and!.
        -- by_compute.
        -- exact Linitial.
        -- apply take_no_LF, toUpperCase_no_LF, Lf.
        -- apply take_no_LF, toUpperCase_no_LF, Lt.
  - intros Hx. unfold pass_id_line. rewrite (Hfirst Hx). reflexivity.
  - intros Hx. unfold pass_id_line. rewrite (Hsecond Hx). reflexivity.
  - apply generateLocalPass_rahul.
  - reflexivity.
Qed.

End PassProperties.

Lemma generateLocalPass_seven_lines_witness :
  length (lines_of (generateLocalPass rahul_pass)) = 7%nat
  ∧ last (lines_of (generateLocalPass rahul_pass))
    = Some (js "Pass ID: FDADAND").
Proof.
  destruct (generateLocalPass_seven_lines (number := safe_integer)
              (list_to_map
                 [ ("name", VStr (js "rahul sharma"));
                   ("from", VStr (js "dadar"));
                   ("to", VStr (js "andheri"));
                   ("classType", VStr (js "first")) ])
              (js "rahul sharma") (js "dadar") (js "andheri") (js "first"))
    as (_ & Hlines & _); try (vm_compute; reflexivity);
    try (vm_compute; discriminate).
  - left. vm_compute. reflexivity.
  - apply Hlines; by_compute.
Defined.

(** C7, as stated, fails for a name that holds a line feed: the pass then
    has eight lines. And the stations are put in upper case before they
    are cut, not after: from a station whose upper case is longer than
    itself the identifier takes the first three units of the upper case
    ("ASS"), not the upper case of the first three units ("ASSB"). *)
Lemma generateLocalPass_eight_lines_counterexample :
  generateLocalPass two_line_name_pass ≠ INVALID_PASS
  ∧ length (lines_of (generateLocalPass two_line_name_pass)) = 8%nat
  ∧ last (lines_of (generateLocalPass sharp_s_pass))
    = Some (js "Pass ID: FASSAND")
  ∧ pass_id_line_cut_first (js "a" ++ [sharp_s] ++ js "bc") (js "andheri")
      (js "first")
    = js "Pass ID: FASSBAND".
Proof.
  split_and!; [vm_compute; discriminate | vm_compute; reflexivity ..].
Qed.
(** ** The reservation status processor *)

Section RailwayProperties.
Context {number : Type} `{!NumberOps number}.

Lemma ten_digits_spec s : ten_digits s = true ↔ ten_digit_text s.
Proof.
  unfold ten_digits, ten_digit_text.
  rewrite andb_true_iff, Nat.eqb_eq, forallb_forall, Forall_forall.
  split; intros [Hl Hd]; (split; [exact Hl|]); intros c Hc.
  - apply list_elem_of_In, Hd in Hc. unfold is_digit in Hc.
    apply andb_true_iff in Hc as [H1 H2].
    apply N.leb_le in H1, H2. lia.
  - apply list_elem_of_In, Hd in Hc. unfold is_digit.
    apply andb_true_iff. split; apply N.leb_le; lia.
Qed.

(** What the callback makes of a passenger. *)
Lemma process_passenger_fields (p : value number) q :
  process_passenger p = Return q →
  ∃ current name ageText genderText,
    prop p "current" = VStr current ∧ prop p "name" = VStr name
    ∧ to_string (prop p "age") = Return ageText
    ∧ to_string (prop p "gender") = Return genderText
    ∧ formattedName q
      = padEnd name 20 ++ js "(" ++ ageText ++ js "/" ++ genderText
        ++ js ")"
    ∧ bookingStatus q = prop p "booking"
    ∧ currentStatus q = VStr current
    ∧ statusLabel q = status_of current
    ∧ isConfirmed q = str_eqb (status_of current) (js "CONFIRMED").
Proof.
  unfold process_passenger, get.
  destruct p; try discriminate; cbn [mbind outcome_bind];
    match goal with
    | |- context [as_string_receiver (prop ?v "current")] =>
        destruct (prop v "current") eqn:Hc; try discriminate;
        destruct (prop v "name") eqn:Hn; try discriminate;
        cbn [mbind outcome_bind as_string_receiver];
        destruct (to_string (prop v "age")) as [ageText|e1] eqn:Ha;
          [|discriminate];
        destruct (to_string (prop v "gender")) as [genderText|e2] eqn:Hg;
          [|discriminate]
    end;
    cbn [mbind outcome_bind]; intros [= <-];
    eexists _, _, _, _; split_and!; reflexivity.
Qed.

Lemma process_passenger_Return (p : value number) q :
  process_passenger p = Return q →
  ∃ current name,
    prop p "current" = VStr current ∧ prop p "name" = VStr name
    ∧ statusLabel q = status_of current
    ∧ isConfirmed q = str_eqb (status_of current) (js "CONFIRMED")
    ∧ currentStatus q = VStr current
    ∧ bookingStatus q = prop p "booking".
Proof.
  intros Hq. destruct (process_passenger_fields _ _ Hq)
    as (current & name & _ & _ & Hc & Hn & _ & _ & _ & Hb & Hcs & Hl & Hi).
  exists current, name. easy.
Qed.

(** The callback returns exactly for the passengers whose name and current
    are text and whose age and gender have a text. *)
Lemma process_passenger_processable (p : value number) :
  processable p ↔ ∃ q, process_passenger p = Return q.
Proof.
  split.
  - intros ([Hn Hc] & Ha & Hg).
    apply to_string_Return in Ha as [ageText Ha], Hg as [genderText Hg].
    unfold process_passenger, get.
    destruct p; try discriminate Hn; cbn [mbind outcome_bind];
      match goal with
      | |- context [as_string_receiver (prop ?v "current")] =>
          destruct (prop v "current"); try discriminate Hc;
          destruct (prop v "name"); try discriminate Hn
      end;
      cbn [mbind outcome_bind as_string_receiver]; rewrite Ha, Hg;
      eexists; reflexivity.
  - intros [q Hq].
    destruct (process_passenger_fields _ _ Hq)
      as (current & name & ageText & genderText & Hc & Hn & Ha & Hg & _).
    unfold processable, text_fields. rewrite Hc, Hn.
    split_and!; try reflexivity; apply to_string_Return; eauto.
Qed.

Lemma process_passenger_Throw (p : value number) :
  ¬ processable p → process_passenger p = Throw TypeError.
Proof.
  intros Hno. destruct (process_passenger p) as [q|[]] eqn:E; [|reflexivity].
  exfalso. apply Hno, process_passenger_processable. eauto.
Qed.

Lemma well_formed_processable (p : value number) :
  well_formed_passenger p → processable p.
Proof.
  intros (fields & name & current & -> & Hn & Hc & Ha & Hg).
  unfold processable, text_fields, prop. rewrite Hn, Hc. easy.
Qed.

Lemma process_passenger_untyped_current (p : value number) :
  is_string (prop p "current") = false →
  process_passenger p = Throw TypeError.
Proof.
  intros Hc. apply process_passenger_Throw.
  intros [[_ Hx] _]. congruence.
Qed.

Lemma prop_lookup (props : gmap string (value number)) k v :
  v ≠ VUndefined → prop (VObj props) k = v → props !! k = Some v.
Proof.
  unfold prop. destruct (props !! k) as [x|]; simpl.
  - intros _ ->. reflexivity.
  - intros Hv <-. easy.
Qed.

Lemma train_line_text_dec (v : value number) :
  train_line_text v ∨ ¬ train_line_text v.
Proof.
  unfold train_line_text.
  destruct (has_text_dec (prop (prop v "train") "number")) as [H1|H1];
    destruct (has_text_dec (prop (prop v "train") "name")) as [H2|H2];
    destruct (has_text_dec (prop (prop v "train") "from")) as [H3|H3];
    destruct (has_text_dec (prop (prop v "train") "to")) as [H4|H4];
    destruct (has_text_dec (prop v "classBooked")) as [H5|H5];
    unfold has_text in *; tauto.
Qed.

(** What the checks let through, and nothing else; and what follows them:
    the train line is made first, then the passengers are mapped. *)
Lemma processRailwayPNR_checks (v : value number) :
  (∃ ps, passes_checks v ps
         ∧ (¬ train_line_text v → processRailwayPNR v = Throw TypeError)
         ∧ (map_outcome process_passenger ps = Throw TypeError →
            processRailwayPNR v = Throw TypeError)
         ∧ (train_line_text v →
            ∀ processed,
              map_outcome process_passenger ps = Return processed →
              ∃ report, processRailwayPNR v = Return (Some report)
                        ∧ passengers report = processed))
  ∨ ((¬ ∃ ps, passes_checks v ps) ∧ processRailwayPNR v = Return None).
Proof.
  destruct v as [| | | | | |props];
    try (right; split;
         [ intros (ps & props & pnr & train & Hv & _); discriminate Hv
         | unfold processRailwayPNR; simpl; rewrite ?orb_true_r;
           reflexivity ]).
  unfold processRailwayPNR. cbn [truthy typeof_object negb orb].
  destruct (prop (VObj props) "pnr") as [| | | |pnr| |] eqn:Hp;
    try (right; split; [|reflexivity];
         intros (ps & props' & pnr' & train & [= <-] & Hp' & _);
         unfold prop in Hp; rewrite Hp' in Hp; discriminate Hp).
  destruct (ten_digits pnr) eqn:Hd; cbn [negb]; cycle 1.
  { right. split; [|reflexivity].
    intros (ps & props' & pnr' & train & [= <-] & Hp' & Hd' & _).
    unfold prop in Hp. rewrite Hp' in Hp. injection Hp as ->.
    apply ten_digits_spec in Hd'. congruence. }
  destruct (negb (truthy (prop (VObj props) "train"))
            || negb (typeof_object (prop (VObj props) "train"))) eqn:Ht.
  { right. split; [|reflexivity].
    intros (ps & props' & pnr' & train & [= <-] & _ & _ & Ht' & Hrec & _).
    unfold prop in Ht. rewrite Ht' in Ht.
    destruct Hrec as [[t ->] | [l ->]]; discriminate Ht. }
  destruct (prop (VObj props) "passengers") as [| | | | |ps|] eqn:Hps;
    try (right; split; [|reflexivity];
         intros (ps' & props' & pnr' & train & [= <-] & _ & _ & _ & _
                 & Hps' & _);
         unfold prop in Hps; rewrite Hps' in Hps; discriminate Hps).
  destruct ps as [|p ps].
  { right. split; [|reflexivity].
    intros (ps' & props' & pnr' & train & [= <-] & _ & _ & _ & _
            & Hps' & Hne).
    unfold prop in Hps. rewrite Hps' in Hps. injection Hps as ->. easy. }
  left. exists (p :: ps). cbn [length Nat.eqb]. split.
  { exists props, pnr, (prop (VObj props) "train").
    split; [reflexivity|].
    split; [apply prop_lookup; [discriminate | exact Hp]|].
    split; [apply ten_digits_spec, Hd|].
    split.
    { apply prop_lookup; [|reflexivity].
      intros Hu. rewrite Hu in Ht. discriminate Ht. }
    split.
    { destruct (prop (VObj props) "train"); simpl in Ht;
        rewrite ?orb_true_r in Ht; try discriminate Ht; eauto. }
    split; [apply prop_lookup; [discriminate | exact Hps] | discriminate]. }
  unfold train_line_text. rewrite !to_string_Return.
  destruct (to_string (prop (prop (VObj props) "train") "number"))
    as [t1|[]]; cycle 1.
  { split_and!; try reflexivity. intros [[t Ht1] _]. discriminate Ht1. }
  destruct (to_string (prop (prop (VObj props) "train") "name"))
    as [t2|[]]; cycle 1.
  { split_and!; try reflexivity.
    intros (_ & [t Ht2] & _). discriminate Ht2. }
  destruct (to_string (prop (prop (VObj props) "train") "from"))
    as [t3|[]]; cycle 1.
  { split_and!; try reflexivity.
    intros (_ & _ & [t Ht3] & _). discriminate Ht3. }
  destruct (to_string (prop (prop (VObj props) "train") "to"))
    as [t4|[]]; cycle 1.
  { split_and!; try reflexivity.
    intros (_ & _ & _ & [t Ht4] & _). discriminate Ht4. }
  destruct (to_string (prop (VObj props) "classBooked"))
    as [t5|[]]; cycle 1.
  { split_and!; try reflexivity.
    intros (_ & _ & _ & _ & [t Ht5]). discriminate Ht5. }
  cbn [mbind outcome_bind]. split_and!.
  - intros Hx. exfalso. apply Hx. split_and!; eauto.
  - intros ->. reflexivity.
  - intros _ processed ->. eexists. split; reflexivity.
Qed.

Lemma passes_checks_unique (v : value number) ps ps' :
  passes_checks v ps → passes_checks v ps' → ps = ps'.
Proof.
  intros (props & _ & _ & -> & _ & _ & _ & _ & Hps & _)
         (props' & _ & _ & [= <-] & _ & _ & _ & _ & Hps' & _).
  congruence.
Qed.

Lemma structurally_valid_passes (v : value number) ps :
  structurally_valid v ps → passes_checks v ps.
Proof.
  intros (props & pnr & train & -> & Hp & Hd & Ht & Hps & Hne).
  exists props, pnr, (VObj train). split_and!; eauto.
Qed.

Lemma passes_checks_Return (v : value number) ps processed :
  passes_checks v ps → train_line_text v →
  map_outcome process_passenger ps = Return processed →
  ∃ report, processRailwayPNR v = Return (Some report)
            ∧ passengers report = processed.
Proof.
  intros Hv Htext Hm.
  destruct (processRailwayPNR_checks v)
    as [(ps' & Hv' & _ & _ & Hret) | [Hno _]].
  - rewrite (passes_checks_unique _ _ _ Hv Hv') in Hm.
    apply (Hret Htext), Hm.
  - exfalso. eauto.
Qed.

Lemma passes_checks_Throw (v : value number) ps :
  passes_checks v ps →
  map_outcome process_passenger ps = Throw TypeError →
  processRailwayPNR v = Throw TypeError.
Proof.
  intros Hv Hm.
  destruct (processRailwayPNR_checks v)
    as [(ps' & Hv' & _ & Heq & _) | [Hno _]].
  - rewrite (passes_checks_unique _ _ _ Hv Hv') in Hm. apply Heq, Hm.
  - exfalso. eauto.
Qed.

Lemma passes_checks_textless (v : value number) ps :
  passes_checks v ps → ¬ train_line_text v →
  processRailwayPNR v = Throw TypeError.
Proof.
  intros Hv Hno.
  destruct (processRailwayPNR_checks v)
    as [(ps' & _ & Hthrow & _) | [Hnone _]].
  - apply Hthrow, Hno.
  - exfalso. eauto.
Qed.

(** What a report is made of. *)
Lemma processRailwayPNR_Some (v : value number) report :
  processRailwayPNR v = Return (Some report) →
  ∃ pnr ps,
    prop v "pnr" = VStr pnr ∧ ten_digit_text pnr
    ∧ prop v "passengers" = VArr ps ∧ ps ≠ []
    ∧ Forall2 (λ p q, process_passenger p = Return q) ps (passengers report)
    ∧ totalPassengers (summary report) = length (passengers report)
    ∧ confirmed (summary report)
      = length (List.filter (has_label (js "CONFIRMED")) (passengers report))
    ∧ waiting (summary report)
      = length (List.filter (has_label (js "WAITING")) (passengers report))
    ∧ cancelled (summary report)
      = length (List.filter (has_label (js "CANCELLED")) (passengers report))
    ∧ rac (summary report)
      = length (List.filter (has_label (js "RAC")) (passengers report))
    ∧ allConfirmed (summary report)
      = forallb confirmed_or_cancelled (passengers report)
    ∧ anyWaiting (summary report)
      = existsb (has_label (js "WAITING")) (passengers report)
    ∧ chartPrepared report
      = forallb confirmed_or_cancelled (passengers report)
    ∧ pnrFormatted report
      = slice pnr 0 3 ++ js "-" ++ slice pnr 3 6 ++ js "-" ++ slice_from pnr 6
    ∧ train_line_text v.
Proof.
  unfold processRailwayPNR.
  destruct (negb (truthy v) || negb (typeof_object v)); [discriminate|].
  destruct (prop v "pnr") as [| | | |pnr| |]; try discriminate.
  destruct (ten_digits pnr) eqn:Hd; [|discriminate]. cbn [negb].
  destruct (negb (truthy (prop v "train"))
            || negb (typeof_object (prop v "train"))); [discriminate|].
  destruct (prop v "passengers") as [| | | | |ps|]; try discriminate.
  destruct ps as [|p ps]; [discriminate|]. cbn [length Nat.eqb].
  destruct (to_string (prop (prop v "train") "number")) as [t1|e] eqn:E1;
    [|discriminate].
  destruct (to_string (prop (prop v "train") "name")) as [t2|e] eqn:E2;
    [|discriminate].
  destruct (to_string (prop (prop v "train") "from")) as [t3|e] eqn:E3;
    [|discriminate].
  destruct (to_string (prop (prop v "train") "to")) as [t4|e] eqn:E4;
    [|discriminate].
  destruct (to_string (prop v "classBooked")) as [t5|e] eqn:E5;
    [|discriminate].
  cbn [mbind outcome_bind].
  destruct (map_outcome process_passenger (p :: ps)) as [processed|e] eqn:Hm;
    [|discriminate].
  cbn [mbind outcome_bind]. intros [= <-].
  exists pnr, (p :: ps). cbn.
  split_and!; try reflexivity; try easy.
  - apply ten_digits_spec, Hd.
  - apply map_outcome_Return, Hm.
  - unfold train_line_text. rewrite !to_string_Return. split_and!; eauto.
Qed.

Lemma has_label_labelled label (p : ProcessedPassenger number) :
  has_label label p = true ↔ labelled label p.
Proof. apply str_eqb_eq. Qed.

Lemma confirmed_or_cancelled_spec (p : ProcessedPassenger number) :
  confirmed_or_cancelled p = true
  ↔ labelled (js "CONFIRMED") p ∨ labelled (js "CANCELLED") p.
Proof.
  unfold confirmed_or_cancelled.
  rewrite orb_true_iff, !has_label_labelled. reflexivity.
Qed.


Lemma startsWith_head s c pat :
  startsWith s (c :: pat) = true → ∃ rest, s = c :: rest.
Proof.
  intros Hs. apply startsWith_spec in Hs as [post ->]. eauto.
Qed.

(** Equations between labels and between truth values, settled by
    evaluation. *)
Ltac settle_labels :=
  split_and!; split;
  (let Hx := fresh "Hx" in
   intros Hx;
   first [ reflexivity
         | discriminate Hx
         | vm_compute in Hx; discriminate Hx
         | left; reflexivity
         | right; reflexivity
         | split_and!; reflexivity
         | intuition discriminate ]).

(** The four rules exclude one another, so that the order in which the
    source tries them does not matter. *)
Lemma status_of_rules current :
  (status_of current = js "CONFIRMED"
   ↔ startsWith current (js "B") = true ∨ startsWith current (js "S") = true)
  ∧ (status_of current = js "WAITING" ↔ startsWith current (js "WL") = true)
  ∧ (status_of current = js "CANCELLED" ↔ current = js "CAN")
  ∧ (status_of current = js "RAC" ↔ startsWith current (js "RAC") = true)
  ∧ (status_of current = [] ↔ matches_no_rule current).
Proof.
  unfold matches_no_rule. rewrite <- (str_eqb_neq current (js "CAN")).
  rewrite <- (str_eqb_eq current (js "CAN")). unfold status_of.
  change (js "B") with [66%N]. change (js "S") with [83%N].
  change (js "WL") with [87%N; 76%N]. change (js "CAN") with [67%N; 65%N; 78%N].
  change (js "RAC") with [82%N; 65%N; 67%N].
  destruct current as [|x rest]; cbn [startsWith str_eqb andb orb];
    unfold unit_eqb.
  all: repeat (first
            [ match goal with
              | |- context [match ?l with [] => _ | _ :: _ => _ end] =>
                  is_var l; destruct l
              | |- context [str_eqb ?l _] => is_var l; destruct l
              end
            | match goal with
              | |- context [(?a =? ?b)%N] =>
                  first [ is_var b; destruct (N.eqb_spec a b) as [<-|?]
                        | is_var a; destruct (N.eqb_spec a b) as [->|?]
                        | let r := eval vm_compute in (a =? b)%N in
                          change (a =? b)%N with r ]
              end ];
          cbn [startsWith str_eqb andb orb]; unfold unit_eqb).
  all: settle_labels.
Qed.

Lemma Forall2_Forall_iff {A B} (R : A → B → Prop) (P : A → Prop)
    (Q : B → Prop) l k :
  Forall2 R l k → (∀ a b, R a b → (P a ↔ Q b)) →
  (Forall P l ↔ Forall Q k).
Proof.
  intros HR HPQ. induction HR as [|a b l k Hab _ IH]; [easy|].
  rewrite !Forall_cons, IH, (HPQ a b Hab). reflexivity.
Qed.

Lemma Forall2_Exists_iff {A B} (R : A → B → Prop) (P : A → Prop)
    (Q : B → Prop) l k :
  Forall2 R l k → (∀ a b, R a b → (P a ↔ Q b)) →
  (Exists P l ↔ Exists Q k).
Proof.
  intros HR HPQ. induction HR as [|a b l k Hab _ IH].
  - split; intros Hx; inversion Hx.
  - rewrite !Exists_cons, IH, (HPQ a b Hab). reflexivity.
Qed.

(** The label of a processed passenger, from the current value of the
    passenger it comes from. *)
Lemma processed_labels (v : value number) report :
  processRailwayPNR v = Return (Some report) →
  ∃ ps, prop v "passengers" = VArr ps
        ∧ Forall2 (λ p q, ∃ current, prop p "current" = VStr current
                                     ∧ statusLabel q = status_of current)
            ps (passengers report).
Proof.
  intros Hr.
  destruct (processRailwayPNR_Some _ _ Hr)
    as (pnr & ps & _ & _ & Hps & _ & Hall & _).
  exists ps. split; [exact Hps|].
  eapply Forall2_impl; [exact Hall|]. intros p q Hpq.
  destruct (process_passenger_Return _ _ Hpq)
    as (current & name & Hc & _ & Hl & _).
  eauto.
Qed.

(** C3: in every report, allConfirmed and chartPrepared are the same
    value, true exactly when every processed passenger is labelled
    CONFIRMED or CANCELLED, and anyWaiting is true exactly when some
    processed passenger is labelled WAITING. The processed passengers are
    those of the input, one for one, each labelled from its current value:
    so the two flags are true exactly when the current value of every
    passenger of the input starts with "B" or "S" or is "CAN", and
    anyWaiting exactly when that of some passenger starts with "WL". *)
Theorem allConfirmed_is_chartPrepared (v : value number) report :
  processRailwayPNR v = Return (Some report) →
  allConfirmed (summary report) = chartPrepared report
  ∧ (allConfirmed (summary report) = true ↔
     Forall (λ q, labelled (js "CONFIRMED") q ∨ labelled (js "CANCELLED") q)
       (passengers report))
  ∧ (chartPrepared report = true ↔
     Forall (λ q, labelled (js "CONFIRMED") q ∨ labelled (js "CANCELLED") q)
       (passengers report))
  ∧ (anyWaiting (summary report) = true ↔
     Exists (labelled (js "WAITING")) (passengers report))
  ∧ ∃ ps,
      prop v "passengers" = VArr ps
      ∧ Forall2 (λ p q, ∃ current, prop p "current" = VStr current
                                   ∧ statusLabel q = status_of current)
          ps (passengers report)
      ∧ (allConfirmed (summary report) = true ↔
         Forall (λ p, ∃ current, prop p "current" = VStr current
                                 ∧ settled_status current) ps)
      ∧ (chartPrepared report = true ↔
         Forall (λ p, ∃ current, prop p "current" = VStr current
                                 ∧ settled_status current) ps)
      ∧ (anyWaiting (summary report) = true ↔
         Exists (λ p, ∃ current, prop p "current" = VStr current
                                 ∧ waiting_status current) ps).
Proof.
  intros Hr.
  destruct (processRailwayPNR_Some _ _ Hr)
    as (pnr & ps' & _ & _ & _ & _ & _ & _ & _ & _ & _ & _ & Ha & Hw & Hc
        & _).
  destruct (processed_labels _ _ Hr) as (ps & Hps & Hlabels).
  rewrite Ha, Hw, Hc.
  assert (forallb confirmed_or_cancelled (passengers report) = true ↔
          Forall (λ q, labelled (js "CONFIRMED") q
                       ∨ labelled (js "CANCELLED") q) (passengers report))
    as Hall.
  { rewrite forallb_forall, Forall_forall. split; intros Hx p Hp.
    - apply confirmed_or_cancelled_spec, Hx, list_elem_of_In, Hp.
    - apply confirmed_or_cancelled_spec, Hx, list_elem_of_In, Hp. }
  assert (existsb (has_label (js "WAITING")) (passengers report) = true ↔
          Exists (labelled (js "WAITING")) (passengers report)) as Hany.
  { rewrite existsb_exists, Exists_exists. split.
    - intros (p & Hp & Hl). exists p. split.
      + apply list_elem_of_In, Hp.
      + apply has_label_labelled, Hl.
    - intros (p & Hp & Hl). exists p. split.
      + apply list_elem_of_In, Hp.
      + apply has_label_labelled, Hl. }
  assert (Forall (λ p, ∃ current, prop p "current" = VStr current
                                  ∧ settled_status current) ps
          ↔ Forall (λ q, labelled (js "CONFIRMED") q
                         ∨ labelled (js "CANCELLED") q) (passengers report))
    as Hsettled.
  { apply (Forall2_Forall_iff _ _ _ _ _ Hlabels).
    intros p q (current & Hcur & Hl). unfold labelled, settled_status.
    destruct (status_of_rules current) as (H1 & _ & H3 & _).
    rewrite Hl, H1, H3, !startsWith_spec. split.
    - intros (current' & Hcur' & Hx). rewrite Hcur in Hcur'.
      injection Hcur' as <-. tauto.
    - intros Hx. exists current. split; [exact Hcur | tauto]. }
  assert (Exists (λ p, ∃ current, prop p "current" = VStr current
                                  ∧ waiting_status current) ps
          ↔ Exists (labelled (js "WAITING")) (passengers report))
    as Hwaiting.
  { apply (Forall2_Exists_iff _ _ _ _ _ Hlabels).
    intros p q (current & Hcur & Hl). unfold labelled, waiting_status.
    destruct (status_of_rules current) as (_ & H2 & _).
    rewrite Hl, H2, startsWith_spec. split.
    - intros (current' & Hcur' & Hx). rewrite Hcur in Hcur'.
      injection Hcur' as <-. exact Hx.
    - intros Hx. exists current. easy. }
  split_and!; [reflexivity | exact Hall | exact Hall | exact Hany|].
  exists ps. split_and!; [exact Hps | exact Hlabels | | |].
  - rewrite Hall, Hsettled. reflexivity.
  - rewrite Hall, Hsettled. reflexivity.
  - rewrite Hany, Hwaiting. reflexivity.
Qed.

Lemma filter_delete {A} (P : A → bool) l i x :
  l !! i = Some x → P x = false →
  List.filter P (delete i l) = List.filter P l.
Proof.
  revert i. induction l as [|y l IH]; intros [|i]; simpl; try easy.
  - intros [= ->] ->. reflexivity.
  - intros Hl Hx. rewrite (IH i Hl Hx). reflexivity.
Qed.

Lemma forallb_lookup_false {A} (P : A → bool) l i x :
  l !! i = Some x → P x = false → forallb P l = false.
Proof.
  revert i. induction l as [|y l IH]; intros [|i]; simpl; try easy.
  - intros [= ->] ->. reflexivity.
  - intros Hl Hx. rewrite (IH i Hl Hx). apply andb_false_r.
Qed.

(** A passenger is counted in one bucket at most. *)
Lemma buckets_le_total (l : list (ProcessedPassenger number)) :
  (length (List.filter (has_label (js "CONFIRMED")) l)
   + length (List.filter (has_label (js "WAITING")) l)
   + length (List.filter (has_label (js "CANCELLED")) l)
   + length (List.filter (has_label (js "RAC")) l)
   ≤ length l)%nat.
Proof.
  unfold has_label. induction l as [|p l IH]; simpl; [lia|].
  destruct (str_eqb (statusLabel p) (js "CONFIRMED")) eqn:E1;
    destruct (str_eqb (statusLabel p) (js "WAITING")) eqn:E2;
    destruct (str_eqb (statusLabel p) (js "CANCELLED")) eqn:E3;
    destruct (str_eqb (statusLabel p) (js "RAC")) eqn:E4;
    simpl; try lia; exfalso;
    match goal with
    | Hx : str_eqb _ _ = true |- _ => apply str_eqb_eq in Hx; rewrite Hx in *
    end;
    match goal with
    | Hx : str_eqb (js _) (js _) = true |- _ =>
        vm_compute in Hx; discriminate Hx
    end.
Qed.

Lemma status_of_no_rule current :
  matches_no_rule current → status_of current = [].
Proof.
  intros (HB & HS & HW & HR & HC). unfold status_of.
  apply str_eqb_neq in HC. rewrite HB, HS, HW, HR, HC. reflexivity.
Qed.

(** C4: when a passenger of a valid input has a current value that matches
    none of the rules, the processed passenger has the empty label and is
    not confirmed, the four buckets count the other passengers only, and
    allConfirmed and chartPrepared are false. *)
Theorem unmatched_status_has_no_label
    (v : value number) report ps i p current :
  processRailwayPNR v = Return (Some report) →
  prop v "passengers" = VArr ps →
  ps !! i = Some p →
  prop p "current" = VStr current →
  matches_no_rule current →
  ∃ q, passengers report !! i = Some q
       ∧ statusLabel q = []
       ∧ isConfirmed q = false
       ∧ confirmed (summary report)
         = length (List.filter (has_label (js "CONFIRMED"))
                     (delete i (passengers report)))
       ∧ waiting (summary report)
         = length (List.filter (has_label (js "WAITING"))
                     (delete i (passengers report)))
       ∧ cancelled (summary report)
         = length (List.filter (has_label (js "CANCELLED"))
                     (delete i (passengers report)))
       ∧ rac (summary report)
         = length (List.filter (has_label (js "RAC"))
                     (delete i (passengers report)))
       ∧ (confirmed (summary report) + waiting (summary report)
          + cancelled (summary report) + rac (summary report)
          < totalPassengers (summary report))%nat
       ∧ allConfirmed (summary report) = false
       ∧ chartPrepared report = false.
Proof.
  intros Hr Hps Hi Hcur Hno.
  destruct (processRailwayPNR_Some _ _ Hr)
    as (pnr & ps' & _ & _ & Hps' & _ & Hall & Ht & H1 & H2 & H3 & H4
        & Ha & _ & Hc & _).
  rewrite Hps in Hps'. injection Hps' as <-.
  destruct (Forall2_lookup_l _ _ _ _ _ Hall Hi) as (q & Hq & Hpq).
  destruct (process_passenger_Return _ _ Hpq)
    as (current' & name & Hcur' & _ & Hlabel & Hconf & _).
  rewrite Hcur in Hcur'. injection Hcur' as <-.
  rewrite (status_of_no_rule _ Hno) in Hlabel, Hconf.
  assert (∀ label, label ≠ [] → has_label label q = false) as Hnone.
  { intros label Hl. unfold has_label. rewrite Hlabel.
    apply str_eqb_neq. congruence. }
  exists q. rewrite Ht, H1, H2, H3, H4, Ha, Hc.
  rewrite !(filter_delete _ _ _ _ Hq) by (apply Hnone; discriminate).
  split_and!; try reflexivity; try assumption.
  - rewrite <- !(filter_delete _ _ i q Hq) by (apply Hnone; discriminate).
    pose proof (buckets_le_total (delete i (passengers report))) as Hle.
    pose proof (lookup_lt_Some _ _ _ Hq) as Hlt.
    rewrite length_delete in Hle by eauto. lia.
  - apply (forallb_lookup_false _ _ _ _ Hq). unfold confirmed_or_cancelled.
    rewrite !Hnone by discriminate. reflexivity.
  - apply (forallb_lookup_false _ _ _ _ Hq). unfold confirmed_or_cancelled.
    rewrite !Hnone by discriminate. reflexivity.
Qed.

(** C5, as amended: the processor returns null when the input is not a
    record, when pnr is not text of exactly 10 digits, when train is
    absent, or when passengers is not a non-empty array. On a structurally
    valid input whose passengers are well formed it returns a report when
    the five values of the train line (the number, name, from and to of
    the train, and classBooked) have a text, and throws a type error when
    one of them has none. *)
Theorem processRailwayPNR_null_or_report (v : value number) :
  ((∀ props, v ≠ VObj props) → processRailwayPNR v = Return None)
  ∧ ((∀ pnr, prop v "pnr" = VStr pnr → ¬ ten_digit_text pnr) →
     processRailwayPNR v = Return None)
  ∧ (prop v "train" = VUndefined ∨ prop v "train" = VNull →
     processRailwayPNR v = Return None)
  ∧ ((∀ ps, prop v "passengers" = VArr ps → ps = []) →
     processRailwayPNR v = Return None)
  ∧ (∀ ps, structurally_valid v ps → Forall well_formed_passenger ps →
           train_line_text v →
           ∃ report, processRailwayPNR v = Return (Some report))
  ∧ (∀ ps, structurally_valid v ps → ¬ train_line_text v →
           processRailwayPNR v = Throw TypeError).
Proof.
  split_and!.
  - intros Hv. destruct v as [| | | | | |props];
      try (unfold processRailwayPNR; simpl; rewrite ?orb_true_r; reflexivity).
    destruct (Hv props eq_refl).
  - intros Hp. unfold processRailwayPNR.
    destruct (negb (truthy v) || negb (typeof_object v)); [reflexivity|].
    destruct (prop v "pnr") as [| | | |pnr| |]; try reflexivity.
    destruct (ten_digits pnr) eqn:Hd; [|reflexivity].
    apply ten_digits_spec in Hd. destruct (Hp pnr eq_refl Hd).
  - intros Ht. unfold processRailwayPNR.
    destruct (negb (truthy v) || negb (typeof_object v)); [reflexivity|].
    destruct (prop v "pnr") as [| | | |pnr| |]; try reflexivity.
    destruct (negb (ten_digits pnr)); [reflexivity|].
    destruct Ht as [-> | ->]; reflexivity.
  - intros Hps. unfold processRailwayPNR.
    destruct (negb (truthy v) || negb (typeof_object v)); [reflexivity|].
    destruct (prop v "pnr") as [| | | |pnr| |]; try reflexivity.
    destruct (negb (ten_digits pnr)); [reflexivity|].
    destruct (negb (truthy (prop v "train"))
              || negb (typeof_object (prop v "train"))); [reflexivity|].
    destruct (prop v "passengers") as [| | | | |ps|]; try reflexivity.
    rewrite (Hps ps eq_refl). reflexivity.
  - intros ps Hv Hwf Htext.
    destruct (map_outcome_all_Return process_passenger ps) as [processed Hm].
    { eapply Forall_impl; [exact Hwf|]. intros p Hp.
      apply process_passenger_processable, well_formed_processable, Hp. }
    destruct (passes_checks_Return v ps processed
                (structurally_valid_passes _ _ Hv) Htext Hm)
      as (report & Hr & _).
    exists report. exact Hr.
  - intros ps Hv Hno.
    apply (passes_checks_textless v ps (structurally_valid_passes _ _ Hv)),
      Hno.
Qed.

(** C8: the passengers themselves are not checked: on a structurally valid
    input with a passenger whose current is not text, the call throws a
    type error. *)
Theorem processRailwayPNR_throws_on_untyped_current (v : value number) ps p :
  structurally_valid v ps →
  p ∈ ps →
  is_string (prop p "current") = false →
  processRailwayPNR v = Throw TypeError.
Proof.
  intros Hv Hin Hcur.
  apply (passes_checks_Throw v ps (structurally_valid_passes _ _ Hv)).
  apply (map_outcome_Throw _ _ p Hin).
  apply process_passenger_untyped_current, Hcur.
Qed.

End RailwayProperties.

(** ** The theorems at concrete inputs *)

(** A concrete value has a text, or has none, by evaluation. *)
Ltac by_text := apply to_string_Return; eexists; vm_compute; reflexivity.
Ltac by_no_text := apply to_string_Throw; vm_compute; reflexivity.

Lemma reservation_valid ps :
  ps ≠ [] → structurally_valid (VObj (reservation ps)) ps.
Proof.
  intros Hne. eexists _, (js "1234567890"), _.
  split_and!; [reflexivity | reflexivity | | reflexivity | reflexivity
              | exact Hne].
  apply ten_digits_spec. reflexivity.
Qed.

Lemma reservation_train_line ps : train_line_text (VObj (reservation ps)).
Proof. unfold train_line_text. split_and!; by_text. Qed.

Lemma passenger_well_formed name age gender booking current :
  well_formed_passenger (passenger name age gender booking current).
Proof.
  eexists _, _, _. split; [reflexivity|].
  split; [reflexivity|]. split; [reflexivity|].
  split; apply primitive_has_text; discriminate.
Qed.

Lemma allConfirmed_is_chartPrepared_witness :
  (∃ report,
     processRailwayPNR (VObj (reservation settled_passengers))
     = Return (Some report)
     ∧ allConfirmed (summary report) = true
     ∧ chartPrepared report = true
     ∧ anyWaiting (summary report) = false)
  ∧ ∃ report,
      processRailwayPNR (VObj (reservation waiting_passengers))
      = Return (Some report)
      ∧ allConfirmed (summary report) = false
      ∧ chartPrepared report = false
      ∧ anyWaiting (summary report) = true.
Proof.
  split.
  - eexists. split; [vm_compute; reflexivity|].
    match goal with
    | |- allConfirmed (summary ?r) = true ∧ _ =>
        assert (processRailwayPNR (VObj (reservation settled_passengers))
                = Return (Some r)) as Hr by (vm_compute; reflexivity);
        destruct (allConfirmed_is_chartPrepared _ _ Hr)
          as (Hsame & _ & _ & _ & ps & Hps & _ & Hall & Hchart & _)
    end.
    assert (ps = settled_passengers) as ->
      by (vm_compute in Hps; injection Hps as <-; reflexivity).
    assert (Forall (λ p : value safe_integer,
                      ∃ current, prop p "current" = VStr current
                                 ∧ settled_status current)
              settled_passengers) as Hsettled.
    { apply Forall_cons_2.
      { exists (js "B1"). split; [reflexivity|]. left. exists (js "1").
        reflexivity. }
      apply Forall_cons_2; [|apply Forall_nil_2].
      exists (js "CAN"). split; [reflexivity|]. right. right. reflexivity. }
    split; [apply Hall, Hsettled|]. split; [apply Hchart, Hsettled|].
    reflexivity.
  - eexists. split; [vm_compute; reflexivity|].
    match goal with
    | |- allConfirmed (summary ?r) = false ∧ _ =>
        assert (processRailwayPNR (VObj (reservation waiting_passengers))
                = Return (Some r)) as Hr by (vm_compute; reflexivity);
        destruct (allConfirmed_is_chartPrepared _ _ Hr)
          as (_ & _ & _ & _ & ps & Hps & _ & _ & _ & Hany)
    end.
    assert (ps = waiting_passengers) as ->
      by (vm_compute in Hps; injection Hps as <-; reflexivity).
    split; [reflexivity|]. split; [reflexivity|].
    apply Hany. apply Exists_cons_tl, Exists_cons_hd.
    exists (js "WL8"). split; [reflexivity|]. exists (js "8"). reflexivity.
Defined.

Lemma unmatched_status_has_no_label_witness :
  ∃ report q,
    processRailwayPNR (VObj (reservation odd_passengers))
    = Return (Some report)
    ∧ passengers report !! 1%nat = Some q
    ∧ statusLabel q = []
    ∧ isConfirmed q = false
    ∧ confirmed (summary report) = 1%nat
    ∧ totalPassengers (summary report) = 2%nat
    ∧ allConfirmed (summary report) = false
    ∧ chartPrepared report = false.
Proof.
  eexists.
  match goal with
  | |- ∃ q, _ = Return (Some ?r) ∧ _ =>
      assert (processRailwayPNR (VObj (reservation odd_passengers))
              = Return (Some r)) as Hr by (vm_compute; reflexivity)
  end.
  destruct (unmatched_status_has_no_label
              (VObj (reservation odd_passengers)) _ odd_passengers 1%nat
              (passenger "Amit Singh" 60 "M" "WL12" "PQWL3") (js "PQWL3") Hr)
    as (q & Hq & Hlabel & Hconf & _ & _ & _ & _ & _ & Hall & Hchart).
  - reflexivity.
  - reflexivity.
  - reflexivity.
  - unfold matches_no_rule. split_and!; try reflexivity. discriminate.
  - exists q. split; [exact Hr|].
    split_and!; [exact Hq | exact Hlabel | exact Hconf | reflexivity
                | reflexivity | exact Hall | exact Hchart].
Defined.

Lemma textless_train_reservation_valid :
  structurally_valid textless_train_reservation settled_passengers.
Proof.
  eexists _, (js "1234567890"), _.
  split_and!; [reflexivity | reflexivity | | reflexivity | reflexivity
              | discriminate].
  apply ten_digits_spec. reflexivity.
Qed.

Lemma processRailwayPNR_null_or_report_witness :
  processRailwayPNR (VNull : value safe_integer) = Return None
  ∧ processRailwayPNR
      (VObj (<["pnr" := VStr (js "12345")]> (reservation settled_passengers)))
    = Return None
  ∧ processRailwayPNR (VObj (delete "train" (reservation settled_passengers)))
    = Return None
  ∧ processRailwayPNR (VObj (reservation [])) = Return None
  ∧ (∃ report,
       processRailwayPNR (VObj (reservation settled_passengers))
       = Return (Some report))
  ∧ processRailwayPNR textless_train_reservation = Throw TypeError.
Proof.
  split_and!.
  - destruct (processRailwayPNR_null_or_report (VNull : value safe_integer))
      as (Hrecord & _).
    apply Hrecord. discriminate.
  - destruct (processRailwayPNR_null_or_report
                (VObj (<["pnr" := VStr (js "12345")]>
                         (reservation settled_passengers))))
      as (_ & Hpnr & _).
    apply Hpnr. intros pnr Hp [Hlen _]. vm_compute in Hp.
    injection Hp as <-. discriminate Hlen.
  - destruct (processRailwayPNR_null_or_report
                (VObj (delete "train" (reservation settled_passengers))))
      as (_ & _ & Htrain & _).
    apply Htrain. left. reflexivity.
  - destruct (processRailwayPNR_null_or_report (VObj (reservation [])))
      as (_ & _ & _ & Hpassengers & _).
    apply Hpassengers. intros ps Hp. vm_compute in Hp.
    injection Hp as <-. reflexivity.
  - destruct (processRailwayPNR_null_or_report
                (VObj (reservation settled_passengers)))
      as (_ & _ & _ & _ & Hreport & _).
    apply (Hreport settled_passengers).
    + apply reservation_valid. discriminate.
    + repeat (apply Forall_cons_2; [apply passenger_well_formed|]).
      apply Forall_nil_2.
    + apply reservation_train_line.
  - destruct (processRailwayPNR_null_or_report textless_train_reservation)
      as (_ & _ & _ & _ & _ & Hthrow).
    apply (Hthrow settled_passengers).
    + apply textless_train_reservation_valid.
    + intros [Hnumber _]. apply Hnumber. by_no_text.
Defined.

(** C5, as stated, fails on a reservation that meets every condition and
    whose passengers are well formed, when the number of the train is a
    record with a toString property of its own: making the train line
    throws. *)
Lemma processRailwayPNR_textless_train_counterexample :
  structurally_valid textless_train_reservation settled_passengers
  ∧ Forall well_formed_passenger settled_passengers
  ∧ processRailwayPNR textless_train_reservation = Throw TypeError.
Proof.
  split; [apply textless_train_reservation_valid|]. split.
  - repeat (apply Forall_cons_2; [apply passenger_well_formed|]).
    apply Forall_nil_2.
  - vm_compute. reflexivity.
Qed.

Lemma processRailwayPNR_throws_on_untyped_current_witness :
  processRailwayPNR (VObj (reservation untyped_passengers)) = Throw TypeError.
Proof.
  apply (processRailwayPNR_throws_on_untyped_current
           (VObj (reservation untyped_passengers)) untyped_passengers
           (object_of [ ("name", VStr (js "Amit Singh"));
                        ("age", VNum (num 60)) ])).
  - apply reservation_valid. discriminate.
  - apply list_elem_of_further, list_elem_of_here.
  - reflexivity.
Defined.

Lemma validateForm_throws_exactly_witness :
  validateForm textless_age_form = Throw TypeError
  ∧ (∃ r, validateForm
            (VObj (list_to_map [ ("name", VNum (num 7));
                                 ("agreeTerms", VBool true) ])
             : value safe_integer) = Return r
          ∧ is_Some (errors r !! "name"))
  ∧ ∃ r, validateForm (VNum (num 5) : value safe_integer) = Return r
         ∧ isValid r = false
         ∧ is_Some (errors r !! "agreeTerms").
Proof.
  split_and!.
  - destruct (validateForm_throws_exactly textless_age_form)
      as ([_ Hthrow] & _).
    apply Hthrow. right. right. by_no_text.
  - destruct (validateForm_throws_exactly
                (VObj (list_to_map [ ("name", VNum (num 7));
                                     ("agreeTerms", VBool true) ])
                 : value safe_integer))
      as (_ & Hreturn & _).
    destruct Hreturn as (r & Hr & _ & _ & Htyped);
      [discriminate | discriminate | by_text|].
    exists r. split; [exact Hr|].
    apply Htyped; [by_compute | reflexivity].
  - destruct (validateForm_throws_exactly
                (VNum (num 5) : value safe_integer))
      as (_ & _ & Hplain & _).
    destruct Hplain as (r & Hr & Hv & Hall);
      [discriminate | discriminate | discriminate|].
    exists r. split_and!; [exact Hr | exact Hv|].
    apply Hall. by_compute.
Defined.

(** The reservation of the documentation. *)
Example processRailwayPNR_single_confirmed :
  ∃ report,
    processRailwayPNR
      (VObj (reservation [ passenger "Rahul" 28 "M" "B1" "B1" ]))
    = Return (Some report)
    ∧ pnrFormatted report = js "123-456-7890"
    ∧ trainInfo report
      = js "Train: 12301 - Rajdhani Express | NDLS " ++ arrow
        ++ js " HWH | Class: 3A"
    ∧ allConfirmed (summary report) = true
    ∧ chartPrepared report = true.
Proof. eexists. split_and!; vm_compute; reflexivity. Qed.

(** * Further properties *)

(** ** The message line parser *)

Lemma find_first_not_before pat pre post :
  pat ≠ [] → find_first pat (pre ++ pat ++ post) = Some (length pre) →
  ¬ occurs_in pat pre.
Proof.
  intros Hpat F (a & b & ->).
  assert ((a ++ pat ++ b) ++ pat ++ post = a ++ pat ++ (b ++ pat ++ post))
    as Hs by (rewrite <- !app_assoc; reflexivity).
  pose proof (find_first_least _ _ _ _ _ F Hs) as Hle.
  rewrite !length_app in Hle. destruct pat; [easy|]. simpl in Hle. lia.
Qed.

(** Every part of a parsed line. *)
Lemma parseWhatsAppMessage_parts {number} {host : CaseOps}
    (message : value number) r :
  parseWhatsAppMessage message = Some r →
  ∃ segment body,
    message = VStr (segment ++ js " - " ++ sender r ++ js ": " ++ body)
    ∧ find_first (js " - ")
        (segment ++ js " - " ++ sender r ++ js ": " ++ body)
      = Some (length segment)
    ∧ find_first (js ": ") (sender r ++ js ": " ++ body)
      = Some (length (sender r))
    ∧ text r = trim body
    ∧ date r = split segment (js ", ") !! 0%nat
    ∧ time r = split segment (js ", ") !! 1%nat.
Proof.
  destruct message as [| | | |line| |]; try discriminate.
  unfold parseWhatsAppMessage, indexOf. cbv zeta.
  destruct (find_first (js " - ") line) as [i|] eqn:F; [|discriminate].
  rewrite index_result_found.
  destruct (find_first_Some _ _ _ F) as (pre & post & Hline & Hi).
  subst i. cbn [index_result].
  assert (substring line 0 (Z.of_nat (length pre)) = pre) as ->
    by (rewrite Hline; apply substring_prefix).
  assert (substring_from line (Z.of_nat (length pre) + 3) = post) as ->.
  { rewrite Hline, app_assoc. apply substring_from_suffix.
    rewrite length_app. change (length (js " - ")) with 3%nat. lia. }
  destruct (find_first (js ": ") post) as [j|] eqn:G; [|discriminate].
  rewrite index_result_found. cbn [index_result].
  destruct (find_first_Some _ _ _ G) as (snd & body & Hpost & Hj).
  subst j.
  assert (substring post 0 (Z.of_nat (length snd)) = snd) as ->
    by (rewrite Hpost; apply substring_prefix).
  assert (substring_from post (Z.of_nat (length snd) + 2) = body) as ->.
  { rewrite Hpost, app_assoc. apply substring_from_suffix.
    rewrite length_app. change (length (js ": ")) with 2%nat. lia. }
  intros [= <-]. cbn [date time text sender].
  exists pre, body. subst post line. easy.
Qed.

(** X1: a result is returned exactly for the strings in which " - "
    occurs and ": " occurs after the first " - "; every other value, and
    every other string, gives null. *)
Theorem parseWhatsAppMessage_returns_iff {number} {host : CaseOps}
    (message : value number) :
  (∃ r, parseWhatsAppMessage message = Some r)
  ↔ ∃ segment rest,
      message = VStr (segment ++ js " - " ++ rest)
      ∧ first_occurrence (js " - ") segment (segment ++ js " - " ++ rest)
      ∧ occurs_in (js ": ") rest.
Proof.
  split.
  - intros [r Hr].
    destruct (parseWhatsAppMessage_parts _ _ Hr)
      as (segment & body & -> & F & G & _).
    exists segment, (sender r ++ js ": " ++ body). split_and!.
    + reflexivity.
    + apply find_first_is_first_occurrence; [exact F|].
      apply take_app_length.
    + exists (sender r), body. reflexivity.
  - intros (segment & rest & -> & Hfirst & Hrest).
    destruct (parseWhatsAppMessage_first_occurrence (number := number)
                segment rest Hfirst Hrest) as (r & Hr & _).
    exists r. exact Hr.
Qed.

(** X2: a parsed line is its date-time segment, " - ", the sender, ": "
    and a body, in this order, and it is cut at the first occurrence of
    each separator: the " - " after the segment is the first " - " of the
    line, and the ": " after the sender is the first ": " of what follows
    that " - ". So the segment holds no " - " and the sender holds no
    ": ". The text of the result is the trimmed body. *)
Theorem parseWhatsAppMessage_decomposition {number} {host : CaseOps}
    (message : value number) r :
  parseWhatsAppMessage message = Some r →
  ∃ segment body,
    message = VStr (segment ++ js " - " ++ sender r ++ js ": " ++ body)
    ∧ text r = trim body
    ∧ first_occurrence (js " - ") segment
        (segment ++ js " - " ++ sender r ++ js ": " ++ body)
    ∧ first_occurrence (js ": ") (sender r) (sender r ++ js ": " ++ body)
    ∧ ¬ occurs_in (js " - ") segment
    ∧ ¬ occurs_in (js ": ") (sender r).
Proof.
  intros Hr.
  destruct (parseWhatsAppMessage_parts _ _ Hr)
    as (segment & body & Hm & F & G & Ht & _).
  exists segment, body. split_and!; [exact Hm | exact Ht | | | |].
  - apply find_first_is_first_occurrence; [exact F | apply take_app_length].
  - apply find_first_is_first_occurrence; [exact G | apply take_app_length].
  - eapply find_first_not_before; [|exact F]. discriminate.
  - eapply find_first_not_before; [|exact G]. discriminate.
Qed.

Lemma parseWhatsAppMessage_decomposition_witness :
  ∃ r segment body,
    parseWhatsAppMessage overlapping_line = Some r
    ∧ overlapping_line
      = VStr (segment ++ js " - " ++ sender r ++ js ": " ++ body)
    ∧ sender r = js "- b"
    ∧ text r = trim body
    ∧ (length segment ≤ 1)%nat.
Proof.
  eexists.
  match goal with
  | |- ∃ segment body, _ = Some ?r ∧ _ =>
      assert (parseWhatsAppMessage overlapping_line = Some r) as Hr
        by (vm_compute; reflexivity)
  end.
  destruct (parseWhatsAppMessage_decomposition overlapping_line _ Hr)
    as (segment & body & Hm & Ht & [_ Hfirst] & _).
  exists segment, body. split; [exact Hr|]. split; [exact Hm|].
  split; [reflexivity|]. split; [exact Ht|].
  apply (Hfirst (js "a") (js "- b: c")).
  unfold overlapping_line in Hm.
  match goal with
  | |- ?line = _ =>
      transitivity (js "a - - b: c"); [congruence | reflexivity]
  end.
Defined.

(** Units that are passed over count for nothing. *)
Lemma split_scan_skip sep k cur s :
  split_scan sep k cur s = split_scan sep 0 cur (drop k s).
Proof.
  revert k. induction s as [|c s IH]; intros [|k]; try reflexivity.
  simpl. apply IH.
Qed.

(** A split starts with what stands before the first separator and goes
    on after it. *)
Lemma split_scan_first sep cur s i :
  sep ≠ [] → find_first sep s = Some i →
  split_scan sep 0 cur s
  = (cur ++ take i s) :: split_scan sep 0 [] (drop (i + length sep) s).
Proof.
  intros Hsep. revert cur i. induction s as [|c s IH]; intros cur i; simpl.
  - destruct (startsWith [] sep) eqn:E; [|discriminate].
    apply startsWith_spec in E as [post E].
    destruct sep; [easy | discriminate E].
  - destruct (startsWith (c :: s) sep) eqn:E.
    + intros [= <-]. rewrite app_nil_r, split_scan_skip.
      destruct sep as [|d sep]; [easy|]. simpl. rewrite Nat.sub_0_r.
      reflexivity.
    + destruct (find_first sep s) as [j|] eqn:F; [|discriminate].
      simpl. intros [= <-]. rewrite (IH _ j eq_refl). simpl.
      rewrite <- app_assoc. reflexivity.
Qed.

Lemma split_first s sep i :
  sep ≠ [] → find_first sep s = Some i →
  split s sep = take i s :: split (drop (i + length sep) s) sep.
Proof.
  intros Hsep F. destruct sep as [|d sep]; [easy|].
  unfold split. rewrite (split_scan_first _ _ _ i) by easy. reflexivity.
Qed.

Lemma split_first_occurrence sep d t :
  sep ≠ [] → first_occurrence sep d (d ++ sep ++ t) →
  split (d ++ sep ++ t) sep = d :: split t sep.
Proof.
  intros Hsep Hfirst.
  rewrite (split_first _ _ (length d) Hsep)
    by (apply find_first_first_occurrence, Hfirst).
  rewrite take_app_length. f_equal. f_equal.
  rewrite app_assoc, <- length_app. apply drop_app_length.
Qed.

(** X3: when the date-time segment is [d], then ", ", then [t], this being
    the first ", " of the segment, the date of the result is [d]; the time
    is [t] when [t] holds no further ", ", and otherwise what stands before
    the first ", " of [t]: what follows a second ", " is dropped. *)
Theorem parseWhatsAppMessage_date_time {number} {host : CaseOps}
    (d t rest : jsstring) :
  first_occurrence (js " - ") (d ++ js ", " ++ t)
    ((d ++ js ", " ++ t) ++ js " - " ++ rest) →
  occurs_in (js ": ") rest →
  first_occurrence (js ", ") d (d ++ js ", " ++ t) →
  ∃ r, parseWhatsAppMessage
         (VStr ((d ++ js ", " ++ t) ++ js " - " ++ rest) : value number)
       = Some r
       ∧ date r = Some d
       ∧ (¬ occurs_in (js ", ") t → time r = Some t)
       ∧ (∀ t1 t2, t = t1 ++ js ", " ++ t2 →
                   first_occurrence (js ", ") t1 t → time r = Some t1).
Proof.
  intros Hfirst Hrest Hcomma.
  destruct (parseWhatsAppMessage_first_occurrence (number := number)
              _ _ Hfirst Hrest) as (r & Hr & Hd & Ht).
  exists r. split; [exact Hr|].
  rewrite Hd, Ht, split_first_occurrence by easy.
  split_and!; [reflexivity | |].
  - intros Hno. rewrite split_no_sep by easy. reflexivity.
  - intros t1 t2 -> Ht1. rewrite split_first_occurrence by easy.
    reflexivity.
Qed.

Lemma parseWhatsAppMessage_date_time_witness :
  ∃ r, parseWhatsAppMessage dated_line = Some r
       ∧ date r = Some (js "25/01/2025")
       ∧ time r = Some (js "14:30").
Proof.
  destruct (parseWhatsAppMessage_date_time (number := safe_integer)
              (js "25/01/2025") (js "14:30")
              (js "Rahul: Bhai party kab hai?"))
    as (r & Hr & Hd & Ht & _).
  - apply find_first_is_first_occurrence; vm_compute; reflexivity.
  - apply includes_spec. vm_compute. reflexivity.
  - apply find_first_is_first_occurrence; vm_compute; reflexivity.
  - exists r. split; [exact Hr|]. split; [exact Hd|].
    apply Ht. apply find_first_None. vm_compute. reflexivity.
Defined.

Lemma trimStart_snoc l c :
  is_whitespace c = false → trimStart (l ++ [c]) = trimStart l ++ [c].
Proof.
  intros Hc. induction l as [|x l IH]; simpl.
  - rewrite Hc. reflexivity.
  - destruct (is_whitespace x); [exact IH | reflexivity].
Qed.

Lemma trimStart_head s c rest :
  trimStart s = c :: rest → is_whitespace c = false.
Proof.
  induction s as [|x s IH]; simpl; [discriminate|].
  destruct (is_whitespace x) eqn:E; [exact IH|].
  intros [= <- _]. exact E.
Qed.

Lemma trimEnd_head c s :
  is_whitespace c = false → ∃ rest, trimEnd (c :: s) = c :: rest.
Proof.
  intros Hc. unfold trimEnd.
  rewrite reverse_cons, (trimStart_snoc _ _ Hc), reverse_app.
  eexists. reflexivity.
Qed.

(** What is trimmed has no white space at either end, and trimming it
    again changes nothing. *)
Lemma trim_ends b :
  (∀ c rest, trim b = c :: rest → is_whitespace c = false)
  ∧ (∀ front c, trim b = front ++ [c] → is_whitespace c = false)
  ∧ trim (trim b) = trim b.
Proof.
  assert (∀ c rest, trim b = c :: rest → is_whitespace c = false) as Hhead.
  { intros c rest Hb. unfold trim in Hb.
    destruct (trimStart b) as [|x s] eqn:E; [discriminate Hb|].
    pose proof (trimStart_head _ _ _ E) as Hx.
    destruct (trimEnd_head x s Hx) as [rest' Hrest].
    rewrite Hrest in Hb. injection Hb as <- _. exact Hx. }
  assert (∀ front c, trim b = front ++ [c] → is_whitespace c = false)
    as Hlast.
  { intros front c Hb. unfold trim, trimEnd in Hb.
    apply (f_equal reverse) in Hb.
    rewrite reverse_involutive, reverse_app in Hb. simpl in Hb.
    apply (trimStart_head _ _ _ Hb). }
  split_and!; [exact Hhead | exact Hlast |].
  destruct (trim b) as [|c s] eqn:E; [reflexivity|].
  pose proof (Hhead _ _ eq_refl) as Hc. unfold trim at 1. simpl trimStart.
  rewrite Hc. unfold trimEnd.
  destruct (reverse (c :: s)) as [|x u] eqn:Hrev.
  - apply (f_equal length) in Hrev. rewrite length_reverse in Hrev.
    discriminate Hrev.
  - assert (c :: s = reverse u ++ [x]) as Hcs.
    { rewrite <- (reverse_involutive (c :: s)), Hrev, reverse_cons.
      reflexivity. }
    pose proof (Hlast _ _ Hcs) as Hx.
    simpl. rewrite Hx. rewrite <- Hrev. apply reverse_involutive.
Qed.

(** X4: the text of a result has no white space at either end. *)
Theorem parseWhatsAppMessage_text_trimmed {number} {host : CaseOps}
    (message : value number) r :
  parseWhatsAppMessage message = Some r →
  (∀ c rest, text r = c :: rest → is_whitespace c = false)
  ∧ (∀ front c, text r = front ++ [c] → is_whitespace c = false)
  ∧ trim (text r) = text r.
Proof.
  intros Hr.
  destruct (parseWhatsAppMessage_parts _ _ Hr)
    as (segment & body & _ & _ & _ & -> & _).
  apply trim_ends.
Qed.

Lemma parseWhatsAppMessage_text_trimmed_witness :
  ∃ r, parseWhatsAppMessage spaced_line = Some r
       ∧ text r = js "Bhai   party  kab hai?"
       ∧ trim (text r) = text r.
Proof.
  eexists. split; [vm_compute; reflexivity|]. split; [reflexivity|].
  destruct (parseWhatsAppMessage_text_trimmed spaced_line _ eq_refl)
    as (_ & _ & Htrim).
  exact Htrim.
Defined.

Lemma count_space_pieces_zero s :
  count_space_pieces false s = 0%nat ↔ forallb is_whitespace s = true.
Proof.
  induction s as [|c s IH]; simpl; [easy|].
  destruct (N.eqb_spec c SPACE) as [->|_].
  - rewrite SPACE_is_whitespace. exact IH.
  - destruct (is_whitespace c); simpl; [exact IH | easy].
Qed.

(** X5: wordCount is 0 exactly when the text is empty: a body that is not
    blank always counts for one word at least. *)
Theorem wordCount_zero_iff_empty {number} {host : CaseOps}
    (message : value number) r :
  parseWhatsAppMessage message = Some r →
  (wordCount r = 0%nat ↔ text r = []).
Proof.
  intros Hr.
  destruct (parseWhatsAppMessage_Some _ _ Hr)
    as (line & dt & rest & _ & _ & _ & _ & _ & _ & Hw & _).
  destruct (parseWhatsAppMessage_parts _ _ Hr)
    as (segment & body & _ & _ & _ & Ht & _).
  destruct (trim_ends body) as (_ & _ & Htrim). rewrite <- Ht in Htrim.
  rewrite Hw, count_words_space_pieces. unfold space_pieces_with_text.
  rewrite count_space_pieces_zero, <- trim_nil, Htrim. reflexivity.
Qed.

Lemma wordCount_zero_iff_empty_witness :
  ∃ r, parseWhatsAppMessage
         (VStr (js "25/01/2025, 14:30 - Rahul:    ") : value safe_integer)
       = Some r
       ∧ text r = [] ∧ wordCount r = 0%nat.
Proof.
  eexists. split; [vm_compute; reflexivity|]. split; [reflexivity|].
  apply (wordCount_zero_iff_empty
           (VStr (js "25/01/2025, 14:30 - Rahul:    ") : value safe_integer)
           _ eq_refl).
  reflexivity.
Defined.

(** ** The form validator *)

Lemma is_digit_spec c : is_digit c = true ↔ (48 ≤ c ≤ 57)%N.
Proof.
  unfold is_digit. rewrite andb_true_iff, !N.leb_le. reflexivity.
Qed.

Lemma forallb_is_digit s :
  forallb is_digit s = true ↔ Forall (λ c, (48 ≤ c ≤ 57)%N) s.
Proof.
  rewrite forallb_forall, Forall_forall. split; intros Hx c Hc.
  - apply is_digit_spec, Hx, list_elem_of_In, Hc.
  - apply is_digit_spec, Hx, list_elem_of_In, Hc.
Qed.

Lemma all_digits_spec s : all_digits s = true ↔ decimal_digits s.
Proof.
  unfold all_digits, decimal_digits. destruct s as [|c s].
  - split; [discriminate | intros [Hx _]; easy].
  - rewrite forallb_is_digit. split; [intros Hx; easy | intros [_ Hx]; easy].
Qed.

Lemma digit_not_whitespace c : is_digit c = true → is_whitespace c = false.
Proof.
  intros Hc. apply is_digit_spec in Hc.
  destruct (is_whitespace c) eqn:W; [|reflexivity]. exfalso.
  unfold is_whitespace in W.
  rewrite !orb_true_iff, !andb_true_iff, !N.leb_le, !N.eqb_eq in W. lia.
Qed.

Lemma digit_value_decimal c :
  is_digit c = true → digit_value 10 c = Some (Z.of_N c - 48).
Proof.
  intros Hc. unfold digit_value. rewrite Hc.
  apply is_digit_spec in Hc.
  destruct (Z.ltb_spec (Z.of_N c - 48) 10); [reflexivity | lia].
Qed.

Lemma read_digits_decimal acc s :
  forallb is_digit s = true →
  read_digits 10 (Some acc) s
  = Some (fold_left (λ a c, a * 10 + (Z.of_N c - 48)) s acc).
Proof.
  revert acc. induction s as [|c s IH]; intros acc Hs; [reflexivity|].
  simpl in Hs. apply andb_true_iff in Hs as [Hc Hs].
  simpl. rewrite (digit_value_decimal _ Hc). simpl. apply IH, Hs.
Qed.

(** On a run of digits [parseInt] reads the whole of it, in base 10. *)
Lemma parseInt_string_digits s :
  all_digits s = true → parseInt_string s = Some (decimal_value s).
Proof.
  destruct s as [|c s]; [discriminate|]. unfold all_digits. intros Hs.
  pose proof Hs as Hs'. simpl in Hs'.
  apply andb_true_iff in Hs' as [Hc Hrest].
  unfold parseInt_string. simpl trimStart.
  rewrite (digit_not_whitespace _ Hc).
  pose proof (proj1 (is_digit_spec c) Hc) as Hr.
  destruct (N.eqb_spec c 45) as [->|_]; [lia|].
  destruct (N.eqb_spec c 43) as [->|_]; [lia|].
  assert (read_digits 10 None (c :: s) = Some (decimal_value (c :: s)))
    as Hread.
  { simpl read_digits. rewrite (digit_value_decimal _ Hc).
    rewrite read_digits_decimal by exact Hrest. reflexivity. }
  destruct s as [|x s]; cbv beta iota zeta.
  - rewrite Hread. simpl. f_equal. destruct (decimal_value [c]); reflexivity.
  - simpl in Hrest. apply andb_true_iff in Hrest as [Hx _].
    apply is_digit_spec in Hx.
    destruct (N.eqb_spec x 120) as [->|_]; [lia|].
    destruct (N.eqb_spec x 88) as [->|_]; [lia|].
    rewrite andb_false_r, Hread. simpl. f_equal.
    destruct (decimal_value (c :: x :: s)); reflexivity.
Qed.

Lemma Return_inj {A} (a b : A) : Return a = Return b ↔ a = b.
Proof. split; [intros [= ->] | intros ->]; reflexivity. Qed.

Lemma age_text_fails_spec t :
  age_text_fails t = false ↔ decimal_digits t ∧ 16 ≤ decimal_value t ≤ 100.
Proof.
  unfold age_text_fails. cbv zeta. rewrite <- all_digits_spec.
  destruct (all_digits t) eqn:Hd.
  - rewrite (parseInt_string_digits _ Hd). simpl.
    rewrite orb_false_iff, Z.ltb_ge, Z.ltb_ge. intuition lia.
  - rewrite orb_true_r. simpl. split; [discriminate | intros [Hx _]; easy].
Qed.

Lemma age_fails_spec {number} `{!NumberOps number} (v : value number) :
  field_fails "age" v = Return false ↔ age_rule v.
Proof.
  unfold age_rule. destruct (to_string v) as [t|e] eqn:Ht.
  - rewrite (field_fails_age v t Ht), Return_inj, age_text_fails_spec.
    split.
    + intros Hx. exists t. easy.
    + intros (t' & [= <-] & Hx). exact Hx.
  - split.
    + unfold field_fails.
      repeat (rewrite decide_False by discriminate).
      rewrite decide_True by reflexivity.
      unfold parseInt. rewrite Ht. discriminate.
    + intros (t' & Hx & _). discriminate Hx.
Qed.

Lemma name_fails_spec {number} (v : value number) :
  name_fails v = false ↔ name_rule v.
Proof.
  unfold name_rule. destruct v as [| | | |s| |];
    try (split; [discriminate | intros (s & Hs & _); discriminate Hs]).
  simpl. rewrite orb_false_iff, !Nat.ltb_ge. split.
  - intros [H1 H2]. exists s. split; [reflexivity | lia].
  - intros (s' & [= <-] & H1). lia.
Qed.

Lemma email_fails_spec {number} (v : value number) :
  email_fails v = false ↔ email_field_rule v.
Proof.
  unfold email_field_rule. split.
  - destruct v as [| | | |s| |]; try discriminate.
    intros Hx. exists s. split; [reflexivity|].
    apply (email_accepted_rule_first_dot (number := number)), Hx.
  - intros (s & -> & Hs). apply email_rule_first_dot_accepted, Hs.
Qed.

Lemma phone_fails_spec {number} (v : value number) :
  phone_fails v = false ↔ phone_rule v.
Proof.
  unfold phone_rule. split.
  - destruct v as [| | | |s| |]; try discriminate. unfold phone_fails.
    rewrite !orb_false_iff, !negb_false_iff, Nat.eqb_eq, all_digits_spec.
    intros [[Hl Hh] Hd]. destruct s as [|c rest]; [discriminate Hh|].
    exists c, rest. split_and!; [reflexivity | exact Hl | exact Hd | |].
    all: simpl in Hh; apply andb_true_iff in Hh as [H1 H2];
      apply N.leb_le in H1, H2; lia.
  - intros (c & rest & -> & Hl & Hd & Hc). unfold phone_fails.
    rewrite !orb_false_iff, !negb_false_iff, Nat.eqb_eq, all_digits_spec.
    split_and!; [exact Hl | | exact Hd]. simpl. apply andb_true_iff.
    split; apply N.leb_le; lia.
Qed.

Lemma pincode_fails_spec {number} (v : value number) :
  pincode_fails v = false ↔ pincode_rule v.
Proof.
  unfold pincode_rule. split.
  - destruct v as [| | | |s| |]; try discriminate. unfold pincode_fails.
    rewrite !orb_false_iff, !negb_false_iff, Nat.eqb_eq, all_digits_spec.
    intros [[Hl Hh] Hd]. destruct s as [|c rest]; [destruct Hd; easy|].
    exists c, rest. split_and!; [reflexivity | exact Hl | exact Hd |].
    intros ->. cbv in Hh. discriminate Hh.
  - intros (c & rest & -> & Hl & Hd & Hc). unfold pincode_fails.
    rewrite !orb_false_iff, !negb_false_iff, Nat.eqb_eq, all_digits_spec.
    split_and!; [exact Hl | | exact Hd].
    change (startsWith (c :: rest) (js "0")) with (unit_eqb 48 c && true).
    unfold unit_eqb. rewrite andb_true_r. apply N.eqb_neq. congruence.
Qed.

Lemma not_blank_spec s : forallb is_whitespace s = false ↔ not_blank s.
Proof.
  unfold not_blank. induction s as [|c s IH]; simpl.
  - split; [discriminate | intros (c & Hc & _); inversion Hc].
  - destruct (is_whitespace c) eqn:W; simpl.
    + rewrite IH. split.
      * intros (x & Hx & Hw). exists x. split; [right; exact Hx | exact Hw].
      * intros (x & Hx & Hw). apply elem_of_cons in Hx as [-> | Hx];
          [congruence|]. exists x. easy.
    + split; [|reflexivity]. intros _. exists c. split; [left | exact W].
Qed.

Lemma state_fails_spec {number} (v : value number) :
  state_fails v = false ↔ state_rule v.
Proof.
  unfold state_rule. destruct v as [| | | |s| |];
    try (split; [discriminate | intros (s & Hs & _); discriminate Hs]).
  unfold state_fails, or_empty. rewrite blank_trim, not_blank_spec. split.
  - intros Hs. exists s. easy.
  - intros (s' & [= <-] & Hs). exact Hs.
Qed.

(** The entry of a field in the errors of a record. *)
Lemma validateForm_entry {number} `{!NumberOps number}
    (props : gmap string (value number)) r k :
  validateForm (VObj props) = Return r →
  (errors r !! k = None
   ↔ field_fails k (prop (VObj props) k) = Return false).
Proof.
  intros Hr.
  destruct (validateForm_Return_inv _ _ Hr) as (Hu & Hn & t & Ht).
  destruct (validateForm_returns _ t Hu Hn Ht) as (r' & Hr' & _ & Hk & _).
  rewrite Hr in Hr'. injection Hr' as <-. specialize (Hk k).
  assert (∃ b, field_fails k (prop (VObj props) k) = Return b) as [b Hb].
  { destruct (decide (k = "age")) as [->|Hage].
    - rewrite (field_fails_age _ t Ht). eauto.
    - unfold field_fails. rewrite (decide_False (P := k = "age")) by exact Hage.
      repeat match goal with
             | |- context [decide ?P] => destruct (decide P)
             end; eauto. }
  rewrite Hb in Hk |- *. rewrite Return_inj in Hk |- *.
  destruct (errors r !! k) as [msg|], b;
    split; intros Hx; try reflexivity; try discriminate Hx.
  - destruct Hk as [Hk _]. specialize (Hk ltac:(eauto)). discriminate Hk.
  - destruct Hk as [_ Hk]. destruct (Hk eq_refl) as [x Hx']. discriminate Hx'.
Qed.

(** X6: the validator records no email error exactly when the email is
    text with one "@" only, a "." after it and no "." before it. *)
Theorem validateForm_email_exact {number} `{!NumberOps number}
    (props : gmap string (value number)) r :
  validateForm (VObj props) = Return r →
  (errors r !! "email" = None ↔ email_field_rule (prop (VObj props) "email")).
Proof.
  intros Hr. rewrite (validateForm_entry props r "email" Hr).
  pick_field. rewrite Return_inj. apply email_fails_spec.
Qed.

Lemma validateForm_email_exact_witness :
  ∃ r, validateForm (VObj valid_fields) = Return r
       ∧ errors r !! "email" = None.
Proof.
  eexists.
  match goal with
  | |- _ = Return ?r ∧ _ =>
      assert (validateForm (VObj valid_fields) = Return r) as Hr
        by (vm_compute; reflexivity)
  end.
  split; [exact Hr|].
  apply (validateForm_email_exact valid_fields _ Hr).
  exists (js "rahul@gmail.com"). split; [reflexivity|].
  exists (js "rahul"), (js "gmail.com").
  split_and!; [reflexivity | | | | ]; by_compute.
Defined.

(** X7: the validator records no age error exactly when the text of the
    age is a non-empty run of decimal digits that writes a number from 16
    to 100: what parseInt would read from a longer text ("22abc", " 22",
    "+22") is not accepted, and leading zeros are. *)
Theorem validateForm_age_exact {number} `{!NumberOps number}
    (props : gmap string (value number)) r :
  validateForm (VObj props) = Return r →
  (errors r !! "age" = None ↔ age_rule (prop (VObj props) "age")).
Proof.
  intros Hr. rewrite (validateForm_entry props r "age" Hr).
  apply age_fails_spec.
Qed.

Lemma validateForm_age_exact_witness :
  ∃ r, validateForm (VObj (form_with "age" (VStr (js "0022")) valid_fields))
       = Return r
       ∧ errors r !! "age" = None.
Proof.
  eexists.
  match goal with
  | |- _ = Return ?r ∧ _ =>
      assert (validateForm
                (VObj (form_with "age" (VStr (js "0022")) valid_fields))
              = Return r) as Hr
        by (vm_compute; reflexivity)
  end.
  split; [exact Hr|].
  apply (validateForm_age_exact _ _ Hr).
  exists (js "0022"). split; [reflexivity|].
  split; [apply all_digits_spec; reflexivity|].
  vm_compute. split; discriminate.
Defined.

(** What parseInt alone would accept is rejected. *)
Example validateForm_age_with_suffix :
  ∃ r, validateForm (VObj (form_with "age" (VStr (js "22abc")) valid_fields))
       = Return r
       ∧ parseInt (VStr (js "22abc") : value safe_integer)
         = Return (Some 22)
       ∧ is_Some (errors r !! "age").
Proof.
  eexists. split_and!; [vm_compute; reflexivity | reflexivity |].
  vm_compute. eexists. reflexivity.
Qed.

(** X8: a form is valid exactly when its seven fields follow their rules:
    name is text of 2 to 50 units once trimmed; email as above; phone is
    text of 10 digits that starts with 6, 7, 8 or 9; age as above; pincode
    is text of 6 digits that does not start with 0; state is text that is
    not blank; agreeTerms is truthy. *)
Theorem validateForm_valid_iff {number} `{!NumberOps number}
    (props : gmap string (value number)) r :
  validateForm (VObj props) = Return r →
  (isValid r = true ↔
   name_rule (prop (VObj props) "name")
   ∧ email_field_rule (prop (VObj props) "email")
   ∧ phone_rule (prop (VObj props) "phone")
   ∧ age_rule (prop (VObj props) "age")
   ∧ pincode_rule (prop (VObj props) "pincode")
   ∧ state_rule (prop (VObj props) "state")
   ∧ truthy (prop (VObj props) "agreeTerms") = true).
Proof.
  intros Hr.
  destruct (validateForm_Return_inv _ _ Hr) as (Hu & Hn & t & Ht).
  destruct (validateForm_returns _ t Hu Hn Ht) as (r' & Hr' & Hv & _ & He).
  rewrite Hr in Hr'. injection Hr' as <-.
  rewrite Hv, Nat.eqb_eq, map_size_empty_iff, He.
  rewrite <- name_fails_spec, <- email_fails_spec, <- phone_fails_spec,
    <- age_fails_spec, <- pincode_fails_spec, <- state_fails_spec.
  split.
  - intros Hall. split_and!.
    + specialize (Hall "name" ltac:(by_compute)). revert Hall. pick_field.
      apply Return_inj.
    + specialize (Hall "email" ltac:(by_compute)). revert Hall. pick_field.
      apply Return_inj.
    + specialize (Hall "phone" ltac:(by_compute)). revert Hall. pick_field.
      apply Return_inj.
    + apply (Hall "age"). by_compute.
    + specialize (Hall "pincode" ltac:(by_compute)). revert Hall. pick_field.
      apply Return_inj.
    + specialize (Hall "state" ltac:(by_compute)). revert Hall. pick_field.
      apply Return_inj.
    + specialize (Hall "agreeTerms" ltac:(by_compute)). revert Hall.
      pick_field. rewrite Return_inj. unfold agreeTerms_fails.
      apply negb_false_iff.
  - intros (H1 & H2 & H3 & H4 & H5 & H6 & H7) k Hk.
    unfold form_fields in Hk.
    each_field Hk
      ltac:(first [ exact H4
                  | pick_field; apply Return_inj;
                    first [ assumption
                          | unfold agreeTerms_fails; rewrite H7;
                            reflexivity ] ]).
Qed.

Lemma validateForm_valid_iff_witness :
  ∃ r, validateForm (VObj valid_fields) = Return r ∧ isValid r = true.
Proof.
  eexists.
  match goal with
  | |- _ = Return ?r ∧ _ =>
      assert (validateForm (VObj valid_fields) = Return r) as Hr
        by (vm_compute; reflexivity)
  end.
  split; [exact Hr|].
  apply (validateForm_valid_iff valid_fields _ Hr). split_and!.
  - exists (js "Rahul Sharma"). split; [reflexivity|]. vm_compute. lia.
  - exists (js "rahul@gmail.com"). split; [reflexivity|].
    exists (js "rahul"), (js "gmail.com").
    split_and!; [reflexivity | | | | ]; by_compute.
  - eexists _, _. split; [reflexivity|]. split; [reflexivity|].
    split; [apply all_digits_spec; reflexivity|].
    vm_compute. split; discriminate.
  - exists (js "22"). split; [reflexivity|].
    split; [apply all_digits_spec; reflexivity|].
    vm_compute. split; discriminate.
  - eexists _, _. split; [reflexivity|]. split; [reflexivity|].
    split; [apply all_digits_spec; reflexivity|].
    vm_compute. discriminate.
  - exists (js "Maharashtra"). split; [reflexivity|].
    apply not_blank_spec. reflexivity.
  - reflexivity.
Defined.

(** The entry of the error record for a field named by a literal, when it
    is there. *)
Ltac fixed_entry :=
  repeat (rewrite lookup_record_if_ne by discriminate);
  rewrite lookup_record_if_eq;
  repeat (rewrite lookup_record_if_ne by discriminate);
  rewrite lookup_empty;
  match goal with
  | |- context [if ?c then _ else _] => destruct c
  end;
  [ intros [= <-]; by_compute | discriminate ].

(** X9: the errors hold nothing but the seven fields, each with its own
    message. *)
Theorem validateForm_errors_fixed {number} `{!NumberOps number}
    (props : gmap string (value number)) r k msg :
  validateForm (VObj props) = Return r →
  errors r !! k = Some msg →
  (k, msg) ∈ error_messages.
Proof.
  intros Hr. destruct (validateForm_Return_inv _ _ Hr) as (_ & _ & t & Ht).
  revert Hr. unfold validateForm. cbn [get mbind outcome_bind].
  rewrite (parseInt_text _ t Ht). cbn [mbind outcome_bind].
  rewrite (age_fails_text _ t Ht). cbn [mbind outcome_bind].
  intros [= <-]. cbn [errors].
  destruct (decide (k = "name")) as [->|N1]; [fixed_entry|].
  destruct (decide (k = "email")) as [->|N2]; [fixed_entry|].
  destruct (decide (k = "phone")) as [->|N3]; [fixed_entry|].
  destruct (decide (k = "age")) as [->|N4]; [fixed_entry|].
  destruct (decide (k = "pincode")) as [->|N5]; [fixed_entry|].
  destruct (decide (k = "state")) as [->|N6]; [fixed_entry|].
  destruct (decide (k = "agreeTerms")) as [->|N7]; [fixed_entry|].
  rewrite !lookup_record_if_ne by congruence. rewrite lookup_empty.
  discriminate.
Qed.

Lemma validateForm_errors_fixed_witness :
  ("age", js "Age must be an integer between 16 and 100") ∈ error_messages.
Proof.
  assert (∃ r, validateForm
                 (VObj (form_with "age" (VStr (js "22abc")) valid_fields))
               = Return r
               ∧ errors r !! "age"
                 = Some (js "Age must be an integer between 16 and 100"))
    as (r & Hr & Hk).
  { eexists. split; vm_compute; reflexivity. }
  exact (validateForm_errors_fixed _ r _ _ Hr Hk).
Defined.

(** ** The pass formatter *)

Lemma required_text_Some {number} (v : value number) s :
  required_text v = Some s ↔ v = VStr s ∧ trim s ≠ [].
Proof.
  unfold required_text. destruct v as [| | | |t| |];
    try (split; [discriminate | intros [Hv _]; discriminate Hv]).
  destruct (str_eqb (trim t) []) eqn:E.
  - apply str_eqb_eq in E. split; [discriminate|].
    intros [[= ->] Hs]. easy.
  - apply str_eqb_neq in E. split.
    + intros [= <-]. easy.
    + intros [[= ->] _]. reflexivity.
Qed.

Section PassFurther.
Context {number : Type} {host : CaseOps}.

Lemma pass_is_not_the_marker name from to classTypeLower :
  join [LF] (pass_lines name from to classTypeLower) ≠ INVALID_PASS.
Proof. unfold pass_lines. simpl join. vm_compute. discriminate. Qed.

(** X10: the invalid marker is returned exactly for the values that are
    not accepted: everything that is not a record, a record with one of
    the four fields absent, not text or blank, and a class which, in lower
    case, is neither "first" nor "second" as it stands (a blank around it
    is not removed). A pass is never the marker. *)
Theorem generateLocalPass_invalid_iff (v : value number) :
  generateLocalPass v = INVALID_PASS
  ↔ ¬ ∃ name from to classType, accepted_passenger v name from to classType.
Proof.
  split.
  - intros Hout (name & from & to & classType & [props ->] & Hn & Hf & Ht
                 & Hc & Tn & Tf & Tt & Tc & Hclass).
    rewrite (generateLocalPass_accepted props name from to classType)
      in Hout by assumption.
    apply (pass_is_not_the_marker _ _ _ _ Hout).
  - intros Hno. unfold generateLocalPass.
    destruct v as [| | | | | |props]; try reflexivity.
    destruct (required_text (prop (VObj props) "name")) as [name|] eqn:En;
      [|reflexivity].
    destruct (required_text (prop (VObj props) "from")) as [from|] eqn:Ef;
      [|reflexivity].
    destruct (required_text (prop (VObj props) "to")) as [to|] eqn:Et;
      [|reflexivity].
    destruct (required_text (prop (VObj props) "classType"))
      as [classType|] eqn:Ec; [|reflexivity].
    apply required_text_Some in En as [Hn Tn], Ef as [Hf Tf],
      Et as [Ht Tt], Ec as [Hc Tc].
    destruct (str_eqb (toLowerCase classType) (js "first")) eqn:E1.
    + exfalso. apply Hno. exists name, from, to, classType.
      apply str_eqb_eq in E1. unfold accepted_passenger.
      split_and!; eauto.
    + destruct (str_eqb (toLowerCase classType) (js "second")) eqn:E2;
        [|reflexivity].
      exfalso. apply Hno. exists name, from, to, classType.
      apply str_eqb_eq in E2. unfold accepted_passenger.
      split_and!; eauto.
Qed.

End PassFurther.

Lemma generateLocalPass_invalid_iff_witness :
  generateLocalPass padded_class_pass = INVALID_PASS.
Proof.
  apply (generateLocalPass_invalid_iff padded_class_pass).
  intros (name & from & to & classType & _ & _ & _ & _ & Hc & _ & _ & _ & _
          & Hclass).
  vm_compute in Hc. injection Hc as <-.
  destruct Hclass as [Hx | Hx]; vm_compute in Hx; discriminate Hx.
Defined.

Lemma join_snoc sep pieces x :
  pieces ≠ [] → join sep (pieces ++ [x]) = join sep pieces ++ sep ++ x.
Proof.
  induction pieces as [|p [|q rest] IH]; intros Hne; [easy | reflexivity|].
  change (join sep ((p :: q :: rest) ++ [x]))
    with (p ++ sep ++ join sep ((q :: rest) ++ [x])).
  rewrite IH by discriminate.
  change (join sep (p :: q :: rest)) with (p ++ sep ++ join sep (q :: rest)).
  rewrite <- !app_assoc. reflexivity.
Qed.

Lemma length_basic_latin_upper s :
  length (basic_latin_upper s) = length s.
Proof. apply length_fmap. Qed.

(** X11: the identifier of a pass starts with F for the first class and S
    for the second, and goes on with at most three units of each station
    in upper case: it has 7 units at most, as many as 1 and the lengths
    of the two upper-cased stations, each counted up to three, for it is
    not padded. When the stations are text of Basic Latin, their upper
    case has their own length. *)
Theorem generateLocalPass_identifier {number} {host : CaseOps}
    (v : value number) name from to classType :
  accepted_passenger v name from to classType →
  ∃ before initial,
    generateLocalPass v
    = before ++ js "Pass ID: " ++ initial
      ++ take 3 (toUpperCase from) ++ take 3 (toUpperCase to)
    ∧ (toLowerCase classType = js "first" → initial = js "F")
    ∧ (toLowerCase classType = js "second" → initial = js "S")
    ∧ length (initial ++ take 3 (toUpperCase from)
              ++ take 3 (toUpperCase to))
      = (1 + Nat.min 3 (length (toUpperCase from))
         + Nat.min 3 (length (toUpperCase to)))%nat
    ∧ (length (initial ++ take 3 (toUpperCase from)
               ++ take 3 (toUpperCase to)) ≤ 7)%nat
    ∧ (forallb is_basic_latin from = true →
       forallb is_basic_latin to = true →
       length (initial ++ take 3 (toUpperCase from)
               ++ take 3 (toUpperCase to))
       = (1 + Nat.min 3 (length from) + Nat.min 3 (length to))%nat).
Proof.
  intros ([props ->] & Hn & Hf & Ht & Hc & Tn & Tf & Tt & Tc & Hclass).
  rewrite (generateLocalPass_accepted props name from to classType)
    by assumption.
  unfold pass_lines. rewrite passId_spec. unfold pass_id_line.
  destruct (class_initial classType) as [Hfirst Hsecond].
  assert (length (toUpperCase (take 1 (toLowerCase classType))) = 1%nat)
    as Hinitial.
  { destruct Hclass as [Hx | Hx];
      [rewrite (Hfirst Hx) | rewrite (Hsecond Hx)]; reflexivity. }
  exists (join [LF]
            [ js "MUMBAI LOCAL PASS"; js "---";
              js "Name: " ++ toUpperCase name;
              js "From: " ++ titleCase from;
              js "To: " ++ titleCase to;
              js "Class: " ++ toUpperCase (toLowerCase classType) ]
          ++ [LF]),
    (toUpperCase (take 1 (toLowerCase classType))).
  split_and!.
  - rewrite <- (app_assoc _ [LF]). apply (join_snoc [LF] [_; _; _; _; _; _]).
    discriminate.
  - exact Hfirst.
  - exact Hsecond.
  - rewrite !length_app, !length_take, Hinitial. reflexivity.
  - rewrite !length_app, !length_take, Hinitial. lia.
  - intros Bf Bt. rewrite !length_app, !length_take, Hinitial.
    rewrite (toUpperCase_basic_latin from Bf).
    rewrite (toUpperCase_basic_latin to Bt).
    rewrite !length_basic_latin_upper. reflexivity.
Qed.

Lemma generateLocalPass_identifier_witness :
  (∃ before,
     generateLocalPass short_station_pass
     = before ++ js "Pass ID: " ++ js "S" ++ js "D" ++ js "AND")
  ∧ ∃ before,
      generateLocalPass sharp_s_pass
      = before ++ js "Pass ID: " ++ js "F" ++ js "ASS" ++ js "AND".
Proof.
  split.
  - destruct (generateLocalPass_identifier short_station_pass
                (js "rahul sharma") (js "d") (js "andheri") (js "SECOND"))
      as (before & initial & Hout & _ & Hs & _).
    + unfold accepted_passenger.
      split_and!; try (vm_compute; discriminate); try reflexivity.
      * eexists. reflexivity.
      * right. reflexivity.
    + exists before. rewrite Hout, (Hs eq_refl). reflexivity.
  - destruct (generateLocalPass_identifier sharp_s_pass
                (js "rahul sharma") (js "a" ++ [sharp_s] ++ js "bc")
                (js "andheri") (js "first"))
      as (before & initial & Hout & Hf & _).
    + unfold accepted_passenger.
      split_and!; try (vm_compute; discriminate); try reflexivity.
      * eexists. reflexivity.
      * left. reflexivity.
    + exists before. rewrite Hout, (Hf eq_refl). reflexivity.
Defined.
(** ** The reservation status processor *)

Section RailwayFurther.
Context {number : Type} `{!NumberOps number}.

(** X12: the three outcomes of the processor. It returns null exactly when
    one of its checks fails. When they pass, it returns a report exactly
    when the five values of the train line have a text and, in every
    passenger, name and current are text and age and gender have a text;
    it throws a type error when a value of the train line has no text, or
    when some passenger has a name or a current that is not text, or an
    age or a gender without a text. *)
Theorem processRailwayPNR_outcomes (v : value number) :
  (processRailwayPNR v = Return None ↔ ¬ ∃ ps, passes_checks v ps)
  ∧ (∀ ps, passes_checks v ps → train_line_text v →
           Forall processable ps →
           ∃ report, processRailwayPNR v = Return (Some report))
  ∧ (∀ ps, passes_checks v ps →
           ¬ train_line_text v ∨ Exists (λ p, ¬ processable p) ps →
           processRailwayPNR v = Throw TypeError)
  ∧ (∀ report, processRailwayPNR v = Return (Some report) →
               ∃ ps, passes_checks v ps ∧ train_line_text v
                     ∧ Forall processable ps).
Proof.
  assert (∀ ps, passes_checks v ps → train_line_text v →
                Forall processable ps →
                ∃ report, processRailwayPNR v = Return (Some report))
    as Hreport.
  { intros ps Hv Htext Hall.
    destruct (map_outcome_all_Return process_passenger ps) as [processed Hm].
    { eapply Forall_impl; [exact Hall|]. intros p Hp.
      apply process_passenger_processable, Hp. }
    destruct (passes_checks_Return v ps processed Hv Htext Hm)
      as (report & Hr & _).
    eauto. }
  assert (∀ ps, passes_checks v ps →
                ¬ train_line_text v ∨ Exists (λ p, ¬ processable p) ps →
                processRailwayPNR v = Throw TypeError) as Hthrow.
  { intros ps Hv [Hno | Hex].
    - apply (passes_checks_textless v ps Hv Hno).
    - apply Exists_exists in Hex as (p & Hin & Hp).
      apply (passes_checks_Throw v ps Hv).
      apply (map_outcome_Throw _ _ p Hin), process_passenger_Throw, Hp. }
  assert (∀ ps, passes_checks v ps →
                (train_line_text v ∧ Forall processable ps)
                ∨ (¬ train_line_text v
                   ∨ Exists (λ p, ¬ processable p) ps)) as Hcases.
  { intros ps Hv.
    destruct (train_line_text_dec v) as [Htext | Hno]; [|tauto].
    destruct (map_outcome process_passenger ps) as [processed|[]] eqn:Hm.
    - left. split; [exact Htext|].
      apply map_outcome_Return in Hm. apply Forall_forall. intros p Hin.
      apply list_elem_of_lookup in Hin as [i Hi].
      destruct (Forall2_lookup_l _ _ _ _ _ Hm Hi) as (q & _ & Hq).
      apply process_passenger_processable. eauto.
    - right. right.
      destruct (map_outcome_Throw_inv _ _ Hm) as (p & Hin & Hp).
      apply Exists_exists. exists p. split; [exact Hin|].
      intros Hx. apply process_passenger_processable in Hx as [q Hq].
      rewrite Hq in Hp. discriminate Hp. }
  split_and!; [|exact Hreport | exact Hthrow|].
  - split.
    + intros Hnull [ps Hv].
      destruct (Hcases ps Hv) as [[Htext Hall] | Hbad].
      * destruct (Hreport ps Hv Htext Hall) as [report Hr]. congruence.
      * rewrite (Hthrow ps Hv Hbad) in Hnull. discriminate Hnull.
    + intros Hno.
      destruct (processRailwayPNR_checks v) as [(ps & Hv & _) | [_ Hnull]];
        [|exact Hnull].
      exfalso. eauto.
  - intros report Hr.
    destruct (processRailwayPNR_checks v) as [(ps & Hv & _) | [_ Hnull]];
      [|congruence].
    exists ps. split; [exact Hv|].
    destruct (Hcases ps Hv) as [Hgood | Hbad]; [exact Hgood|].
    rewrite (Hthrow ps Hv Hbad) in Hr. discriminate Hr.
Qed.

(** X13: the formatted pnr is the ten digits in groups of three, three and
    four with a dash between them, twelve units in all; taking the dashes
    out gives the pnr back. *)
Theorem pnrFormatted_groups (v : value number) report :
  processRailwayPNR v = Return (Some report) →
  ∃ a b c,
    prop v "pnr" = VStr (a ++ b ++ c)
    ∧ length a = 3%nat ∧ length b = 3%nat ∧ length c = 4%nat
    ∧ pnrFormatted report = a ++ js "-" ++ b ++ js "-" ++ c
    ∧ length (pnrFormatted report) = 12%nat
    ∧ List.filter (λ u, negb (u =? 45)%N) (pnrFormatted report)
      = a ++ b ++ c.
Proof.
  intros Hr.
  destruct (processRailwayPNR_Some _ _ Hr)
    as (pnr & ps & Hp & [Hl Hd] & _ & _ & _ & _ & _ & _ & _ & _ & _ & _ & _
        & Hf & _).
  destruct pnr as [|d1 [|d2 [|d3 [|d4 [|d5 [|d6 [|d7 [|d8 [|d9 [|d10 [|]]]]]]]]]]];
    try discriminate Hl.
  exists [d1; d2; d3], [d4; d5; d6], [d7; d8; d9; d10].
  rewrite Hf. split_and!; try reflexivity; [exact Hp|].
  change (slice [d1; d2; d3; d4; d5; d6; d7; d8; d9; d10] 0 3
          ++ js "-" ++ slice [d1; d2; d3; d4; d5; d6; d7; d8; d9; d10] 3 6
          ++ js "-" ++ slice_from [d1; d2; d3; d4; d5; d6; d7; d8; d9; d10] 6)
    with [d1; d2; d3; 45%N; d4; d5; d6; 45%N; d7; d8; d9; d10].
  repeat match goal with
         | Hx : Forall _ (_ :: _) |- _ =>
             apply Forall_cons in Hx as [? Hx]
         end.
  cbn [List.filter].
  repeat match goal with
         | Hx : (48 ≤ ?d ≤ 57)%N |- _ =>
             replace (d =? 45)%N with false by (symmetry; apply N.eqb_neq; lia);
             clear Hx
         end.
  reflexivity.
Qed.

(** X14: the passengers of the report are those of the input, one for one
    and in the same order: totalPassengers is their number, and each
    processed passenger carries the booking and the current value of the
    passenger it comes from, and is confirmed exactly when its label is
    CONFIRMED. *)
Theorem passengers_one_for_one (v : value number) report ps :
  processRailwayPNR v = Return (Some report) →
  prop v "passengers" = VArr ps →
  totalPassengers (summary report) = length ps
  ∧ length (passengers report) = length ps
  ∧ (0 < length ps)%nat
  ∧ ∀ i p, ps !! i = Some p →
      ∃ q current,
        passengers report !! i = Some q
        ∧ prop p "current" = VStr current
        ∧ currentStatus q = VStr current
        ∧ bookingStatus q = prop p "booking"
        ∧ (isConfirmed q = true ↔ labelled (js "CONFIRMED") q).
Proof.
  intros Hr Hps.
  destruct (processRailwayPNR_Some _ _ Hr)
    as (pnr & ps' & _ & _ & Hps' & Hne & Hall & Ht & _).
  rewrite Hps in Hps'. injection Hps' as <-.
  pose proof (Forall2_length _ _ _ Hall) as Hlen.
  split_and!.
  - rewrite Ht. symmetry. exact Hlen.
  - symmetry. exact Hlen.
  - destruct ps; [easy | simpl; lia].
  - intros i p Hi.
    destruct (Forall2_lookup_l _ _ _ _ _ Hall Hi) as (q & Hq & Hpq).
    destruct (process_passenger_fields _ _ Hpq)
      as (current & name & _ & _ & Hc & _ & _ & _ & _ & Hb & Hcs & Hl
          & Hconf).
    exists q, current. split_and!; try assumption.
    unfold labelled. rewrite Hconf, <- Hl. apply str_eqb_eq.
Qed.

(** X15: the label of a processed passenger follows from the current value
    alone, and the four rules exclude one another: CONFIRMED exactly when
    it starts with "B" or with "S", WAITING exactly when it starts with
    "WL", CANCELLED exactly when it is "CAN", RAC exactly when it starts
    with "RAC", and no label otherwise. *)
Theorem statusLabel_rules (v : value number) report ps i p q current :
  processRailwayPNR v = Return (Some report) →
  prop v "passengers" = VArr ps →
  ps !! i = Some p →
  passengers report !! i = Some q →
  prop p "current" = VStr current →
  (labelled (js "CONFIRMED") q
   ↔ (∃ rest, current = js "B" ++ rest) ∨ (∃ rest, current = js "S" ++ rest))
  ∧ (labelled (js "WAITING") q ↔ ∃ rest, current = js "WL" ++ rest)
  ∧ (labelled (js "CANCELLED") q ↔ current = js "CAN")
  ∧ (labelled (js "RAC") q ↔ ∃ rest, current = js "RAC" ++ rest)
  ∧ (labelled [] q ↔ matches_no_rule current).
Proof.
  intros Hr Hps Hi Hq Hcur.
  destruct (processRailwayPNR_Some _ _ Hr)
    as (pnr & ps' & _ & _ & Hps' & _ & Hall & _).
  rewrite Hps in Hps'. injection Hps' as <-.
  destruct (Forall2_lookup_l _ _ _ _ _ Hall Hi) as (q' & Hq' & Hpq).
  rewrite Hq in Hq'. injection Hq' as <-.
  destruct (process_passenger_fields _ _ Hpq)
    as (current' & name & _ & _ & Hc & _ & _ & _ & _ & _ & _ & Hl & _).
  rewrite Hcur in Hc. injection Hc as <-.
  unfold labelled. rewrite Hl, <- !startsWith_spec.
  apply status_of_rules.
Qed.





(** X17: the formatted name starts with the name, goes on with spaces up
    to column 20 when the name is shorter, and then with "(age/gender)",
    age and gender being the texts of the two values: a name of more than
    20 units is kept whole and moves the bracket to the right. *)
Theorem formattedName_columns (v : value number) report ps i p q name :
  processRailwayPNR v = Return (Some report) →
  prop v "passengers" = VArr ps →
  ps !! i = Some p →
  passengers report !! i = Some q →
  prop p "name" = VStr name →
  ∃ padding ageText genderText,
    to_string (prop p "age") = Return ageText
    ∧ to_string (prop p "gender") = Return genderText
    ∧ formattedName q
      = name ++ padding ++ js "(" ++ ageText ++ js "/" ++ genderText
        ++ js ")"
    ∧ Forall (λ c, c = SPACE) padding
    ∧ length (name ++ padding) = Nat.max 20 (length name).
Proof.
  intros Hr Hps Hi Hq Hname.
  destruct (processRailwayPNR_Some _ _ Hr)
    as (pnr & ps' & _ & _ & Hps' & _ & Hall & _).
  rewrite Hps in Hps'. injection Hps' as <-.
  destruct (Forall2_lookup_l _ _ _ _ _ Hall Hi) as (q' & Hq' & Hpq).
  rewrite Hq in Hq'. injection Hq' as <-.
  destruct (process_passenger_fields _ _ Hpq)
    as (current & name' & ageText & genderText & _ & Hn & Ha & Hg & Hf & _).
  rewrite Hname in Hn. injection Hn as <-.
  exists (replicate (20 - length name) SPACE), ageText, genderText.
  split_and!; [exact Ha | exact Hg | | |].
  - rewrite Hf. unfold padEnd. rewrite <- app_assoc. reflexivity.
  - apply Forall_forall. intros c Hc.
    apply elem_of_replicate in Hc as [Hc _]. exact Hc.
  - rewrite length_app, length_replicate. lia.
Qed.

End RailwayFurther.


(** ** The further properties at concrete inputs *)

Example parseWhatsAppMessage_early_colon :
  parseWhatsAppMessage early_colon_line = None.
Proof. reflexivity. Qed.

Lemma reservation_passes ps :
  ps ≠ [] → passes_checks (VObj (reservation ps)) ps.
Proof.
  intros Hne. eexists _, (js "1234567890"), _.
  split; [reflexivity|]. split; [reflexivity|].
  split; [apply ten_digits_spec; reflexivity|].
  split; [reflexivity|]. split; [left; eexists; reflexivity|].
  split; [reflexivity | exact Hne].
Qed.

Lemma mixed_passengers_processable : Forall processable mixed_passengers.
Proof.
  repeat (apply Forall_cons_2;
          [apply well_formed_processable, passenger_well_formed|]).
  apply Forall_nil_2.
Qed.

Lemma processRailwayPNR_outcomes_witness :
  processRailwayPNR (VObj (reservation unnamed_passengers)) = Throw TypeError
  ∧ processRailwayPNR textless_train_reservation = Throw TypeError
  ∧ ∃ report,
      processRailwayPNR (VObj (reservation mixed_passengers))
      = Return (Some report).
Proof.
  split_and!.
  - destruct (processRailwayPNR_outcomes
                (VObj (reservation unnamed_passengers)))
      as (_ & _ & Hthrow & _).
    apply (Hthrow unnamed_passengers).
    + apply reservation_passes. discriminate.
    + right. apply Exists_cons_hd. intros [[Hn _] _]. discriminate Hn.
  - destruct (processRailwayPNR_outcomes textless_train_reservation)
      as (_ & _ & Hthrow & _).
    apply (Hthrow settled_passengers).
    + apply structurally_valid_passes, textless_train_reservation_valid.
    + left. intros [Hnumber _]. apply Hnumber. by_no_text.
  - destruct (processRailwayPNR_outcomes
                (VObj (reservation mixed_passengers)))
      as (_ & Hreport & _).
    apply (Hreport mixed_passengers).
    + apply reservation_passes. discriminate.
    + apply reservation_train_line.
    + apply mixed_passengers_processable.
Defined.

(** The report of the mixed reservation. *)
Ltac mixed_report Hr :=
  eexists;
  match goal with
  | |- _ = Return (Some ?r) ∧ _ =>
      assert (processRailwayPNR (VObj (reservation mixed_passengers))
              = Return (Some r)) as Hr by (vm_compute; reflexivity)
  end;
  split; [exact Hr|].

Lemma pnrFormatted_groups_witness :
  ∃ report,
    processRailwayPNR (VObj (reservation mixed_passengers))
    = Return (Some report)
    ∧ pnrFormatted report = js "123-456-7890"
    ∧ List.filter (λ u, negb (u =? 45)%N) (pnrFormatted report)
      = js "1234567890".
Proof.
  mixed_report Hr.
  destruct (pnrFormatted_groups _ _ Hr)
    as (a & b & c & Hp & _ & _ & _ & _ & _ & Hfilter).
  split; [reflexivity|].
  assert (VStr (js "1234567890") = VStr (a ++ b ++ c)
          :> value safe_integer) as Hq
    by exact Hp.
  injection Hq as Hq. rewrite Hfilter, <- Hq. reflexivity.
Defined.

Lemma passengers_one_for_one_witness :
  ∃ report,
    processRailwayPNR (VObj (reservation mixed_passengers))
    = Return (Some report)
    ∧ totalPassengers (summary report) = 6%nat
    ∧ length (passengers report) = 6%nat.
Proof.
  mixed_report Hr.
  destruct (passengers_one_for_one _ _ mixed_passengers Hr eq_refl)
    as (Ht & Hl & _).
  split; [exact Ht | exact Hl].
Defined.

Lemma statusLabel_rules_witness :
  ∃ report,
    processRailwayPNR (VObj (reservation mixed_passengers))
    = Return (Some report)
    ∧ ∃ q, passengers report !! 2%nat = Some q
           ∧ labelled (js "WAITING") q.
Proof.
  mixed_report Hr. eexists. split; [reflexivity|].
  destruct (statusLabel_rules _ _ mixed_passengers 2%nat
              (passenger "Amit Singh" 60 "M" "WL12" "WL8") _ (js "WL8")
              Hr eq_refl eq_refl eq_refl eq_refl)
    as (_ & Hwaiting & _).
  apply Hwaiting. exists (js "8"). reflexivity.
Defined.


Lemma formattedName_columns_witness :
  ∃ report,
    processRailwayPNR (VObj (reservation mixed_passengers))
    = Return (Some report)
    ∧ ∃ q, passengers report !! 5%nat = Some q
           ∧ formattedName q
             = js "A passenger with a very long name(52/F)".
Proof.
  mixed_report Hr. eexists. split; [reflexivity|].
  destruct (formattedName_columns _ _ mixed_passengers 5%nat
              (passenger "A passenger with a very long name" 52 "F" "GN"
                 "GNWL4") _
              (js "A passenger with a very long name")
              Hr eq_refl eq_refl eq_refl eq_refl)
    as (padding & ageText & genderText & Ha & Hg & Hname & Hspaces
        & Hlen).
  vm_compute in Ha, Hg. injection Ha as <-. injection Hg as <-.
  assert (padding = []) as ->.
  { rewrite length_app in Hlen. vm_compute in Hlen.
    destruct padding; [reflexivity | simpl in Hlen; lia]. }
  rewrite Hname. reflexivity.
Defined.
